(** * qr-restaurant: browser-side cart, checkout renderer, offline cache
      and staff payment confirmation

    A shallow embedding of the JavaScript sources, the properties the
    specification states about them, and further properties of the same
    code: the page under the cart, the life cycle of the service worker and
    the messages of the staff socket.

    Conventions of the embedding.
    - A JavaScript number is kept exactly: [NaN], the two infinities, or a
      rational.  Rounding and overflow of IEEE doubles are outside the model.
    - A JavaScript string is a [string]; one [ascii] stands for one code
      unit.  Literals of the sources that are not ASCII are kept as written.
    - [localStorage] holds strings.  The only thing the sources do with a
      stored string is to test it for emptiness and to hand it to
      [JSON.parse]; a stored string is therefore kept as what [JSON.parse]
      makes of it: the JSON datum it denotes, or the raw text when it is
      outside the JSON grammar.  The store never runs out of room.
    - An exception is a [Throw] result; [try]/[catch] is a match on it.
    - The scripts are classic scripts, outside strict mode.
    - A promise is kept as what it settles to; one handler runs at a time. *)

From Stdlib Require Import ZArith QArith Qabs Qround Qreduction List Ascii String Lia Lqa.
From stdpp Require Import base option list gmap strings pretty.

Local Set Warnings "-register-all".
Local Open Scope string_scope.
Local Open Scope Z_scope.

(** ** JavaScript values and the coercions the sources rely on *)
Module JS.

(** *** Numbers *)

Inductive num : Type :=
| NaN
| PInf
| NInf
| Fin (q : Q).

Definition int (z : Z) : num := Fin (inject_Z z).

(** [a + b] on numbers. *)
Definition num_add (a b : num) : num :=
  match a, b with
  | NaN, _ | _, NaN => NaN
  | PInf, NInf | NInf, PInf => NaN
  | PInf, _ | _, PInf => PInf
  | NInf, _ | _, NInf => NInf
  | Fin p, Fin q => Fin (p + q)%Q
  end.

Definition inf_times (positive : bool) (q : Q) : num :=
  match (0 ?= q)%Q with
  | Eq => NaN
  | Lt => if positive then PInf else NInf
  | Gt => if positive then NInf else PInf
  end.

(** [a * b] on numbers. *)
Definition num_mul (a b : num) : num :=
  match a, b with
  | NaN, _ | _, NaN => NaN
  | PInf, PInf | NInf, NInf => PInf
  | PInf, NInf | NInf, PInf => NInf
  | PInf, Fin q | Fin q, PInf => inf_times true q
  | NInf, Fin q | Fin q, NInf => inf_times false q
  | Fin p, Fin q => Fin (p * q)%Q
  end.

(** [Math.max(a, b)]: [NaN] as soon as one argument is [NaN]. *)
Definition Math_max (a b : num) : num :=
  match a, b with
  | NaN, _ | _, NaN => NaN
  | PInf, _ | _, PInf => PInf
  | NInf, x | x, NInf => x
  | Fin p, Fin q => if Qle_bool p q then Fin q else Fin p
  end.

(** [a === b] on numbers. *)
Definition num_eqb (a b : num) : bool :=
  match a, b with
  | PInf, PInf | NInf, NInf => true
  | Fin p, Fin q => Qeq_bool p q
  | _, _ => false
  end.

(** Truthiness of a number: everything but [NaN] and zero. *)
Definition num_truthy (a : num) : bool :=
  match a with
  | NaN => false
  | Fin q => negb (Qeq_bool q 0)
  | _ => true
  end.

(** [1 <= a], the bound the data model puts on a quantity. *)
Definition at_least_one (a : num) : Prop :=
  match a with
  | PInf => True
  | Fin q => (1 <= q)%Q
  | _ => False
  end.

(** The same number, whatever the fraction that denotes it. *)
Definition num_equiv (a b : num) : Prop :=
  match a, b with
  | NaN, NaN | PInf, PInf | NInf, NInf => True
  | Fin p, Fin q => (p == q)%Q
  | _, _ => False
  end.

(** *** Characters *)

Definition code (c : ascii) : Z := Z.of_N (N_of_ascii c).

Definition chr (n : Z) : ascii := ascii_of_N (Z.to_N n).

Definition str (c : ascii) : string := String c EmptyString.

(** White space and line terminators, as [parseInt] and [Number] skip them. *)
Definition is_space (c : ascii) : bool :=
  let n := code c in
  ((9 <=? n) && (n <=? 13)) || (n =? 32) || (n =? 160).

Definition is_digit (c : ascii) : bool :=
  let n := code c in (48 <=? n) && (n <=? 57).

(** The value of a digit in the given radix, when it is one. *)
Definition digit_in (radix : Z) (c : ascii) : option Z :=
  let n := code c in
  let d := if (48 <=? n) && (n <=? 57) then n - 48
           else if (97 <=? n) && (n <=? 122) then n - 87
           else if (65 <=? n) && (n <=? 90) then n - 55
           else radix in
  if d <? radix then Some d else None.

Fixpoint trim_start (s : string) : string :=
  match s with
  | String c r => if is_space c then trim_start r else s
  | EmptyString => s
  end.

Definition trim (s : string) : string :=
  String.rev (trim_start (String.rev (trim_start s))).

(** The longest prefix of digits, and the rest. *)
Fixpoint span_digits (s : string) : string * string :=
  match s with
  | String c r =>
      if is_digit c then let '(d, t) := span_digits r in (String c d, t)
      else (EmptyString, s)
  | EmptyString => (EmptyString, EmptyString)
  end.

(** The integer written by digits of a radix, most significant first;
    [None] when a character is not such a digit. *)
Fixpoint digits_value (radix acc : Z) (s : string) : option Z :=
  match s with
  | EmptyString => Some acc
  | String c r =>
      match digit_in radix c with
      | Some d => digits_value radix (acc * radix + d) r
      | None => None
      end
  end.

Definition decimal (s : string) : Z := default 0 (digits_value 10 0 s).

Definition take_sign (s : string) : bool * string :=
  match s with
  | String "-" r => (true, r)
  | String "+" r => (false, r)
  | _ => (false, s)
  end.

Definition signed (negative : bool) (z : Z) : Z := if negative then - z else z.

(** [m * 10^e] as a number. *)
Definition scale10 (m e : Z) : Q :=
  if 0 <=? e then inject_Z (m * 10 ^ e) else Qmake m (Z.to_pos (10 ^ (- e))).

(** *** Strings to numbers *)

(** [parseInt(s, 10)]: leading white space, an optional sign, then the
    longest run of decimal digits; [NaN] when that run is empty. *)
Definition parseInt10 (s : string) : num :=
  let '(negative, r) := take_sign (trim_start s) in
  let '(d, _) := span_digits r in
  match d with
  | EmptyString => NaN
  | _ => int (signed negative (decimal d))
  end.

(** The exponent part of a decimal literal: nothing, or [e]/[E], an
    optional sign and at least one digit, up to the end of the text. *)
Definition exponent_part (s : string) : option Z :=
  match s with
  | EmptyString => Some 0
  | String c r =>
      if (code c =? 101) || (code c =? 69) then
        let '(negative, r1) := take_sign r in
        let '(d, rest) := span_digits r1 in
        match d, rest with
        | String _ _, EmptyString => Some (signed negative (decimal d))
        | _, _ => None
        end
      else None
  end.

(** An unsigned decimal literal: digits, an optional fraction, an optional
    exponent, with a digit on at least one side of the point. *)
Definition unsigned_decimal (s : string) : option Q :=
  let '(ip, r1) := span_digits s in
  let '(fp, r2) := match r1 with
                   | String "." r => span_digits r
                   | _ => (EmptyString, r1)
                   end in
  match ip +:+ fp with
  | EmptyString => None
  | ds =>
      match exponent_part r2 with
      | Some e => Some (scale10 (decimal ds) (e - Z.of_nat (String.length fp)))
      | None => None
      end
  end.

(** A literal with a radix prefix: [0x], [0o] or [0b] and digits. *)
Definition prefixed_integer (s : string) : option Q :=
  match s with
  | String "0" (String p (String c r)) =>
      let radix := if (code p =? 120) || (code p =? 88) then 16
                   else if (code p =? 111) || (code p =? 79) then 8
                   else if (code p =? 98) || (code p =? 66) then 2
                   else 0 in
      if radix =? 0 then None
      else inject_Z <$> digits_value radix 0 (String c r)
  | _ => None
  end.

(** [Number(s)] on a string. *)
Definition StringToNumber (s : string) : num :=
  let t := trim s in
  match t with
  | EmptyString => int 0
  | _ =>
      match prefixed_integer t with
      | Some q => Fin q
      | None =>
          let '(negative, r) := take_sign t in
          if String.eqb r "Infinity" then (if negative then NInf else PInf)
          else match unsigned_decimal r with
               | Some q => Fin (if negative then - q else q)%Q
               | None => NaN
               end
      end
  end.

(** *** Numbers to strings *)

Fixpoint zeros (n : nat) : string :=
  match n with
  | O => EmptyString
  | S m => String "0" (zeros m)
  end.

(** The least [t], below the fuel, with [10^t] a multiple of [b]. *)
Fixpoint scale_search (fuel : nat) (b : Z) (t : Z) : option Z :=
  match fuel with
  | O => None
  | S f => if (10 ^ t) mod b =? 0 then Some t else scale_search f b (t + 1)
  end.

Fixpoint strip_zeros (fuel : nat) (s e : Z) : Z * Z :=
  match fuel with
  | O => (s, e)
  | S f => if s mod 10 =? 0 then strip_zeros f (s / 10) (e + 1) else (s, e)
  end.

(** Rounding to the nearest integer, halves upwards. *)
Definition round_half_up (q : Q) : Z := Qfloor (q + (1 # 2))%Q.

(** The decimal digits [s] and the exponent [e] with [q = s * 10^e] and
    [s] not a multiple of ten, for a positive [q].  A fraction without a
    finite decimal expansion, which is the value of no decimal text, is
    cut after twenty decimal places. *)
Definition decimal_digits (q : Q) : Z * Z :=
  let r := Qred q in
  let a := Qnum r in
  let b := Zpos (Qden r) in
  let '(s0, e0) :=
    match scale_search (S (Z.to_nat (Z.log2 b))) b 0 with
    | Some t => (a * 10 ^ t / b, - t)
    | None => (round_half_up (q * inject_Z (10 ^ 20))%Q, - 20)
    end in
  strip_zeros (S (Z.to_nat (Z.log2 s0))) s0 e0.

Definition digits_of (z : Z) : string := pretty (Z.to_N z).

(** [Number::toString] on a positive number. *)
Definition positive_to_string (q : Q) : string :=
  let '(s, e) := decimal_digits q in
  let ds := digits_of s in
  let k := Z.of_nat (String.length ds) in
  let n := k + e in
  if (k <=? n) && (n <=? 21) then ds +:+ zeros (Z.to_nat (n - k))
  else if (0 <? n) && (n <=? 21) then
    String.substring 0 (Z.to_nat n) ds +:+ "." +:+
    String.substring (Z.to_nat n) (Z.to_nat (k - n)) ds
  else if (-6 <? n) && (n <=? 0) then "0." +:+ zeros (Z.to_nat (- n)) +:+ ds
  else
    let ex := n - 1 in
    let mantissa :=
      if k =? 1 then ds
      else String.substring 0 1 ds +:+ "." +:+
           String.substring 1 (Z.to_nat (k - 1)) ds in
    mantissa +:+ "e" +:+ (if ex <? 0 then "-" else "+") +:+ digits_of (Z.abs ex).

(** [String(n)] on a number. *)
Definition NumberToString (n : num) : string :=
  match n with
  | NaN => "NaN"
  | PInf => "Infinity"
  | NInf => "-Infinity"
  | Fin q =>
      match (q ?= 0)%Q with
      | Eq => "0"
      | Gt => positive_to_string q
      | Lt => "-" +:+ positive_to_string (- q)%Q
      end
  end.

(** [n.toFixed(2)]. *)
Definition toFixed2 (n : num) : string :=
  match n with
  | Fin q =>
      let a := Qabs q in
      if Qle_bool (inject_Z (10 ^ 21)) a then NumberToString n
      else
        let ds := digits_of (round_half_up (a * inject_Z 100)%Q) in
        let m := zeros (3 - String.length ds) +:+ ds in
        let k := String.length m in
        (if Qle_bool 0 q then EmptyString else "-") +:+
        String.substring 0 (k - 2) m +:+ "." +:+ String.substring (k - 2) 2 m
  | _ => NumberToString n
  end.

(** *** Values *)

Inductive value : Type :=
| VUndef
| VNull
| VBool (b : bool)
| VNum (n : num)
| VStr (s : string)
| VArr (a : list value)
| VObj (o : list (string * value)).

(** [String(v)]. *)
Fixpoint ToString (v : value) : string :=
  match v with
  | VUndef => "undefined"
  | VNull => "null"
  | VBool b => if b then "true" else "false"
  | VNum n => NumberToString n
  | VStr s => s
  | VArr a =>
      String.concat ","
        (List.map (fun x => match x with
                            | VUndef | VNull => EmptyString
                            | _ => ToString x
                            end) a)
  | VObj _ => "[object Object]"
  end.

(** [Number(v)]. *)
Definition ToNumber (v : value) : num :=
  match v with
  | VUndef => NaN
  | VNull => int 0
  | VBool b => if b then int 1 else int 0
  | VNum n => n
  | VStr s => StringToNumber s
  | VArr _ | VObj _ => StringToNumber (ToString v)
  end.

(** The value as a condition. *)
Definition truthy (v : value) : bool :=
  match v with
  | VUndef | VNull => false
  | VBool b => b
  | VNum n => num_truthy n
  | VStr s => negb (String.eqb s EmptyString)
  | VArr _ | VObj _ => true
  end.

(** [a || b]. *)
Definition or (a b : value) : value := if truthy a then a else b.

(** [a === b].  Arrays and objects are compared by identity; the two sides
    of every comparison in the sources come from different places (a fresh
    [JSON.parse] and an argument), so they are never the same object. *)
Definition strict_eq (a b : value) : bool :=
  match a, b with
  | VUndef, VUndef | VNull, VNull => true
  | VBool x, VBool y => Bool.eqb x y
  | VNum x, VNum y => num_eqb x y
  | VStr x, VStr y => String.eqb x y
  | _, _ => false
  end.

(** [a + b]: concatenation as soon as one side is a string, an array or an
    object, the sum of the numbers otherwise. *)
Definition plus (a b : value) : value :=
  let stringy v := match v with VStr _ | VArr _ | VObj _ => true | _ => false end in
  if stringy a || stringy b then VStr (ToString a +:+ ToString b)
  else VNum (num_add (ToNumber a) (ToNumber b)).

(** *** Objects *)

(** [o.k] on the fields of an object: [undefined] when there is none. *)
Fixpoint field (o : list (string * value)) (k : string) : value :=
  match o with
  | [] => VUndef
  | (k', v) :: r => if String.eqb k' k then v else field r k
  end.

(** [o.k = v] on the fields of an object: in place when the field is
    there, as a new last field otherwise. *)
Fixpoint set_field (o : list (string * value)) (k : string) (v : value)
  : list (string * value) :=
  match o with
  | [] => [(k, v)]
  | (k', v') :: r =>
      if String.eqb k' k then (k', v) :: r else (k', v') :: set_field r k v
  end.

(** *** Exceptions *)

Inductive error : Type :=
| TypeError
| SyntaxError.

Inductive result (A : Type) : Type :=
| Ok (a : A)
| Throw (e : error).

Arguments Ok {A} a.
Arguments Throw {A} e.

(** [x.k], for the field names the sources read ([menu_item_id], [name],
    [price], [qty], [note]): a [TypeError] on [undefined] and [null], the
    field on an object, [undefined] on every other value. *)
Definition get (x : value) (k : string) : result value :=
  match x with
  | VUndef | VNull => Throw TypeError
  | VObj o => Ok (field o k)
  | _ => Ok VUndef
  end.

(** [x.k = v] on a value that is not [undefined] or [null]: the field is
    set on an object; outside strict mode the assignment to a primitive is
    dropped, and a named property put on an array is not part of its JSON
    text. *)
Definition set (x : value) (k : string) (v : value) : value :=
  match x with
  | VObj o => VObj (set_field o k v)
  | _ => x
  end.

(** *** JSON *)

Inductive json : Type :=
| JNull
| JBool (b : bool)
| JNum (q : Q)
| JStr (s : string)
| JArr (a : list json)
| JObj (o : list (string * json)).

(** The value [JSON.parse] builds from a datum. *)
Fixpoint of_json (j : json) : value :=
  match j with
  | JNull => VNull
  | JBool b => VBool b
  | JNum q => VNum (Fin q)
  | JStr s => VStr s
  | JArr a => VArr (List.map of_json a)
  | JObj o => VObj (List.map (fun kv => (fst kv, of_json (snd kv))) o)
  end.

(** The datum [JSON.stringify] writes for a value; none for [undefined].
    Inside an array [undefined] is written [null]; a field that is
    [undefined] is left out; a number that is not finite is written
    [null]. *)
Fixpoint to_json (v : value) : option json :=
  match v with
  | VUndef => None
  | VNull => Some JNull
  | VBool b => Some (JBool b)
  | VNum (Fin q) => Some (JNum q)
  | VNum _ => Some JNull
  | VStr s => Some (JStr s)
  | VArr a => Some (JArr (List.map (fun x => default JNull (to_json x)) a))
  | VObj o =>
      Some (JObj ((fix fields (l : list (string * value)) : list (string * json) :=
                     match l with
                     | [] => []
                     | (k, x) :: r =>
                         match to_json x with
                         | Some j => (k, j) :: fields r
                         | None => fields r
                         end
                     end) o))
  end.

(** A string as [localStorage] holds it. *)
Inductive text : Type :=
| JSON (j : json)
| Malformed (raw : string).

(** The string as a condition: only the empty string is falsy. *)
Definition nonempty (t : text) : bool :=
  match t with
  | Malformed EmptyString => false
  | _ => true
  end.

(** [JSON.parse(t)]. *)
Definition JSON_parse (t : text) : result value :=
  match t with
  | JSON j => Ok (of_json j)
  | Malformed _ => Throw SyntaxError
  end.

(** [String(JSON.stringify(v))], the string [setItem] stores: the text of
    the datum, and the word [undefined], which is no JSON, when
    [JSON.stringify] returns [undefined]. *)
Definition JSON_stringify (v : value) : text :=
  match to_json v with
  | Some j => JSON j
  | None => Malformed "undefined"
  end.

End JS.

(** ** The cart: [const Cart = (() => { ... })()] *)
Module Cart.
Import JS.

(** *** The page and the store *)

(** A row appended to the list of the checkout page: its class, its
    markup, and the [menu_item_id] its handlers hold. *)
Record row : Type := {
  className : string;
  innerHTML : string;
  item : value
}.

Record element : Type := {
  textContent : string;
  display : string;
  rows : list row
}.

(** The module variable [key], [localStorage], and the elements of the
    document by [id]. *)
Record state : Type := {
  key : value;
  localStorage : gmap string text;
  document : gmap string element
}.

Definition with_key (k : value) (s : state) : state :=
  {| key := k; localStorage := localStorage s; document := document s |}.

Definition with_storage (f : gmap string text → gmap string text) (s : state) : state :=
  {| key := key s; localStorage := f (localStorage s); document := document s |}.

Definition with_document (f : gmap string element → gmap string element) (s : state)
  : state :=
  {| key := key s; localStorage := localStorage s; document := f (document s) |}.

(** A computation on the page: a result or an exception, and the state it
    leaves. *)
Definition M (A : Type) : Type := state → result A * state.

#[global] Instance M_ret : MRet M := λ A a s, (Ok a, s).

#[global] Instance M_bind : MBind M := λ A B f m s,
  match m s with
  | (Ok a, s') => f a s'
  | (Throw e, s') => (Throw e, s')
  end.

Definition lift {A : Type} (r : result A) : M A := λ s, (r, s).

(** [try { m } catch { h }]. *)
Definition try_catch {A : Type} (m : M A) (h : M A) : M A := λ s,
  match m s with
  | (Throw _, s') => h s'
  | r => r
  end.

Definition when (b : bool) (m : M unit) : M unit := if b then m else mret tt.

Definition read_key : M value := λ s, (Ok (key s), s).

Definition write_key (k : value) : M unit := λ s, (Ok tt, with_key k s).

(** [localStorage.getItem(k)]: the string, or [null]. *)
Definition getItem (k : value) : M (option text) := λ s,
  (Ok (localStorage s !! ToString k), s).

(** [localStorage.setItem(k, t)]. *)
Definition setItem (k : value) (t : text) : M unit := λ s,
  (Ok tt, with_storage (insert (ToString k) t) s).

(** [localStorage.removeItem(k)]. *)
Definition removeItem (k : value) : M unit := λ s,
  (Ok tt, with_storage (delete (ToString k)) s).

(** [document.getElementById(id)], as a condition. *)
Definition hasElement (id : string) : M bool := λ s,
  (Ok (bool_decide (is_Some (document s !! id))), s).

(** [el.textContent = t] on the element with that [id]. *)
Definition set_textContent (id t : string) : M unit := λ s,
  (Ok tt, with_document
            (alter (λ el, {| textContent := t; display := display el; rows := [] |}) id) s).

(** [el.innerHTML] set to the empty string. *)
Definition clear_innerHTML (id : string) : M unit := set_textContent id EmptyString.

(** [el.style.display = d]. *)
Definition set_display (id d : string) : M unit := λ s,
  (Ok tt, with_document
            (alter (λ el, {| textContent := textContent el; display := d; rows := rows el |})
               id) s).

(** [el.appendChild(r)]. *)
Definition appendChild (id : string) (r : row) : M unit := λ s,
  (Ok tt, with_document
            (alter (λ el, {| textContent := textContent el; display := display el;
                             rows := rows el ++ [r] |}) id) s).

(** *** Array methods *)

(** The elements of the receiver of an array method ([find], [filter],
    [reduce], [forEach], [push]): a [TypeError] on a value that has no
    such method. *)
Definition elements (v : value) : result (list value) :=
  match v with
  | VArr a => Ok a
  | _ => Throw TypeError
  end.

(** [a.find(x => x.menu_item_id === id)]: the first match with its
    position in the array, or [undefined]. *)
Fixpoint find_from (i : nat) (id : value) (a : list value) : result (option (nat * value)) :=
  match a with
  | [] => Ok None
  | x :: r =>
      match get x "menu_item_id" with
      | Throw e => Throw e
      | Ok m => if strict_eq m id then Ok (Some (i, x)) else find_from (S i) id r
      end
  end.

Definition find (id : value) (a : list value) : result (option (nat * value)) :=
  find_from 0 id a.

(** [a.filter(x => x.menu_item_id !== id)]. *)
Fixpoint filter_out (id : value) (a : list value) : result (list value) :=
  match a with
  | [] => Ok []
  | x :: r =>
      match get x "menu_item_id" with
      | Throw e => Throw e
      | Ok m =>
          match filter_out id r with
          | Throw e => Throw e
          | Ok r' => Ok (if strict_eq m id then r' else x :: r')
          end
      end
  end.

(** [a.reduce(f, init)]. *)
Fixpoint reduce {A : Type} (f : A → value → result A) (a : list value) (init : A)
  : result A :=
  match a with
  | [] => Ok init
  | x :: r =>
      match f init x with
      | Throw e => Throw e
      | Ok s => reduce f r s
      end
  end.

(** [a.forEach(f)]. *)
Fixpoint forEach (f : value → M unit) (a : list value) : M unit :=
  match a with
  | [] => mret tt
  | x :: r => f x;; forEach f r
  end.

(** [n || d] on numbers. *)
Definition num_or (n d : num) : num := if num_truthy n then n else d.

(** [v.slice(0, 300)]: a string and an array have the method. *)
Definition slice_0_300 (v : value) : result value :=
  match v with
  | VStr s => Ok (VStr (String.substring 0 300 s))
  | VArr a => Ok (VArr (take 300 a))
  | _ => Throw TypeError
  end.

(** [v.length]. *)
Definition length_of (v : value) : result value :=
  match v with
  | VUndef | VNull => Throw TypeError
  | VArr a => Ok (VNum (int (Z.of_nat (List.length a))))
  | VStr s => Ok (VNum (int (Z.of_nat (String.length s))))
  | VObj o => Ok (field o "length")
  | _ => Ok VUndef
  end.

(** *** Escaping *)

Definition quot : string := str (chr 34).

Definition entity (c : ascii) : string :=
  let n := code c in
  if n =? 38 then "&amp;"
  else if n =? 60 then "&lt;"
  else if n =? 62 then "&gt;"
  else if n =? 34 then "&quot;"
  else if n =? 39 then "&#039;"
  else str c.

(** The first [replace] of [escapeHtml]: every ampersand, angle bracket,
    double quote and apostrophe becomes its entity. *)
Fixpoint replace_special (s : string) : string :=
  match s with
  | EmptyString => EmptyString
  | String c r => entity c +:+ replace_special r
  end.

(** The [replace] of [escapeAttr]: every double quote becomes its entity. *)
Fixpoint replace_quot (s : string) : string :=
  match s with
  | EmptyString => EmptyString
  | String c r => (if code c =? 34 then "&quot;" else str c) +:+ replace_quot r
  end.

Definition escapeHtml (s : value) : string :=
  replace_special (ToString (or s (VStr EmptyString))).

Definition escapeAttr (s : value) : string := replace_quot (escapeHtml s).

(** *** The cart *)

(** [_load()]. *)
Definition _load : M value :=
  try_catch
    (k ← read_key;
     stored ← getItem k;
     lift (JSON_parse (match stored with
                       | Some t => if nonempty t then t else JSON (JArr [])
                       | None => JSON (JArr [])
                       end)))
    (mret (VArr [])).

(** [total()]. *)
Definition total : M num :=
  lines ← _load;
  a ← lift (elements lines);
  lift (reduce (λ s x,
                  match get x "price", get x "qty" with
                  | Ok p, Ok q =>
                      Ok (num_add s (num_mul (num_or (ToNumber p) (int 0))
                                             (num_or (ToNumber q) (int 0))))
                  | Throw e, _ | _, Throw e => Throw e
                  end) a (int 0)).

(** [count()]. *)
Definition count : M num :=
  lines ← _load;
  a ← lift (elements lines);
  lift (reduce (λ s x,
                  match get x "qty" with
                  | Ok q => Ok (num_add s (num_or (ToNumber q) (int 0)))
                  | Throw e => Throw e
                  end) a (int 0)).

(** [syncUI()]. *)
Definition syncUI : M unit :=
  c ← hasElement "cartCount";
  t ← hasElement "cartTotal";
  when c (n ← count; set_textContent "cartCount" (NumberToString n));;
  when t (x ← total; set_textContent "cartTotal" (toFixed2 x)).

(** [init(tableToken, customerId)]. *)
Definition init (tableToken customerId : value) : M unit :=
  write_key (VStr ("cart:" +:+ ToString tableToken +:+ ":" +:+
                   ToString (or customerId (VStr "anon"))));;
  syncUI.

(** [_save(lines)]. *)
Definition _save (lines : value) : M unit :=
  k ← read_key;
  setItem k (JSON_stringify lines);;
  syncUI.

(** The line [lines.find(...)] returned, when there is one and it passes
    the test [if (found)]. *)
Definition found_line (id : value) (a : list value) : result (option (nat * value)) :=
  match find id a with
  | Throw e => Throw e
  | Ok (Some (i, x)) => Ok (if truthy x then Some (i, x) else None)
  | Ok None => Ok None
  end.

(** [add(menu_item_id, name, price)]. *)
Definition add (menu_item_id name price : value) : M unit :=
  lines ← _load;
  a ← lift (elements lines);
  found ← lift (found_line menu_item_id a);
  match found with
  | Some (i, x) =>
      q ← lift (get x "qty");
      _save (VArr (<[i := set x "qty" (plus q (VNum (int 1)))]> a))
  | None =>
      _save (VArr (a ++ [VObj [("menu_item_id", menu_item_id); ("name", name);
                               ("price", price); ("qty", VNum (int 1));
                               ("note", VStr EmptyString)]]))
  end.

(** [remove(menu_item_id)]. *)
Definition remove (menu_item_id : value) : M unit :=
  lines ← _load;
  a ← lift (elements lines);
  kept ← lift (filter_out menu_item_id a);
  _save (VArr kept).

(** [setQty(menu_item_id, qty)]. *)
Definition setQty (menu_item_id qty : value) : M unit :=
  lines ← _load;
  a ← lift (elements lines);
  found ← lift (found_line menu_item_id a);
  match found with
  | None => mret tt
  | Some (i, x) =>
      let n := Math_max (int 1) (parseInt10 (ToString (or qty (VNum (int 1))))) in
      _save (VArr (<[i := set x "qty" (VNum n)]> a))
  end.

(** [setNote(menu_item_id, note)]. *)
Definition setNote (menu_item_id note : value) : M unit :=
  lines ← _load;
  a ← lift (elements lines);
  found ← lift (found_line menu_item_id a);
  match found with
  | None => mret tt
  | Some (i, x) =>
      n ← lift (slice_0_300 (or note (VStr EmptyString)));
      _save (VArr (<[i := set x "note" n]> a))
  end.

(** [getLines()]. *)
Definition getLines : M value := _load.

(** [clear()]. *)
Definition clear : M unit :=
  k ← read_key;
  removeItem k;;
  syncUI.

(** *** The checkout page *)

Definition nl : string := str (chr 10).

(** [name="value"], as it stands in the markup of a row. *)
Definition attr (name value : string) : string :=
  name +:+ "=" +:+ quot +:+ value +:+ quot.

(** The template literal assigned to [row.innerHTML], line by line. *)
Definition row_html (line : value) : result string :=
  match get line "name", get line "price", get line "qty", get line "note" with
  | Ok name, Ok price, Ok qty, Ok note =>
      Ok (String.concat nl [
        EmptyString;
        "        <div " +:+ attr "class" "d-flex justify-content-between align-items-start" +:+ ">";
        "          <div>";
        "            <div " +:+ attr "class" "fw-bold" +:+ ">" +:+ escapeHtml name +:+ "</div>";
        "            <div " +:+ attr "class" "small text-muted" +:+ ">฿" +:+
          toFixed2 (ToNumber price) +:+ "</div>";
        "          </div>";
        "          <button " +:+ attr "class" "btn btn-sm btn-outline-danger" +:+
          " data-del>ลบ</button>";
        "        </div>";
        EmptyString;
        "        <div " +:+ attr "class" "row g-2 mt-2" +:+ ">";
        "          <div " +:+ attr "class" "col-6" +:+ ">";
        "            <input " +:+ attr "class" "form-control form-control-sm";
        "                   " +:+ attr "type" "number" +:+ " " +:+ attr "min" "1" +:+ " " +:+
          attr "inputmode" "numeric";
        "                   " +:+ attr "value" (ToString qty) +:+ " data-qty />";
        "          </div>";
        "          <div " +:+ attr "class" "col-6 text-end small pt-1" +:+ ">";
        "            รวม: ฿" +:+ toFixed2 (num_mul (ToNumber price) (ToNumber qty));
        "          </div>";
        "        </div>";
        EmptyString;
        "        <div " +:+ attr "class" "mt-2" +:+ ">";
        "          <input " +:+ attr "class" "form-control form-control-sm";
        "                 " +:+ attr "placeholder" "หมายเหตุรายการ...";
        "                 " +:+ attr "value" (escapeAttr (or note (VStr EmptyString))) +:+
          " data-note />";
        "        </div>";
        "      "
      ])
  | Throw e, _, _, _ | _, Throw e, _, _ | _, _, Throw e, _ | _, _, _, Throw e => Throw e
  end.

(** The callback of [lines.forEach]: a row is created, filled from the
    template and appended to the list. *)
Definition append_row (line : value) : M unit :=
  html ← lift (row_html line);
  id ← lift (get line "menu_item_id");
  appendChild "cartList"
    {| className := "border rounded p-2"; innerHTML := html; item := id |}.

(** [renderCheckout()]. *)
Definition renderCheckout : M unit :=
  lines ← _load;
  empty ← hasElement "cartEmpty";
  list ← hasElement "cartList";
  sum ← hasElement "sumTotal";
  when sum (x ← total; set_textContent "sumTotal" (toFixed2 x));;
  if negb list || negb empty then mret tt
  else
    clear_innerHTML "cartList";;
    n ← lift (length_of lines);
    if negb (truthy n) then set_display "cartEmpty" EmptyString
    else
      set_display "cartEmpty" "none";;
      a ← lift (elements lines);
      forEach append_row a.

(** The listeners of a row, on the [menu_item_id] of its line: the click
    on the delete button, [input] and [blur] on the quantity, [input] on
    the note; [v] is [e.target.value]. *)
Definition on_delete (id : value) : M unit := remove id;; renderCheckout.

Definition on_qty_input (id : value) (v : string) : M unit :=
  setQty id (VStr v);; renderCheckout.

Definition on_qty_blur (id : value) (v : string) : M unit := setQty id (VStr v).

Definition on_note_input (id : value) (v : string) : M unit := setNote id (VStr v).

End Cart.

(** ** The offline cache: [service-worker.js] *)
Module ServiceWorker.
Import JS.

Record request : Type := {
  method : string;
  url : string
}.

(** What the listener asks of the browser, in the order it asks. *)
Inductive asked : Type :=
| CachesMatch (req : request)
| Fetch (req : request).

(** What the [fetch] listener leaves behind: the value given to
    [e.respondWith], when it is called (a response, or [undefined]), and
    the calls made. *)
Record handled (response : Type) : Type := {
  respondWith : option (option response);
  calls : list asked
}.

Arguments respondWith {response} h.
Arguments calls {response} h.

Section Listener.
Context {response : Type}.
(** [caches.match(req)] resolves to the cached response or to
    [undefined]; [fetch(req)] resolves to a response or rejects. *)
Variable caches_match : request → option response.
Variable fetch : request → result response.

(** [self.addEventListener("fetch", (e) => { ... })]. *)
Definition on_fetch (req : request) : handled response :=
  if negb (String.eqb (method req) "GET") then
    {| respondWith := None; calls := [] |}
  else
    let cached := caches_match req in
    match cached with
    | Some r => {| respondWith := Some (Some r); calls := [CachesMatch req] |}
    | None =>
        {| respondWith := Some (match fetch req with
                                | Ok r => Some r
                                | Throw _ => cached
                                end);
           calls := [CachesMatch req; Fetch req] |}
    end.
End Listener.

End ServiceWorker.

(** ** The life cycle of the service worker: [install] and [activate] *)
Module Lifecycle.
Import JS ServiceWorker.

(** [const CACHE] and [const ASSETS]. *)
Definition CACHE : string := "qr-order-cache-v1".

Definition ASSETS : list string :=
  ["/static/styles.css"; "/static/app.js"; "/static/staff.js"; "/static/manifest.json"].

(** The request [addAll] makes for a URL.  A URL is kept as the list of
    assets writes it: the path the origin of the worker resolves it to. *)
Definition GET (u : string) : request := {| method := "GET"; url := u |}.

Section Events.
Context {response : Type}.
(** Whether [addAll] takes a response (a status within 200-299 other than
    206), and what [fetch] of a request settles to. *)
Variable accepted : response → bool.
Variable fetch : request → result response.

(** The cache storage of the origin: the caches by name, in the order they
    were created, each with the responses it holds by URL; and whether
    [skipWaiting] and [clients.claim] were called. *)
Record worker : Type := {
  caches : list (string * gmap string response);
  skipped_waiting : bool;
  claimed : bool
}.

(** [caches.open(name)]: the cache is created when there is none of that
    name. *)
Definition caches_open (name : string) (cs : list (string * gmap string response))
  : list (string * gmap string response) :=
  if List.existsb (λ c, String.eqb (fst c) name) cs then cs else cs ++ [(name, ∅)].

(** The requests of [cache.addAll(urls)]: every URL is fetched; the whole
    is rejected as soon as a fetch fails or a response is not taken. *)
Fixpoint fetch_all (urls : list string) : result (list (string * response)) :=
  match urls with
  | [] => Ok []
  | u :: r =>
      match fetch (GET u) with
      | Throw e => Throw e
      | Ok res =>
          if accepted res then
            match fetch_all r with
            | Ok l => Ok ((u, res) :: l)
            | Throw e => Throw e
            end
          else Throw TypeError
      end
  end.

(** The responses fetched are put into a cache, each under its URL. *)
Definition put_all (l : list (string * response)) (c : gmap string response)
  : gmap string response :=
  fold_left (λ acc e, <[fst e := snd e]> acc) l c.

(** The same, on the cache of that name. *)
Definition put_into (name : string) (l : list (string * response))
  (cs : list (string * gmap string response)) : list (string * gmap string response) :=
  List.map (λ c, if String.eqb (fst c) name then (fst c, put_all l (snd c)) else c) cs.

(** [self.addEventListener("install", (e) => { ... })]: what the promise
    given to [e.waitUntil] settles to, and the worker after it.  The cache
    is opened, then filled with all the assets or, when [addAll] rejects,
    with none; [skipWaiting] is called only after [addAll] has fulfilled. *)
Definition on_install (w : worker) : result unit * worker :=
  let cs := caches_open CACHE (caches w) in
  match fetch_all ASSETS with
  | Ok l =>
      (Ok tt, {| caches := put_into CACHE l cs; skipped_waiting := true;
                 claimed := claimed w |})
  | Throw e =>
      (Throw e, {| caches := cs; skipped_waiting := skipped_waiting w;
                   claimed := claimed w |})
  end.

(** [self.addEventListener("activate", (e) => { ... })]. *)
Definition on_activate (w : worker) : result unit * worker :=
  (Ok tt, {| caches := caches w; skipped_waiting := skipped_waiting w; claimed := true |}).

(** The response stored under a URL in the first cache, in the order of
    creation, that has one. *)
Fixpoint stored (cs : list (string * gmap string response)) (u : string) : option response :=
  match cs with
  | [] => None
  | c :: r =>
      match snd c !! u with
      | Some res => Some res
      | None => stored r u
      end
  end.

(** [caches.match(req)]: only a GET request matches, and it matches by
    its URL; the responses stored are taken not to vary with the headers
    of the request. *)
Definition caches_match (cs : list (string * gmap string response)) (req : request)
  : option response :=
  if negb (String.eqb (method req) "GET") then None else stored cs (url req).

End Events.

Arguments worker : clear implicits.

End Lifecycle.

(** ** The staff page: [window.confirmPayment] *)
Module Staff.
Import JS.

Record element : Type := {
  textContent : string;
  classList : list string;
  disabled : bool;
  oldText : option string
}.

(** An exception value: what [err.message] and [String(err)] give. *)
Record exn : Type := {
  message : string;
  description : string
}.

(** [new Error(m)]. *)
Definition Error (m : string) : exn :=
  {| message := m;
     description := if String.eqb m EmptyString then "Error" else "Error: " +:+ m |}.

(** A response: its status, and what [res.text()] settles to. *)
Record response : Type := {
  status : Z;
  text : string + exn
}.

(** [res.ok]. *)
Definition ok (res : response) : bool := (200 <=? status res) && (status res <=? 299).

(** The elements of the document by [id], the alerts shown so far, and the
    requests sent so far, as method and path. *)
Record page : Type := {
  document : gmap string element;
  alerts : list string;
  requests : list (string * string)
}.

Definition with_document (f : gmap string element → gmap string element) (p : page)
  : page :=
  {| document := f (document p); alerts := alerts p; requests := requests p |}.

Definition alert (m : string) (p : page) : page :=
  {| document := document p; alerts := alerts p ++ [m]; requests := requests p |}.

Definition sent (m u : string) (p : page) : page :=
  {| document := document p; alerts := alerts p; requests := requests p ++ [(m, u)] |}.

(** [classList.remove(c)] and [classList.add(c)]. *)
Definition class_remove (c : string) (l : list string) : list string :=
  List.filter (λ x, negb (String.eqb x c)) l.

Definition class_add (c : string) (l : list string) : list string :=
  if List.existsb (String.eqb c) l then l else l ++ [c].

(** The first statements on the button: disabled, its text kept in
    [dataset.oldText], and a waiting text shown. *)
Definition busy (el : element) : element :=
  {| textContent := "กำลังยืนยัน..."; classList := classList el; disabled := true;
     oldText := Some (textContent el) |}.

(** The badge after a confirmed payment. *)
Definition paid_badge (el : element) : element :=
  {| textContent := "paid"; classList := ["badge"; "text-bg-success"];
     disabled := disabled el; oldText := oldText el |}.

(** The button after a confirmed payment. *)
Definition paid_button (el : element) : element :=
  {| textContent := "Paid ✅";
     classList := class_add "btn-secondary" (class_remove "btn-success" (classList el));
     disabled := true; oldText := oldText el |}.

(** The button after a failure: [btn.dataset.oldText || "confirm payment"]. *)
Definition restored (el : element) : element :=
  {| textContent := match oldText el with
                    | Some t => if String.eqb t EmptyString then "confirm payment" else t
                    | None => "confirm payment"
                    end;
     classList := classList el; disabled := false; oldText := oldText el |}.

(** [err?.message || err], as the string the alert appends. *)
Definition shown (err : exn) : string :=
  if String.eqb (message err) EmptyString then description err else message err.

Section ConfirmPayment.
(** The answer to the [confirm] dialog, and what the [POST] to a path
    settles to: a response, or a rejection. *)
Variable confirm : bool.
Variable post : string → response + exn.

(** The body of the [try] block: the value thrown, if any, and the page
    at that point. *)
Definition try_block (orderId : value) (btn : string) (p : page) : option exn * page :=
  let path := "/staff/orders/" +:+ ToString orderId +:+ "/notify_payment" in
  let p1 := sent "POST" path p in
  match post path with
  | inr err => (Some err, p1)
  | inl res =>
      if negb (ok res) then
        match text res with
        | inr err => (Some err, p1)
        | inl t =>
            (Some (Error (if String.eqb t EmptyString
                          then "ยืนยันการชำระเงินไม่สำเร็จ" else t)), p1)
        end
      else
        let p2 := with_document (alter paid_badge ("pay-" +:+ ToString orderId)) p1 in
        (None, with_document (alter paid_button btn) p2)
  end.

(** [window.confirmPayment = async function (orderId) { ... }]. *)
Definition confirmPayment (orderId : value) (p : page) : page :=
  if negb confirm then p
  else
    let btn := "btn-pay-" +:+ ToString orderId in
    let p1 := with_document (alter busy btn) p in
    match try_block orderId btn p1 with
    | (None, p2) => p2
    | (Some err, p2) =>
        with_document (alter restored btn)
          (alert ("เชื่อมต่อไม่สำเร็จ: " +:+ shown err) p2)
    end.
End ConfirmPayment.

End Staff.

(** ** The staff page: the messages of the socket *)
Module Socket.
Import JS Staff.

(** The staff page as the socket sees it: the page, the number of calls
    of [location.reload], and what was written to the console. *)
Record tab : Type := {
  view : page;
  reloads : nat;
  console : list (list value)
}.

Definition logged (line : list value) (t : tab) : tab :=
  {| view := view t; reloads := reloads t; console := console t ++ [line] |}.

Definition reloaded (t : tab) : tab :=
  {| view := view t; reloads := S (reloads t); console := console t |}.

Definition on_page (f : page → page) (t : tab) : tab :=
  {| view := f (view t); reloads := reloads t; console := console t |}.

(** [el.textContent = t], and [el.className = c] with the class name
    given by its tokens. *)
Definition set_text (t : string) (el : element) : element :=
  {| textContent := t; classList := classList el; disabled := disabled el;
     oldText := oldText el |}.

Definition set_className (c : list string) (el : element) : element :=
  {| textContent := textContent el; classList := c; disabled := disabled el;
     oldText := oldText el |}.

(** [ws.onmessage = (ev) => { ... }], on [ev.data]: the whole body stands
    in a [try] whose [catch] does nothing. *)
Definition onmessage (data : JS.text) (t : tab) : tab :=
  match JSON_parse data with
  | Throw _ => t
  | Ok msg =>
      let t1 := logged [VStr "STAFF WS:"; msg] t in
      match get msg "type" with
      | Throw _ => t1
      | Ok type =>
          if strict_eq type (VStr "new_order") || strict_eq type (VStr "order_created")
          then reloaded t1
          else if strict_eq type (VStr "payment_update") then
            match get msg "order_id", get msg "payment_status" with
            | Ok order_id, Ok payment_status =>
                on_page
                  (with_document
                     (alter (λ badge,
                               set_className
                                 ["badge"; if strict_eq payment_status (VStr "paid")
                                           then "text-bg-success" else "text-bg-warning"]
                                 (set_text (ToString (or payment_status (VStr "unpaid")))
                                    badge))
                        ("pay-" +:+ ToString order_id))) t1
            | _, _ => t1
            end
          else if strict_eq type (VStr "order_status") then
            match get msg "order_id", get msg "order_status" with
            | Ok order_id, Ok order_status =>
                on_page
                  (with_document
                     (alter (set_text (ToString (or order_status (VStr "new"))))
                        ("order-status-" +:+ ToString order_id))) t1
            | _, _ => t1
            end
          else t1
      end
  end.

End Socket.

(** ** The notions the properties are stated with *)
Module Spec.
Import JS Cart.

(** The string stored under the cart's key. *)
Definition entry (s : state) : option text := localStorage s !! ToString (key s).

(** The lines of the cart: the stored datum as a value, and the empty
    array when nothing or no JSON is stored. *)
Definition loaded (s : state) : value :=
  match entry s with
  | Some (JSON j) => of_json j
  | _ => VArr []
  end.

(** A line as it comes back once saved and loaded again. *)
Definition reload (x : value) : value := of_json (default JNull (to_json x)).

Definition nullish (v : value) : bool :=
  match v with
  | VUndef | VNull => true
  | _ => false
  end.

(** The cart holds these lines, each an object. *)
Definition holds (s : state) (lines : list (list (string * value))) : Prop :=
  loaded s = VArr (List.map VObj lines).

(** The state with the entry under the cart's key removed. *)
Definition emptied (s : state) : state :=
  with_storage (delete (ToString (key s))) s.

(** A fresh page: no key yet, nothing stored, no element. *)
Definition fresh : state := {| key := VNull; localStorage := ∅; document := ∅ |}.

(** A numeric field of a line, zero when missing or not numeric. *)
Definition numeric (o : list (string * value)) (k : string) : num :=
  match ToNumber (field o k) with
  | NaN => int 0
  | n => n
  end.

Fixpoint sum (l : list num) : num :=
  match l with
  | [] => int 0
  | x :: r => num_add x (sum r)
  end.

(** The sum over the lines of price times quantity, and of the quantity. *)
Definition sum_price_qty (lines : list (list (string * value))) : num :=
  sum (List.map (λ o, num_mul (numeric o "price") (numeric o "qty")) lines).

Definition sum_qty (lines : list (list (string * value))) : num :=
  sum (List.map (λ o, numeric o "qty") lines).

(** The characters that open or close markup: angle brackets, the double
    quote and the apostrophe. *)
Definition is_markup (c : ascii) : bool :=
  let n := code c in (n =? 60) || (n =? 62) || (n =? 34) || (n =? 39).

Fixpoint markup (s : string) : list ascii :=
  match s with
  | EmptyString => []
  | String c r => if is_markup c then c :: markup r else markup r
  end.

(** The calls that change the cart, and a sequence of them run in order;
    a call that throws leaves the state it reached. *)
Inductive call : Type :=
| Add (menu_item_id name price : value)
| Remove (menu_item_id : value)
| SetQty (menu_item_id qty : value)
| SetNote (menu_item_id note : value).

Definition step (c : call) : M unit :=
  match c with
  | Add i n p => add i n p
  | Remove i => remove i
  | SetQty i q => setQty i q
  | SetNote i n => setNote i n
  end.

Fixpoint run (cs : list call) (s : state) : state :=
  match cs with
  | [] => s
  | c :: r => run r (snd (step c s))
  end.

(** The invariant of the data model on a line: a quantity that is a
    number not below one, and a note that is a string of at most 300
    characters. *)
Definition line_ok (x : value) : Prop :=
  (∃ q, get x "qty" = Ok (VNum q) ∧ at_least_one q) ∧
  (∃ n, get x "note" = Ok (VStr n) ∧ (String.length n <= 300)%nat).

Definition cart_ok (s : state) : Prop :=
  ∃ a, loaded s = VArr a ∧ Forall line_ok a.

(** A computation that leaves the key and the whole store alone. *)
Definition store_kept {A : Type} (m : M A) : Prop :=
  ∀ s, key (snd (m s)) = key s ∧ localStorage (snd (m s)) = localStorage s.

(** A computation that leaves the key alone and, in the store, every entry
    but the one under the key. *)
Definition own_entry_only {A : Type} (m : M A) : Prop :=
  ∀ s, key (snd (m s)) = key s ∧
       ∀ k, k ≠ ToString (key s) → localStorage (snd (m s)) !! k = localStorage s !! k.

(** Two states that differ, if at all, in entries of the store other than
    the cart's. *)
Definition agree (s1 s2 : state) : Prop :=
  key s1 = key s2 ∧ document s1 = document s2 ∧ entry s1 = entry s2.

(** A computation whose result and effects depend on nothing of the store
    but the entry under the key. *)
Definition own_entry_reader {A : Type} (m : M A) : Prop :=
  ∀ s1 s2, agree s1 s2 → fst (m s1) = fst (m s2) ∧ agree (snd (m s1)) (snd (m s2)).

(** The state once [setItem] has stored the text of a value under the
    cart's key. *)
Definition saved (v : value) (s : state) : state :=
  with_storage (insert (ToString (key s)) (JSON_stringify v)) s.

(** A value as [JSON.parse] builds them. *)
Definition is_json (v : value) : Prop := ∃ j, v = of_json j.

(** The line at position [i] is the first one with that [menu_item_id]. *)
Definition first_with (id : value) (lines : list (list (string * value))) (i : nat)
  (o : list (string * value)) : Prop :=
  lines !! i = Some o ∧ strict_eq (field o "menu_item_id") id = true ∧
  ∀ j o', (j < i)%nat → lines !! j = Some o' →
          strict_eq (field o' "menu_item_id") id = false.

(** No line has that [menu_item_id]. *)
Definition without (id : value) (lines : list (list (string * value))) : Prop :=
  Forall (λ o, strict_eq (field o "menu_item_id") id = false) lines.

(** The object [add] pushes for an item the cart does not hold. *)
Definition new_line (id name price : value) : value :=
  VObj [("menu_item_id", id); ("name", name); ("price", price);
        ("qty", VNum (int 1)); ("note", VStr EmptyString)].

(** The example of the specification: the same dish added twice to the
    cart of a fresh page. *)
Definition pad_thai_twice : state :=
  run [Add (VStr "A") (VStr "Pad Thai") (VNum (int 60));
       Add (VStr "A") (VStr "Pad Thai") (VNum (int 60))] fresh.

(** The line of that dish, with a quantity, and the cart after the dish
    was added once. *)
Definition pad_thai (qty : Z) : list (string * value) :=
  [("menu_item_id", VStr "A"); ("name", VStr "Pad Thai"); ("price", VNum (int 60));
   ("qty", VNum (int qty)); ("note", VStr EmptyString)].

Definition pad_thai_once : state :=
  run [Add (VStr "A") (VStr "Pad Thai") (VNum (int 60))] fresh.

(** The cart after a quantity that is no number was typed for that dish,
    and the line it then holds. *)
Definition pad_thai_abc : state :=
  run [Add (VStr "A") (VStr "Pad Thai") (VNum (int 60));
       SetQty (VStr "A") (VStr "abc")] fresh.

Definition pad_thai_no_qty : list (string * value) :=
  [("menu_item_id", VStr "A"); ("name", VStr "Pad Thai"); ("price", VNum (int 60));
   ("qty", VNull); ("note", VStr EmptyString)].

(** The invariant on the fields of a line. *)
Definition fields_ok (o : list (string * value)) : Prop :=
  (∃ q, field o "qty" = VNum q ∧ at_least_one q) ∧
  (∃ n, field o "note" = VStr n ∧ (String.length n <= 300)%nat).

(** A call whose arguments are of the kind the page passes: a quantity
    that [parseInt] reads as a number, a note that is a string. *)
Definition well_typed (c : call) : Prop :=
  match c with
  | SetQty _ qty => parseInt10 (ToString (or qty (VNum (int 1)))) ≠ NaN
  | SetNote _ note => ∃ n, note = VStr n
  | _ => True
  end.

(** A state whose cart entry is no JSON. *)
Definition garbled : state :=
  {| key := VStr "cart:T1:anon";
     localStorage := {[ "cart:T1:anon" := Malformed "{oops" ]};
     document := ∅ |}.

(** The row [renderCheckout] builds for a line. *)
Definition row_of (o : list (string * value)) : row :=
  {| className := "border rounded p-2";
     innerHTML := match row_html (VObj o) with
                  | Ok h => h
                  | Throw _ => EmptyString
                  end;
     item := field o "menu_item_id" |}.

(** The markup characters of the row of a line without fields: those of
    the template. *)
Definition bare_markup : list ascii := markup (innerHTML (row_of [])).

Definition number_or_null (v : value) : Prop := v = VNull ∨ ∃ n, v = VNum n.

(** A cart of lines whose quantities are numbers or [null]. *)
Definition tame (s : state) : Prop :=
  ∃ lines, holds s lines ∧ Forall (λ o, number_or_null (field o "qty")) lines.

End Spec.

(** ** The notions the properties of the staff page are stated with *)
Module StaffSpec.
Import JS Staff.

(** The message of the failure of the [POST], if it failed: the reason of
    a rejection, the body of a response outside 200-299 (a fixed message
    when the body is empty), or the reason [res.text()] rejected with. *)
Definition failure (r : response + exn) : option string :=
  match r with
  | inr err => Some (shown err)
  | inl res =>
      if ok res then None
      else Some (match text res with
                 | inl t => if String.eqb t EmptyString
                            then "ยืนยันการชำระเงินไม่สำเร็จ" else t
                 | inr err => shown err
                 end)
  end.

Definition path (orderId : value) : string :=
  "/staff/orders/" +:+ ToString orderId +:+ "/notify_payment".

Definition button (orderId : value) : string := "btn-pay-" +:+ ToString orderId.

Definition badge (orderId : value) : string := "pay-" +:+ ToString orderId.

(** A page whose button for order 7 has no text, and a server that
    answers 500. *)
Definition unlabelled : page :=
  {| document := {[ "btn-pay-7" := {| textContent := EmptyString;
                                     classList := ["btn"; "btn-success"];
                                     disabled := false; oldText := None |} ]};
     alerts := []; requests := [] |}.

Definition refuses (_ : string) : response + exn :=
  inl {| status := 500; text := inl "payment not found" |}.

End StaffSpec.

(** ** The notions of the further properties of the cart *)
Module PageSpec.
Import JS Cart Spec.

(** A stored datum that is an array. *)
Definition array (j : json) : bool :=
  match j with
  | JArr _ => true
  | _ => false
  end.

(** The values that have a [slice] method: strings and arrays. *)
Definition has_slice (v : value) : bool :=
  match v with
  | VStr _ | VArr _ => true
  | _ => false
  end.

(** A call [setNote] does not refuse: its note is falsy, a string or an
    array.  Every other call is one. *)
Definition note_like (c : call) : bool :=
  match c with
  | SetNote _ note => negb (truthy note) || has_slice note
  | _ => true
  end.

(** An id that comes back from the store as it went in: a string, a
    boolean, [null], [undefined] or a finite number. *)
Definition plain_id (id : value) : bool :=
  match id with
  | VStr _ | VBool _ | VNull | VUndef | VNum (Fin _) => true
  | _ => false
  end.

(** A text without any of the five characters [escapeHtml] replaces. *)
Fixpoint plain_text (s : string) : bool :=
  match s with
  | EmptyString => true
  | String c r =>
      negb ((code c =? 38) || (code c =? 60) || (code c =? 62) || (code c =? 34) ||
            (code c =? 39)) && plain_text r
  end.

(** A text without a colon. *)
Fixpoint no_colon (s : string) : bool :=
  match s with
  | EmptyString => true
  | String c r => negb (code c =? 58) && no_colon r
  end.

(** A computation that neither adds nor removes an element of the page,
    and leaves alone every element whose [id] is not listed. *)
Definition changes_only {A : Type} (ids : list string) (m : M A) : Prop :=
  ∀ s k, (is_Some (document (snd (m s)) !! k) ↔ is_Some (document s !! k)) ∧
         (k ∉ ids → document (snd (m s)) !! k = document s !! k).

(** The elements [syncUI] writes, and those [renderCheckout] writes. *)
Definition counters : list string := ["cartCount"; "cartTotal"].

Definition checkout : list string := ["sumTotal"; "cartList"; "cartEmpty"].

(** The counters of the page, where present, show the count and the total
    of the stored cart. *)
Definition in_sync (s : state) : Prop :=
  (∀ el, document s !! "cartCount" = Some el →
     ∃ n, count s = (Ok n, s) ∧ textContent el = NumberToString n) ∧
  (∀ el, document s !! "cartTotal" = Some el →
     ∃ x, total s = (Ok x, s) ∧ textContent el = toFixed2 x).

(** A state whose cart entry is JSON, but no array. *)
Definition scalar_entry : state :=
  {| key := VStr "cart:T1:anon";
     localStorage := {[ "cart:T1:anon" := JSON (JObj []) ]};
     document := ∅ |}.

(** The checkout page, with the cart that holds Pad Thai once. *)
Definition blank : element :=
  {| textContent := EmptyString; display := EmptyString; rows := [] |}.

Definition checkout_page : state :=
  {| key := key pad_thai_once;
     localStorage := localStorage pad_thai_once;
     document := {[ "cartList" := blank; "cartEmpty" := blank; "sumTotal" := blank ]} |}.

(** The cart of a second table, with one dish. *)
Definition table_two : state :=
  snd (add (VStr "B") (VStr "Som Tam") (VNum (int 45))
         (snd (init (VStr "T2") VUndef fresh))).

End PageSpec.

(** ** The notions of the properties of the life cycle *)
Module LifecycleSpec.
Import JS ServiceWorker Lifecycle.

(** A network that answers every request with its URL, one that is down,
    and a worker before its first install. *)
Definition online (req : request) : result string := Ok (url req).

Definition offline (req : request) : result string := Throw TypeError.

Definition first_run : worker string :=
  {| caches := []; skipped_waiting := false; claimed := false |}.

End LifecycleSpec.

(** ** The notions of the properties of the socket *)
Module SocketSpec.
Import JS Staff Socket.

(** The [type] of a message, when reading it does not throw. *)
Definition type_of (j : json) : option value :=
  match get (of_json j) "type" with
  | Ok v => Some v
  | Throw _ => None
  end.

(** The types the handler acts on. *)
Definition acted_on : list string :=
  ["new_order"; "order_created"; "payment_update"; "order_status"].

(** A server that confirms every payment. *)
Definition accepts (_ : string) : response + exn :=
  inl {| status := 200; text := inl EmptyString |}.

(** A staff page with the badge of order 7, unpaid, and the message that
    the order was paid. *)
Definition staff_tab : tab :=
  {| view := {| document := {[ "pay-7" := {| textContent := "unpaid";
                                              classList := ["badge"; "text-bg-warning"];
                                              disabled := false; oldText := None |} ]};
                alerts := []; requests := [] |};
     reloads := 0; console := [] |}.

Definition paid_message : json :=
  JObj [("type", JStr "payment_update"); ("order_id", JNum 7); ("payment_status", JStr "paid")].

(** A page whose button for order 7 has a text. *)
Definition labelled : page :=
  {| document := {[ "btn-pay-7" := {| textContent := "Confirm";
                                     classList := ["btn"; "btn-success"];
                                     disabled := false; oldText := None |} ]};
     alerts := []; requests := [] |}.

End SocketSpec.

Import JS Cart Spec.

Create HintDb cart.

(** ** Computations on the page *)
Section Computations.

Lemma store_kept_ret {A : Type} (a : A) : store_kept (mret a).
Proof. intros s. split; reflexivity. Qed.

Lemma store_kept_lift {A : Type} (r : result A) : store_kept (lift r).
Proof. intros s. split; reflexivity. Qed.

Lemma store_kept_bind {A B : Type} (m : M A) (f : A → M B) :
  store_kept m → (∀ a, store_kept (f a)) → store_kept (m ≫= f).
Proof.
  intros Hm Hf s. unfold mbind, M_bind.
  specialize (Hm s). destruct (m s) as [[a|e] s']; simpl in *.
  - destruct (Hf a s') as [H1 H2]. destruct Hm as [H3 H4].
    split; [rewrite H1; exact H3 | rewrite H2; exact H4].
  - exact Hm.
Qed.

Lemma store_kept_when (b : bool) (m : M unit) : store_kept m → store_kept (when b m).
Proof. destruct b; simpl; auto using store_kept_ret. Qed.

Lemma store_kept_if {A : Type} (b : bool) (m1 m2 : M A) :
  store_kept m1 → store_kept m2 → store_kept (if b then m1 else m2).
Proof. destruct b; auto. Qed.

Lemma store_kept_hasElement (id : string) : store_kept (hasElement id).
Proof. intros s. split; reflexivity. Qed.

Lemma store_kept_set_textContent (id t : string) : store_kept (set_textContent id t).
Proof. intros s. split; reflexivity. Qed.

Lemma store_kept_set_display (id d : string) : store_kept (set_display id d).
Proof. intros s. split; reflexivity. Qed.

Lemma store_kept_appendChild (id : string) (r : row) : store_kept (appendChild id r).
Proof. intros s. split; reflexivity. Qed.

Lemma store_kept_forEach (f : value → M unit) (a : list value) :
  (∀ x, store_kept (f x)) → store_kept (forEach f a).
Proof.
  intros Hf. induction a as [|x r IH]; simpl.
  - apply store_kept_ret.
  - apply store_kept_bind; auto.
Qed.

(** [_load] never throws and changes nothing. *)
Lemma load_eq (s : state) : _load s = (Ok (loaded s), s).
Proof.
  unfold _load, loaded, entry, try_catch, read_key, getItem, lift, mbind, M_bind.
  destruct (localStorage s !! ToString (key s)) as [[j|raw]|]; simpl; try reflexivity.
  destruct raw; reflexivity.
Qed.

Lemma store_kept_load : store_kept _load.
Proof. intros s. rewrite load_eq. split; reflexivity. Qed.

Lemma loaded_store (s s' : state) :
  key s' = key s → localStorage s' = localStorage s → loaded s' = loaded s.
Proof. intros Hk Hl. unfold loaded, entry. rewrite Hk, Hl. reflexivity. Qed.

End Computations.

#[local] Hint Resolve store_kept_ret store_kept_lift store_kept_bind store_kept_when
  store_kept_if store_kept_hasElement store_kept_set_textContent store_kept_set_display
  store_kept_appendChild store_kept_forEach store_kept_load : cart.

(** ** The aggregates and the counters of the page *)
Section Aggregates.

Lemma store_kept_count : store_kept count.
Proof. unfold count. auto 10 with cart. Qed.

Lemma store_kept_total : store_kept total.
Proof. unfold total. auto 10 with cart. Qed.

Lemma store_kept_syncUI : store_kept syncUI.
Proof.
  unfold syncUI. pose proof store_kept_count. pose proof store_kept_total.
  auto 20 with cart.
Qed.

(** Over lines none of which is [null], a [reduce] that only reads
    fields returns. *)
Lemma reduce_fields {A : Type} (f : A → value → result A) (a : list value) (init : A) :
  (∀ acc x, nullish x = false → ∃ r, f acc x = Ok r) →
  Forall (λ x, nullish x = false) a →
  ∃ r, reduce f a init = Ok r.
Proof.
  intros Hf Ha. revert init. induction Ha as [|x r Hx Hr IH]; intros init; simpl.
  - eauto.
  - destruct (Hf init x Hx) as [y ->]. apply IH.
Qed.

Lemma get_not_nullish (x : value) (k : string) :
  nullish x = false → ∃ v, get x k = Ok v.
Proof. destruct x; simpl; intros H; try discriminate; eauto. Qed.

Lemma count_returns (s : state) (a : list value) :
  loaded s = VArr a → Forall (λ x, nullish x = false) a → ∃ n, count s = (Ok n, s).
Proof.
  intros Hl Ha. unfold count, mbind, M_bind. rewrite load_eq, Hl. unfold lift. simpl.
  edestruct (reduce_fields
               (λ s x, match get x "qty" with
                       | Ok q => Ok (num_add s (num_or (ToNumber q) (int 0)))
                       | Throw e => Throw e
                       end) a (int 0)) as [n Hn]; [|exact Ha|].
  - intros acc x Hx. destruct (get_not_nullish x "qty" Hx) as [v ->]. eauto.
  - rewrite Hn. eauto.
Qed.

Lemma total_returns (s : state) (a : list value) :
  loaded s = VArr a → Forall (λ x, nullish x = false) a → ∃ n, total s = (Ok n, s).
Proof.
  intros Hl Ha. unfold total, mbind, M_bind. rewrite load_eq, Hl. unfold lift. simpl.
  edestruct (reduce_fields
               (λ s x, match get x "price", get x "qty" with
                       | Ok p, Ok q =>
                           Ok (num_add s (num_mul (num_or (ToNumber p) (int 0))
                                                  (num_or (ToNumber q) (int 0))))
                       | Throw e, _ | _, Throw e => Throw e
                       end) a (int 0)) as [n Hn]; [|exact Ha|].
  - intros acc x Hx. destruct (get_not_nullish x "price" Hx) as [v ->].
    destruct (get_not_nullish x "qty" Hx) as [w ->]. eauto.
  - rewrite Hn. eauto.
Qed.

(** [syncUI] returns as soon as no line of the cart is [null]. *)
Lemma syncUI_returns (s : state) (a : list value) :
  loaded s = VArr a → Forall (λ x, nullish x = false) a →
  ∃ s', syncUI s = (Ok tt, s') ∧ key s' = key s ∧ localStorage s' = localStorage s.
Proof.
  intros Hl Ha.
  assert (Hstep : ∀ (b : bool) (m : M num) (show : num → string) (id : string) (s1 : state),
             (∀ s2, loaded s2 = VArr a → ∃ n, m s2 = (Ok n, s2)) →
             loaded s1 = VArr a →
             ∃ s2, when b (n ← m; set_textContent id (show n)) s1 = (Ok tt, s2) ∧
                   key s2 = key s1 ∧ localStorage s2 = localStorage s1).
  { intros b m show id s1 Hm H1. destruct b; simpl.
    - unfold mbind, M_bind. destruct (Hm s1 H1) as [n ->]. eexists. split; [reflexivity|].
      split; reflexivity.
    - eexists. split; [reflexivity|]. split; reflexivity. }
  unfold syncUI, mbind at 1 2, M_bind at 1 2, hasElement.
  destruct (Hstep (bool_decide (is_Some (document s !! "cartCount"))) count NumberToString
              "cartCount" s) as (s1 & E1 & K1 & L1); [|exact Hl|].
  { intros s2 H2. apply (count_returns s2 a H2 Ha). }
  unfold mbind at 1, M_bind at 1. rewrite E1.
  destruct (Hstep (bool_decide (is_Some (document s !! "cartTotal"))) total toFixed2
              "cartTotal" s1) as (s2 & E2 & K2 & L2).
  { intros s3 H3. apply (total_returns s3 a H3 Ha). }
  { rewrite (loaded_store s s1 K1 L1). exact Hl. }
  rewrite E2. exists s2. split; [reflexivity|]. split; congruence.
Qed.

End Aggregates.

(** ** [clear] *)
Section Clear.

Lemma loaded_emptied (s : state) : loaded (emptied s) = VArr [].
Proof.
  unfold loaded, entry, emptied, with_storage; simpl.
  rewrite lookup_delete_eq. reflexivity.
Qed.

Lemma empty_aggregates (s : state) :
  loaded s = VArr [] →
  getLines s = (Ok (VArr []), s) ∧ total s = (Ok (int 0), s) ∧ count s = (Ok (int 0), s).
Proof.
  intros Hl. unfold getLines, total, count, mbind, M_bind.
  rewrite !load_eq, Hl. repeat split; reflexivity.
Qed.

(** C9. Whatever the state of the cart, [clear()] returns, and after it
    [getLines()] returns the empty array, [total()] returns 0 and
    [count()] returns 0. *)
Theorem clear_leaves_empty_cart (s : state) :
  ∃ s', clear s = (Ok tt, s') ∧
        getLines s' = (Ok (VArr []), s') ∧
        total s' = (Ok (int 0), s') ∧
        count s' = (Ok (int 0), s').
Proof.
  destruct (syncUI_returns (emptied s) [] (loaded_emptied s) (List.Forall_nil _))
    as (s' & Hs & Hk & Hl).
  exists s'. split.
  - unfold clear, mbind, M_bind, read_key, removeItem. exact Hs.
  - apply empty_aggregates. rewrite (loaded_store _ _ Hk Hl). apply loaded_emptied.
Qed.

End Clear.

(** ** Saving and loading *)
Section Persistence.

Lemma to_json_of_json : ∀ j, to_json (of_json j) = Some j.
Proof.
  fix IH 1. intros [ | b | q | s | a | o]; simpl; try reflexivity.
  - f_equal. f_equal. induction a as [|x r IHr]; simpl; [reflexivity|].
    rewrite IH, IHr. reflexivity.
  - f_equal. f_equal. induction o as [|[k x] r IHr]; simpl; [reflexivity|].
    rewrite IH, IHr. reflexivity.
Qed.

Lemma reload_of_json j : reload (of_json j) = of_json j.
Proof. unfold reload. rewrite to_json_of_json. reflexivity. Qed.

Lemma to_json_array a : to_json (VArr a) = Some (JArr (List.map (λ x, default JNull (to_json x)) a)).
Proof. reflexivity. Qed.

Lemma is_json_reload x : is_json x → reload x = x.
Proof. intros [j ->]. apply reload_of_json. Qed.

Lemma is_json_array a : is_json (VArr a) ↔ Forall is_json a.
Proof.
  split.
  - intros [[ | | | | ja | ] H]; simpl in H; try discriminate.
    injection H as ->. apply List.Forall_forall. intros x Hx.
    apply in_map_iff in Hx as (j & <- & _). eexists; reflexivity.
  - induction 1 as [|x r [j ->] _ [jr Hr]].
    + exists (JArr []). reflexivity.
    + destruct jr as [ | | | | ja | ]; simpl in Hr; try discriminate.
      injection Hr as ->. exists (JArr (j :: ja)). reflexivity.
Qed.

Lemma is_json_object o : is_json (VObj o) ↔ Forall (λ kv, is_json (snd kv)) o.
Proof.
  split.
  - intros [[ | | | | | jo] H]; simpl in H; try discriminate.
    injection H as ->. apply List.Forall_forall. intros x Hx.
    apply in_map_iff in Hx as ([k j] & <- & _). eexists; reflexivity.
  - induction 1 as [|[k x] r [j Hj] _ [jr Hr]]; simpl in *.
    + exists (JObj []). reflexivity.
    + destruct jr as [ | | | | | jo]; simpl in Hr; try discriminate.
      injection Hr as ->. subst x. exists (JObj ((k, j) :: jo)). reflexivity.
Qed.

Lemma loaded_is_json s : is_json (loaded s).
Proof.
  unfold loaded. destruct (entry s) as [[j|raw]|].
  - exists j; reflexivity.
  - exists (JArr []); reflexivity.
  - exists (JArr []); reflexivity.
Qed.

Lemma map_reload_json a : Forall is_json a → List.map reload a = a.
Proof.
  induction 1 as [|x r Hx _ IH]; simpl; [reflexivity|].
  rewrite (is_json_reload x Hx), IH. reflexivity.
Qed.

Lemma loaded_saved a s : loaded (saved (VArr a) s) = VArr (List.map reload a).
Proof.
  unfold loaded, entry, saved, with_storage; simpl. rewrite lookup_insert_eq.
  unfold JSON_stringify. rewrite to_json_array. simpl. rewrite List.map_map. reflexivity.
Qed.

Lemma save_eq v s : _save v s = syncUI (saved v s).
Proof. reflexivity. Qed.


Lemma objects_not_nullish lines : Forall (λ x, nullish x = false) (List.map VObj lines).
Proof. induction lines; simpl; constructor; auto. Qed.

Lemma reload_not_nullish a :
  Forall (λ x, ∃ o, x = VObj o) a → Forall (λ x, nullish x = false) (List.map reload a).
Proof.
  induction 1 as [|x r [o ->] _ IH]; simpl; constructor; auto.
Qed.

Lemma save_returns a s :
  Forall (λ x, ∃ o, x = VObj o) a →
  ∃ s', _save (VArr a) s = (Ok tt, s') ∧ loaded s' = VArr (List.map reload a).
Proof.
  intros Ha. rewrite save_eq.
  destruct (syncUI_returns (saved (VArr a) s) (List.map reload a) (loaded_saved a s)
              (reload_not_nullish a Ha)) as (s' & Hs & Hk & Hl).
  exists s'. split; [exact Hs|]. rewrite (loaded_store _ _ Hk Hl). apply loaded_saved.
Qed.

Lemma to_json_object_cons (k : string) (x : value) (r : list (string * value)) :
  to_json (VObj ((k, x) :: r)) =
  match to_json x, to_json (VObj r) with
  | Some j, Some (JObj jr) => Some (JObj ((k, j) :: jr))
  | None, Some (JObj jr) => Some (JObj jr)
  | _, _ => None
  end.
Proof. simpl. destruct (to_json x); reflexivity. Qed.

Lemma reload_set_field (jo : list (string * json)) (k : string) (v : value) (j : json) :
  to_json v = Some j →
  reload (VObj (set_field (List.map (λ kv, (fst kv, of_json (snd kv))) jo) k v)) =
  VObj (set_field (List.map (λ kv, (fst kv, of_json (snd kv))) jo) k (of_json j)).
Proof.
  intros Hv. unfold reload. induction jo as [|[k' j'] jo IH].
  - cbn [List.map set_field]. rewrite to_json_object_cons, Hv. reflexivity.
  - cbn [List.map set_field fst snd]. destruct (String.eqb k' k).
    + rewrite to_json_object_cons, Hv.
      change (VObj (List.map (λ kv, (fst kv, of_json (snd kv))) jo)) with (of_json (JObj jo)).
      rewrite to_json_of_json. reflexivity.
    + rewrite to_json_object_cons, to_json_of_json.
      destruct (to_json (VObj (set_field (List.map (λ kv, (fst kv, of_json (snd kv))) jo) k v)))
        as [[ | | | | |jr]|]; simpl in IH; try discriminate.
      simpl. injection IH as IH. rewrite IH. reflexivity.
Qed.

Lemma reload_set (o : list (string * value)) (k : string) (v : value) (j : json) :
  is_json (VObj o) → to_json v = Some j →
  reload (VObj (set_field o k v)) = VObj (set_field o k (of_json j)).
Proof.
  intros [[ | | | | |jo] Ho] Hv; simpl in Ho; try discriminate.
  injection Ho as ->. apply reload_set_field. exact Hv.
Qed.

End Persistence.

(** ** [add] *)
Section Add.

Lemma find_from_first n id lines i o :
  first_with id lines i o →
  find_from n id (List.map VObj lines) = Ok (Some ((n + i)%nat, VObj o)).
Proof.
  revert n i. induction lines as [|o' r IH]; intros n i (Hi & Ho & Hlt).
  - discriminate.
  - destruct i as [|i]; simpl in *.
    + injection Hi as ->. rewrite Ho. rewrite Nat.add_0_r. reflexivity.
    + rewrite (Hlt 0%nat o' ltac:(lia) eq_refl).
      rewrite (IH (S n) i); [f_equal; f_equal; f_equal; lia|].
      split; [exact Hi|]. split; [exact Ho|].
      intros j o'' Hj Hl. apply (Hlt (S j) o''); [lia | exact Hl].
Qed.

Lemma find_from_without n id lines :
  without id lines → find_from n id (List.map VObj lines) = Ok None.
Proof.
  intros H. revert n. induction H as [|o r Ho _ IH]; intros n; simpl.
  - reflexivity.
  - rewrite Ho. apply IH.
Qed.

Lemma found_line_first id lines i o :
  first_with id lines i o → found_line id (List.map VObj lines) = Ok (Some (i, VObj o)).
Proof. intros H. unfold found_line, find. rewrite (find_from_first 0 id lines i o H). reflexivity. Qed.

Lemma found_line_without id lines :
  without id lines → found_line id (List.map VObj lines) = Ok None.
Proof. intros H. unfold found_line, find. rewrite (find_from_without 0 id lines H). reflexivity. Qed.

Lemma field_set_field_ne o k k' v : k' ≠ k → field (set_field o k v) k' = field o k'.
Proof.
  intros Hne. induction o as [|[k0 v0] r IH]; simpl.
  - destruct (String.eqb_spec k k'); [congruence | reflexivity].
  - destruct (String.eqb_spec k0 k) as [->|]; simpl.
    + destruct (String.eqb_spec k k'); [congruence | reflexivity].
    + rewrite IH. reflexivity.
Qed.

Lemma field_set_field_eq o k v : field (set_field o k v) k = v.
Proof.
  induction o as [|[k0 v0] r IH]; simpl.
  - rewrite String.eqb_refl. reflexivity.
  - destruct (String.eqb_spec k0 k) as [->|Hne]; simpl.
    + rewrite String.eqb_refl. reflexivity.
    + destruct (String.eqb_spec k0 k); [congruence | exact IH].
Qed.

Lemma holds_lines_json s lines : holds s lines → Forall is_json (List.map VObj lines).
Proof. intros H. apply is_json_array. rewrite <- H. apply loaded_is_json. Qed.

Lemma line_is_json s lines i o : holds s lines → lines !! i = Some o → is_json (VObj o).
Proof.
  intros Hh Hi. eapply (proj1 (List.Forall_forall _ _) (holds_lines_json s lines Hh)).
  apply in_map, list_elem_of_In. eapply list_elem_of_lookup_2. exact Hi.
Qed.

(** Saving the lines with a field of one of them set to a value that has a
    JSON text. *)
Lemma save_field s lines i o k v j :
  holds s lines → lines !! i = Some o → to_json v = Some j →
  ∃ s', _save (VArr (<[i := VObj (set_field o k v)]> (List.map VObj lines))) s = (Ok tt, s') ∧
        holds s' (<[i := set_field o k (of_json j)]> lines).
Proof.
  intros Hh Hi Hv.
  destruct (save_returns (<[i := VObj (set_field o k v)]> (List.map VObj lines)) s)
    as (s' & Hs & Hl).
  { apply Forall_insert; [|eauto].
    apply List.Forall_forall. intros x Hx. apply in_map_iff in Hx as (o' & <- & _). eauto. }
  exists s'. split; [exact Hs|]. unfold holds. rewrite Hl. f_equal.
  change (List.map reload) with (fmap (M:=list) reload).
  change (List.map VObj) with (fmap (M:=list) VObj).
  rewrite !list_fmap_insert.
  change (fmap (M:=list) reload) with (List.map reload).
  change (fmap (M:=list) VObj) with (List.map VObj).
  rewrite (map_reload_json _ (holds_lines_json s lines Hh)).
  rewrite (reload_set o k v j (line_is_json s lines i o Hh Hi) Hv). reflexivity.
Qed.

Lemma add_present_eq s lines id name price i o :
  holds s lines → first_with id lines i o →
  add id name price s =
    _save (VArr (<[i := VObj (set_field o "qty" (plus (field o "qty") (VNum (int 1))))]>
                   (List.map VObj lines))) s.
Proof.
  intros Hh Hf. unfold add, mbind at 1 2 3, M_bind at 1 2 3. rewrite load_eq, Hh.
  unfold lift at 1 2. simpl elements. cbv iota beta.
  rewrite (found_line_first id lines i o Hf). reflexivity.
Qed.

Lemma add_present s lines id name price i o q :
  holds s lines → first_with id lines i o → field o "qty" = VNum (Fin q) →
  ∃ s', add id name price s = (Ok tt, s') ∧
        holds s' (<[i := set_field o "qty" (VNum (Fin (q + 1)))]> lines).
Proof.
  intros Hh Hf Hq. rewrite (add_present_eq s lines id name price i o Hh Hf), Hq.
  destruct Hf as (Hi & _).
  exact (save_field s lines i o "qty" (VNum (Fin (q + 1))) (JNum (q + 1)) Hh Hi eq_refl).
Qed.

Lemma add_present_null s lines id name price i o :
  holds s lines → first_with id lines i o → field o "qty" = VNull →
  ∃ s', add id name price s = (Ok tt, s') ∧
        holds s' (<[i := set_field o "qty" (VNum (int 1))]> lines).
Proof.
  intros Hh Hf Hq. rewrite (add_present_eq s lines id name price i o Hh Hf), Hq.
  destruct Hf as (Hi & _).
  exact (save_field s lines i o "qty" (VNum (int 1)) (JNum 1) Hh Hi eq_refl).
Qed.

Lemma new_line_reload id name price :
  ∃ new, reload (new_line id name price) = VObj new ∧
         field new "qty" = VNum (int 1) ∧ field new "note" = VStr EmptyString.
Proof.
  unfold reload, new_line. simpl.
  destruct (to_json id), (to_json name), (to_json price); simpl;
    eexists; (split; [reflexivity|]); split; reflexivity.
Qed.

Lemma add_absent s lines id name price :
  holds s lines → without id lines →
  ∃ s' new, add id name price s = (Ok tt, s') ∧
            reload (new_line id name price) = VObj new ∧
            holds s' (lines ++ [new]).
Proof.
  intros Hh Hw. unfold add, mbind at 1 2 3, M_bind at 1 2 3. rewrite load_eq, Hh.
  unfold lift at 1 2. simpl elements. cbv iota beta.
  rewrite (found_line_without id lines Hw). cbv iota beta.
  fold (new_line id name price).
  destruct (new_line_reload id name price) as (new & Hn & _).
  destruct (save_returns (List.map VObj lines ++ [new_line id name price]) s) as (s' & Hs & Hl).
  { apply List.Forall_app. split.
    - apply List.Forall_forall. intros x Hx. apply in_map_iff in Hx as (o' & <- & _). eauto.
    - constructor; [|constructor]. unfold new_line. eauto. }
  exists s', new. split; [exact Hs|]. split; [exact Hn|].
  unfold holds. rewrite Hl, List.map_app. simpl. rewrite Hn, List.map_app. simpl.
  rewrite (map_reload_json _ (holds_lines_json s lines Hh)). reflexivity.
Qed.



End Add.

(** ** [total] and [count] *)
Section Totals.

#[local] Instance num_equiv_equivalence : Equivalence num_equiv.
Proof.
  split.
  - intros [ | | |p]; simpl; auto. reflexivity.
  - intros [ | | |p] [ | | |q]; simpl; auto. intros H; symmetry; exact H.
  - intros [ | | |p] [ | | |q] [ | | |r]; simpl; auto; try contradiction.
    intros H1 H2. rewrite H1. exact H2.
Qed.

#[local] Instance num_add_proper : Proper (num_equiv ==> num_equiv ==> num_equiv) num_add.
Proof.
  intros [ | | |p] [ | | |q] H1 [ | | |p'] [ | | |q'] H2; simpl in *; auto; try contradiction.
  rewrite H1, H2. reflexivity.
Qed.

Lemma inf_times_proper b p q : (p == q)%Q → inf_times b p = inf_times b q.
Proof. intros H. unfold inf_times. rewrite H. reflexivity. Qed.

#[local] Instance num_mul_proper : Proper (num_equiv ==> num_equiv ==> num_equiv) num_mul.
Proof.
  intros [ | | |p] [ | | |q] H1 [ | | |p'] [ | | |q'] H2; simpl in *; auto; try contradiction;
    try (rewrite (inf_times_proper _ _ _ H1); reflexivity);
    try (rewrite (inf_times_proper _ _ _ H2); reflexivity).
  rewrite H1, H2. reflexivity.
Qed.

Lemma num_add_assoc a b c : num_equiv (num_add (num_add a b) c) (num_add a (num_add b c)).
Proof.
  destruct a as [ | | |p], b as [ | | |q], c as [ | | |r]; simpl; auto. ring.
Qed.

Lemma num_add_0_r a : num_equiv (num_add a (int 0)) a.
Proof. destruct a as [ | | |p]; simpl; auto. exact (Qplus_0_r p). Qed.

Lemma num_add_0_l a : num_equiv (num_add (int 0) a) a.
Proof. destruct a as [ | | |p]; simpl; auto. exact (Qplus_0_l p). Qed.

Lemma num_or_numeric o k : num_equiv (num_or (ToNumber (field o k)) (int 0)) (numeric o k).
Proof.
  unfold num_or, numeric.
  destruct (ToNumber (field o k)) as [ | | |q]; simpl; [reflexivity | exact I | exact I | ].
  destruct (Qeq_bool q 0) eqn:E; simpl.
  - apply Qeq_bool_eq in E. symmetry. exact E.
  - reflexivity.
Qed.

Lemma fold_left_sum {A} (g g' : A → num) (l : list A) (a : num) :
  (∀ x, num_equiv (g x) (g' x)) →
  num_equiv (fold_left (λ acc x, num_add acc (g x)) l a) (num_add a (sum (List.map g' l))).
Proof.
  intros Hg. revert a. induction l as [|x r IH]; intros a; simpl.
  - symmetry. apply num_add_0_r.
  - rewrite IH. rewrite num_add_assoc. rewrite (Hg x). reflexivity.
Qed.

Lemma reduce_objects {A} (f : A → value → result A) (g : A → list (string * value) → A)
  (lines : list (list (string * value))) (init : A) :
  (∀ acc o, f acc (VObj o) = Ok (g acc o)) →
  reduce f (List.map VObj lines) init = Ok (fold_left g lines init).
Proof.
  intros Hf. revert init. induction lines as [|o r IH]; intros init; simpl.
  - reflexivity.
  - rewrite Hf. apply IH.
Qed.



End Totals.

(** ** The store outside the cart's entry *)
Section Frame.

Lemma own_of_store_kept {A : Type} (m : M A) : store_kept m → own_entry_only m.
Proof. intros H s. destruct (H s) as [Hk Hl]. split; [exact Hk|]. intros k _. rewrite Hl. reflexivity. Qed.

Lemma own_bind {A B : Type} (m : M A) (f : A → M B) :
  own_entry_only m → (∀ a, own_entry_only (f a)) → own_entry_only (m ≫= f).
Proof.
  intros Hm Hf s. unfold mbind, M_bind.
  specialize (Hm s). destruct (m s) as [[a|e] s']; simpl in *.
  - destruct (Hf a s') as [H1 H2]. destruct Hm as [H3 H4]. split.
    + rewrite H1. exact H3.
    + intros k Hk. rewrite H2; [apply H4; exact Hk | rewrite H3; exact Hk].
  - exact Hm.
Qed.

Lemma own_found {A : Type} (found : option (nat * value)) (f : nat → value → M A) (g : M A) :
  (∀ i x, own_entry_only (f i x)) → own_entry_only g →
  own_entry_only (match found with Some (i, x) => f i x | None => g end).
Proof. destruct found as [[i x]|]; auto. Qed.

Lemma own_save (v : value) : own_entry_only (_save v).
Proof.
  intros s. rewrite save_eq. destruct (store_kept_syncUI (saved v s)) as [Hk Hl].
  split; [exact Hk|]. intros k Hne. rewrite Hl. unfold saved, with_storage; simpl.
  apply lookup_insert_ne. congruence.
Qed.

Lemma own_clear : own_entry_only clear.
Proof.
  intros s. change (clear s) with (syncUI (emptied s)).
  destruct (store_kept_syncUI (emptied s)) as [Hk Hl].
  split; [exact Hk|]. intros k Hne. rewrite Hl. unfold emptied, with_storage; simpl.
  apply lookup_delete_ne. congruence.
Qed.

End Frame.

#[local] Hint Resolve own_of_store_kept own_bind own_found own_save own_clear
  store_kept_count store_kept_total store_kept_syncUI : cart.

Ltac own :=
  repeat first
    [ apply own_save
    | apply own_clear
    | apply own_bind; [|intros ?]
    | match goal with
      | |- own_entry_only (match ?x with _ => _ end) => destruct x as [[? ?]|]
      end
    | apply own_of_store_kept; solve [auto 10 with cart] ].

Section Locality.
Lemma own_add id name price : own_entry_only (add id name price).
Proof. unfold add. own. Qed.
Lemma own_remove id : own_entry_only (remove id).
Proof. unfold remove. own. Qed.
Lemma own_setQty id q : own_entry_only (setQty id q).
Proof. unfold setQty. own. Qed.
Lemma own_setNote id n : own_entry_only (setNote id n).
Proof. unfold setNote. own. Qed.

Lemma reader_ret {A : Type} (a : A) : own_entry_reader (mret a).
Proof. intros s1 s2 H. split; [reflexivity | exact H]. Qed.

Lemma reader_lift {A : Type} (r : result A) : own_entry_reader (lift r).
Proof. intros s1 s2 H. split; [reflexivity | exact H]. Qed.

Lemma reader_bind {A B : Type} (m : M A) (f : A → M B) :
  own_entry_reader m → (∀ a, own_entry_reader (f a)) → own_entry_reader (m ≫= f).
Proof.
  intros Hm Hf s1 s2 H. unfold mbind, M_bind.
  destruct (Hm s1 s2 H) as [Hr Hs].
  destruct (m s1) as [r1 s1'], (m s2) as [r2 s2']; simpl in *. subst r2.
  destruct r1 as [a|e]; [apply Hf; exact Hs | split; [reflexivity | exact Hs]].
Qed.

Lemma reader_when (b : bool) (m : M unit) : own_entry_reader m → own_entry_reader (when b m).
Proof. destruct b; simpl; auto using reader_ret. Qed.

Lemma agree_loaded s1 s2 : agree s1 s2 → loaded s1 = loaded s2.
Proof. intros (_ & _ & He). unfold loaded. rewrite He. reflexivity. Qed.

Lemma reader_load : own_entry_reader _load.
Proof.
  intros s1 s2 H. rewrite !load_eq. simpl. split; [|exact H].
  rewrite (agree_loaded s1 s2 H). reflexivity.
Qed.

Lemma agree_with_document f s1 s2 :
  agree s1 s2 → agree (with_document f s1) (with_document f s2).
Proof.
  intros (Hk & Hd & He). split; [exact Hk|]. split; [simpl; rewrite Hd; reflexivity|].
  exact He.
Qed.

Lemma reader_hasElement id : own_entry_reader (hasElement id).
Proof.
  intros s1 s2 H. split; [|exact H]. unfold hasElement; simpl.
  destruct H as (_ & Hd & _). rewrite Hd. reflexivity.
Qed.

Lemma reader_set_textContent id t : own_entry_reader (set_textContent id t).
Proof. intros s1 s2 H. split; [reflexivity|]. apply agree_with_document. exact H. Qed.


Lemma reader_set_display id d : own_entry_reader (set_display id d).
Proof. intros s1 s2 H. split; [reflexivity|]. apply agree_with_document. exact H. Qed.

Lemma reader_appendChild id r : own_entry_reader (appendChild id r).
Proof. intros s1 s2 H. split; [reflexivity|]. apply agree_with_document. exact H. Qed.

Lemma agree_saved v s1 s2 : agree s1 s2 → agree (saved v s1) (saved v s2).
Proof.
  intros (Hk & Hd & He). split; [exact Hk|]. split; [exact Hd|].
  unfold entry, saved, with_storage; simpl. rewrite Hk, !lookup_insert_eq. reflexivity.
Qed.

Lemma agree_emptied s1 s2 : agree s1 s2 → agree (emptied s1) (emptied s2).
Proof.
  intros (Hk & Hd & He). split; [exact Hk|]. split; [exact Hd|].
  unfold entry, emptied, with_storage; simpl. rewrite Hk, !lookup_delete_eq. reflexivity.
Qed.
End Locality.

Ltac reader lemmas :=
  repeat first
    [ simple apply reader_ret
    | simple apply reader_lift
    | simple apply reader_load
    | simple apply reader_hasElement
    | simple apply reader_set_textContent
    | simple apply reader_set_display
    | simple apply reader_appendChild
    | simple apply reader_when
    | lemmas
    | simple apply reader_bind; [|intros ?]
    | match goal with
      | |- own_entry_reader (match ?x with _ => _ end) => destruct x as [[? ?]|]
      end ].

Section Readers.

Lemma reader_count : own_entry_reader count.
Proof. unfold count. reader fail. Qed.

Lemma reader_total : own_entry_reader total.
Proof. unfold total. reader fail. Qed.

Lemma reader_syncUI : own_entry_reader syncUI.
Proof. unfold syncUI. reader ltac:(first [simple apply reader_count | simple apply reader_total]). Qed.

Lemma reader_save v : own_entry_reader (_save v).
Proof.
  intros s1 s2 H. rewrite !save_eq. apply reader_syncUI, agree_saved, H.
Qed.

Lemma reader_clear : own_entry_reader clear.
Proof.
  intros s1 s2 H. change (clear s1) with (syncUI (emptied s1)).
  change (clear s2) with (syncUI (emptied s2)). apply reader_syncUI, agree_emptied, H.
Qed.

Lemma reader_add id name price : own_entry_reader (add id name price).
Proof. unfold add. reader ltac:(simple apply reader_save). Qed.

Lemma reader_remove id : own_entry_reader (remove id).
Proof. unfold remove. reader ltac:(simple apply reader_save). Qed.

Lemma reader_setQty id q : own_entry_reader (setQty id q).
Proof. unfold setQty. reader ltac:(simple apply reader_save). Qed.

Lemma reader_setNote id n : own_entry_reader (setNote id n).
Proof. unfold setNote. reader ltac:(simple apply reader_save). Qed.

(** C10. [init] sets the key to [cart:<table_token>:<customer_id>], with
    [anon] for a customer id that is missing or falsy, and leaves the store
    alone.  Each of [add], [remove], [setQty], [setNote], [clear],
    [getLines], [total] and [count] leaves the key and every entry of the
    store under another key unchanged, and its result and effects are the
    same in two states that differ only in entries under other keys. *)
Theorem cart_uses_its_own_entry_only :
  (∀ t c s, key (snd (init t c s)) =
            VStr ("cart:" +:+ ToString t +:+ ":" +:+ ToString (or c (VStr "anon"))) ∧
            localStorage (snd (init t c s)) = localStorage s) ∧
  (∀ id name price, own_entry_only (add id name price) ∧ own_entry_reader (add id name price)) ∧
  (∀ id, own_entry_only (remove id) ∧ own_entry_reader (remove id)) ∧
  (∀ id qty, own_entry_only (setQty id qty) ∧ own_entry_reader (setQty id qty)) ∧
  (∀ id note, own_entry_only (setNote id note) ∧ own_entry_reader (setNote id note)) ∧
  (own_entry_only clear ∧ own_entry_reader clear) ∧
  (own_entry_only getLines ∧ own_entry_reader getLines) ∧
  (own_entry_only total ∧ own_entry_reader total) ∧
  (own_entry_only count ∧ own_entry_reader count).
Proof.
  split.
  { intros t c s. 
    change (init t c s) with
      (syncUI (with_key (VStr ("cart:" +:+ ToString t +:+ ":" +:+ ToString (or c (VStr "anon")))) s)).
    destruct (store_kept_syncUI
      (with_key (VStr ("cart:" +:+ ToString t +:+ ":" +:+ ToString (or c (VStr "anon")))) s))
      as [Hk Hl]. split; [exact Hk | exact Hl]. }
  repeat (intros; match goal with |- _ ∧ _ => split end); intros;
    first [ apply own_add | apply own_remove | apply own_setQty | apply own_setNote
          | apply own_clear | apply reader_add | apply reader_remove | apply reader_setQty
          | apply reader_setNote | apply reader_clear | apply reader_load
          | apply reader_total | apply reader_count
          | apply own_of_store_kept; auto with cart ].
Qed.
End Readers.

(** ** The store under [syncUI] and [renderCheckout] *)
Section Rendering.

Lemma store_kept_append_row (line : value) : store_kept (append_row line).
Proof. unfold append_row. auto 10 with cart. Qed.

Lemma store_kept_renderCheckout : store_kept renderCheckout.
Proof.
  unfold renderCheckout, clear_innerHTML.
  repeat first
    [ apply store_kept_bind; [|intros ?]
    | apply store_kept_if
    | apply store_kept_forEach; intros ?
    | apply store_kept_append_row
    | solve [auto 10 with cart] ].
Qed.

Lemma reader_forEach (f : value → M unit) (a : list value) :
  (∀ x, own_entry_reader (f x)) → own_entry_reader (forEach f a).
Proof.
  intros Hf. induction a as [|x r IH]; simpl.
  - apply reader_ret.
  - apply reader_bind; auto.
Qed.

Lemma reader_if {A : Type} (b : bool) (m1 m2 : M A) :
  own_entry_reader m1 → own_entry_reader m2 → own_entry_reader (if b then m1 else m2).
Proof. destruct b; auto. Qed.

Lemma reader_append_row (line : value) : own_entry_reader (append_row line).
Proof. unfold append_row. reader fail. Qed.

Lemma reader_renderCheckout : own_entry_reader renderCheckout.
Proof.
  unfold renderCheckout, clear_innerHTML.
  reader ltac:(first [ simple apply reader_total
                     | simple apply reader_if
                     | simple apply reader_forEach; intros ?
                     | simple apply reader_append_row ]).
Qed.

(** X5. [syncUI] and [renderCheckout] leave the key and the whole store as
    they are, and what they do depends on nothing of the store but the
    entry under the cart's key. *)
Theorem rendering_leaves_the_store :
  store_kept syncUI ∧ own_entry_reader syncUI ∧
  store_kept renderCheckout ∧ own_entry_reader renderCheckout.
Proof.
  split; [exact store_kept_syncUI|]. split; [exact reader_syncUI|].
  split; [exact store_kept_renderCheckout | exact reader_renderCheckout].
Qed.
End Rendering.

(** ** [setQty], [setNote], [remove] and the invariant of the data model *)
Section Edits.

Lemma setQty_present s lines id qty i o :
  holds s lines → first_with id lines i o →
  setQty id qty s =
    _save (VArr (<[i := VObj (set_field o "qty"
                    (VNum (Math_max (int 1) (parseInt10 (ToString (or qty (VNum (int 1))))))))]>
                   (List.map VObj lines))) s.
Proof.
  intros Hh Hf. unfold setQty, mbind at 1 2 3, M_bind at 1 2 3. rewrite load_eq, Hh.
  unfold lift at 1 2. simpl elements. cbv iota beta.
  rewrite (found_line_first id lines i o Hf). reflexivity.
Qed.

Lemma setQty_absent s lines id qty :
  holds s lines → without id lines → setQty id qty s = (Ok tt, s).
Proof.
  intros Hh Hw. unfold setQty, mbind at 1 2 3, M_bind at 1 2 3. rewrite load_eq, Hh.
  unfold lift at 1 2. simpl elements. cbv iota beta.
  rewrite (found_line_without id lines Hw). reflexivity.
Qed.

Lemma parseInt10_cases (t : string) : parseInt10 t = NaN ∨ ∃ z, parseInt10 t = int z.
Proof.
  unfold parseInt10. destruct (take_sign (trim_start t)) as [neg r].
  destruct (span_digits r) as [d rest]. destruct d; eauto.
Qed.

Lemma Math_max_int (z : Z) : Math_max (int 1) (int z) = int (Z.max 1 z).
Proof.
  unfold Math_max, int, Qle_bool, inject_Z. simpl.
  destruct (Z.leb_spec (1 * 1) (z * 1)).
  - rewrite Z.max_r by lia. reflexivity.
  - rewrite Z.max_l by lia. reflexivity.
Qed.

Lemma at_least_one_max (z : Z) : at_least_one (int (Z.max 1 z)).
Proof. simpl. unfold Qle, inject_Z; simpl. lia. Qed.

Lemma first_or_without (id : value) (lines : list (list (string * value))) :
  (∃ i o, first_with id lines i o) ∨ without id lines.
Proof.
  induction lines as [|o r IH].
  - right. constructor.
  - destruct (strict_eq (field o "menu_item_id") id) eqn:E.
    + left. exists 0%nat, o. split; [reflexivity|]. split; [exact E|]. intros j o' Hj. lia.
    + destruct IH as [(i & o' & Hi & Ho & Hlt)|Hw].
      * left. exists (S i), o'. split; [exact Hi|]. split; [exact Ho|].
        intros [|j] o'' Hj Hl; simpl in Hl.
        -- injection Hl as <-. exact E.
        -- apply (Hlt j o''); [lia | exact Hl].
      * right. constructor; assumption.
Qed.

Lemma setQty_returns (s : state) (lines : list (list (string * value)))
  (id qty : value) :
  holds s lines → ∃ s', setQty id qty s = (Ok tt, s').
Proof.
  intros Hh. destruct (first_or_without id lines) as [(i & o & Hf)|Hw].
  - rewrite (setQty_present s lines id qty i o Hh Hf).
    replace (<[i := VObj (set_field o "qty"
                  (VNum (Math_max (int 1) (parseInt10 (ToString (or qty (VNum (int 1))))))))]>
                 (List.map VObj lines))
      with (List.map VObj (<[i := set_field o "qty"
                  (VNum (Math_max (int 1) (parseInt10 (ToString (or qty (VNum (int 1)))))))]> lines)).
    2:{ change (List.map VObj) with (fmap (M:=list) VObj). rewrite list_fmap_insert. reflexivity. }
    destruct (save_returns (List.map VObj (<[i := set_field o "qty"
                  (VNum (Math_max (int 1) (parseInt10 (ToString (or qty (VNum (int 1)))))))]> lines)) s)
      as (s' & Hs & _); [|eauto].
    apply List.Forall_forall. intros x Hx. apply in_map_iff in Hx as (o' & <- & _). eauto.
  - rewrite (setQty_absent s lines id qty Hh Hw). eauto.
Qed.

Lemma setQty_integer (s : state) (lines : list (list (string * value)))
  (id qty : value) (i : nat) (o : list (string * value)) (z : Z) :
  holds s lines → first_with id lines i o →
  parseInt10 (ToString (or qty (VNum (int 1)))) = int z →
  ∃ s', setQty id qty s = (Ok tt, s') ∧
        holds s' (<[i := set_field o "qty" (VNum (int (Z.max 1 z)))]> lines).
Proof.
  intros Hh Hf Hz. rewrite (setQty_present s lines id qty i o Hh Hf), Hz, Math_max_int.
  exact (save_field s lines i o "qty" (VNum (int (Z.max 1 z)))
           (JNum (inject_Z (Z.max 1 z))) Hh (proj1 Hf) eq_refl).
Qed.

Lemma setNote_present s lines id n i o :
  holds s lines → first_with id lines i o →
  setNote id (VStr n) s =
    _save (VArr (<[i := VObj (set_field o "note" (VStr (String.substring 0 300 n)))]>
                   (List.map VObj lines))) s.
Proof.
  intros Hh Hf. unfold setNote, mbind at 1 2 3, M_bind at 1 2 3. rewrite load_eq, Hh.
  unfold lift at 1 2. simpl elements. cbv iota beta.
  rewrite (found_line_first id lines i o Hf). cbv iota beta.
  unfold mbind, M_bind, lift. destruct n; reflexivity.
Qed.

Lemma setNote_absent s lines id note :
  holds s lines → without id lines → setNote id note s = (Ok tt, s).
Proof.
  intros Hh Hw. unfold setNote, mbind at 1 2 3, M_bind at 1 2 3. rewrite load_eq, Hh.
  unfold lift at 1 2. simpl elements. cbv iota beta.
  rewrite (found_line_without id lines Hw). reflexivity.
Qed.

Lemma substring_length (n m : nat) (t : string) :
  (String.length (String.substring n m t) <= m)%nat.
Proof.
  revert n m. induction t as [|c t IH]; intros [|n] [|m]; simpl; try lia.
  - specialize (IH 0%nat m). lia.
  - apply IH.
  - apply IH.
Qed.

Lemma setNote_string (s : state) (lines : list (list (string * value)))
  (id : value) (n : string) (i : nat) (o : list (string * value)) :
  holds s lines → first_with id lines i o →
  ∃ s', setNote id (VStr n) s = (Ok tt, s') ∧
        holds s' (<[i := set_field o "note" (VStr (String.substring 0 300 n))]> lines).
Proof.
  intros Hh Hf. rewrite (setNote_present s lines id n i o Hh Hf).
  exact (save_field s lines i o "note" (VStr (String.substring 0 300 n))
           (JStr (String.substring 0 300 n)) Hh (proj1 Hf) eq_refl).
Qed.

Lemma filter_out_objects (id : value) (lines : list (list (string * value))) :
  filter_out id (List.map VObj lines) =
  Ok (List.map VObj
        (List.filter (λ o, negb (strict_eq (field o "menu_item_id") id)) lines)).
Proof.
  induction lines as [|o r IH]; simpl; [reflexivity|].
  rewrite IH. destruct (strict_eq (field o "menu_item_id") id); reflexivity.
Qed.

Lemma remove_filters (s : state) (lines : list (list (string * value)))
  (id : value) :
  holds s lines →
  ∃ s', remove id s = (Ok tt, s') ∧
        holds s' (List.filter (λ o, negb (strict_eq (field o "menu_item_id") id)) lines).
Proof.
  intros Hh. unfold remove, mbind at 1 2 3, M_bind at 1 2 3. rewrite load_eq, Hh.
  unfold lift at 1 2. simpl elements. cbv iota beta. rewrite filter_out_objects.
  destruct (save_returns
              (List.map VObj
                 (List.filter (λ o, negb (strict_eq (field o "menu_item_id") id)) lines)) s)
    as (s' & Hs & Hl).
  { apply List.Forall_forall. intros x Hx. apply in_map_iff in Hx as (o & <- & _). eauto. }
  exists s'. split; [exact Hs|]. unfold holds. rewrite Hl. f_equal.
  apply map_reload_json. apply List.Forall_forall. intros x Hx.
  apply in_map_iff in Hx as (o & <- & Ho). apply filter_In in Ho as [Ho _].
  eapply (proj1 (List.Forall_forall _ _) (holds_lines_json s lines Hh)).
  apply in_map. exact Ho.
Qed.

Lemma without_filter (id : value) (lines : list (list (string * value))) :
  without id (List.filter (λ o, negb (strict_eq (field o "menu_item_id") id)) lines).
Proof.
  apply List.Forall_forall. intros o Ho. apply filter_In in Ho as [_ Ho].
  destruct (strict_eq (field o "menu_item_id") id); [discriminate | reflexivity].
Qed.

Lemma filter_without (id : value) (lines : list (list (string * value))) :
  without id lines →
  List.filter (λ o, negb (strict_eq (field o "menu_item_id") id)) lines = lines.
Proof.
  induction 1 as [|o r Ho _ IH]; simpl; [reflexivity|].
  rewrite Ho. simpl. f_equal. exact IH.
Qed.

Lemma line_ok_object (x : value) : line_ok x → ∃ o, x = VObj o ∧ fields_ok o.
Proof.
  intros ((q & Hq & H1) & (n & Hn & H2)).
  destruct x; simpl in Hq; try discriminate. injection Hq as Hq. injection Hn as Hn.
  eexists. split; [reflexivity|]. split; eauto.
Qed.

Lemma cart_ok_holds (s : state) :
  cart_ok s ↔ ∃ lines, holds s lines ∧ Forall fields_ok lines.
Proof.
  split.
  - intros (a & Hl & Ha). unfold holds. rewrite Hl. clear Hl.
    induction Ha as [|x r Hx _ (lines & Hr & Hf)].
    + exists []. split; [reflexivity | constructor].
    + destruct (line_ok_object x Hx) as (o & -> & Ho).
      exists (o :: lines). injection Hr as ->. split; [reflexivity | constructor; assumption].
  - intros (lines & Hh & Hf). exists (List.map VObj lines). split; [exact Hh|].
    clear Hh. induction Hf as [|o r ((q & Hq & H1) & (n & Hn & H2)) _ IH]; simpl;
      [constructor|]. constructor; [|exact IH].
    split; [exists q | exists n]; simpl; rewrite ?Hq, ?Hn; auto.
Qed.

Lemma field_is_json (o : list (string * value)) (k : string) :
  is_json (VObj o) → field o k = VUndef ∨ is_json (field o k).
Proof.
  intros H. apply is_json_object in H. induction H as [|[k' v] r Hv _ IH]; simpl.
  - left. reflexivity.
  - destruct (String.eqb k' k); [right; exact Hv | exact IH].
Qed.

Lemma json_number (o : list (string * value)) (k : string) (q : num) :
  is_json (VObj o) → field o k = VNum q → ∃ p, q = Fin p.
Proof.
  intros Ho Hq. destruct (field_is_json o k Ho) as [H|[j H]]; rewrite Hq in H.
  - discriminate.
  - destruct j; simpl in H; try discriminate. injection H as ->. eauto.
Qed.

Lemma fields_ok_set_qty (o : list (string * value)) (q : num) :
  fields_ok o → at_least_one q → fields_ok (set_field o "qty" (VNum q)).
Proof.
  intros (_ & (n & Hn & H2)) Hq. split.
  - exists q. split; [apply field_set_field_eq | exact Hq].
  - exists n. split; [|exact H2]. rewrite field_set_field_ne by discriminate. exact Hn.
Qed.

Lemma fields_ok_set_note (o : list (string * value)) (n : string) :
  fields_ok o → (String.length n <= 300)%nat → fields_ok (set_field o "note" (VStr n)).
Proof.
  intros ((q & Hq & H1) & _) Hn. split.
  - exists q. split; [|exact H1]. rewrite field_set_field_ne by discriminate. exact Hq.
  - exists n. split; [apply field_set_field_eq | exact Hn].
Qed.

Lemma step_keeps_cart_ok (c : call) (s : state) :
  well_typed c → cart_ok s → cart_ok (snd (step c s)).
Proof.
  intros Hc Hs. apply cart_ok_holds in Hs as (lines & Hh & Hf). apply cart_ok_holds.
  destruct c as [id name price | id | id qty | id note]; simpl step.
  - destruct (first_or_without id lines) as [(i & o & Hi)|Hw].
    + pose proof Hi as (Hl & _).
      pose proof (proj1 (Forall_lookup _ _) Hf i o Hl) as Ho.
      destruct Ho as ((q & Hq & H1) & Hnote).
      destruct (json_number o "qty" q (line_is_json s lines i o Hh Hl) Hq) as [p ->].
      destruct (add_present s lines id name price i o p Hh Hi Hq) as (s' & -> & Hh').
      exists (<[i := set_field o "qty" (VNum (Fin (p + 1)))]> lines). split; [exact Hh'|].
      apply Forall_insert; [exact Hf|].
      apply fields_ok_set_qty; [split; eauto|]. simpl in *.
      apply Qle_trans with (1 := H1). rewrite <- (Qplus_0_r p) at 1.
      apply Qplus_le_r. discriminate.
    + destruct (add_absent s lines id name price Hh Hw) as (s' & new & -> & Hn & Hh').
      exists (lines ++ [new])%list. split; [exact Hh'|]. apply Forall_app. split; [exact Hf|].
      constructor; [|constructor].
      destruct (new_line_reload id name price) as (new' & Hn' & Hq & Hnote).
      rewrite Hn in Hn'. injection Hn' as <-. split.
      * exists (int 1). split; [exact Hq|]. simpl. apply Qle_refl.
      * exists EmptyString. split; [exact Hnote|]. simpl. lia.
  - destruct (remove_filters s lines id Hh) as (s' & -> & Hh').
    eexists. split; [exact Hh'|]. apply List.Forall_forall. intros o Ho.
    apply filter_In in Ho as [Ho _]. exact (proj1 (List.Forall_forall _ _) Hf o Ho).
  - simpl in Hc. destruct (parseInt10_cases (ToString (or qty (VNum (int 1))))) as [E|[z E]];
      [contradiction|].
    destruct (first_or_without id lines) as [(i & o & Hi)|Hw].
    + destruct (setQty_integer s lines id qty i o z Hh Hi E) as (s' & -> & Hh').
      eexists. split; [exact Hh'|]. apply Forall_insert; [exact Hf|].
      pose proof Hi as (Hl & _).
      apply fields_ok_set_qty;
        [exact (proj1 (Forall_lookup _ _) Hf i o Hl) | apply at_least_one_max].
    + rewrite (setQty_absent s lines id qty Hh Hw). exists lines. split; assumption.
  - destruct Hc as [n ->].
    destruct (first_or_without id lines) as [(i & o & Hi)|Hw].
    + destruct (setNote_string s lines id n i o Hh Hi) as (s' & -> & Hh').
      eexists. split; [exact Hh'|]. apply Forall_insert; [exact Hf|].
      pose proof Hi as (Hl & _).
      apply fields_ok_set_note;
        [exact (proj1 (Forall_lookup _ _) Hf i o Hl) | apply substring_length].
    + rewrite (setNote_absent s lines id (VStr n) Hh Hw). exists lines. split; assumption.
Qed.

Lemma run_keeps_cart_ok (cs : list call) (s : state) :
  Forall well_typed cs → cart_ok s → cart_ok (run cs s).
Proof.
  intros Hcs. revert s. induction Hcs as [|c r Hc _ IH]; intros s Hs; simpl.
  - exact Hs.
  - apply IH, step_keeps_cart_ok; assumption.
Qed.









End Edits.

(** ** A stored string that is no JSON *)
Section Malformed.

Lemma loaded_malformed s raw : entry s = Some (Malformed raw) → loaded s = VArr [].
Proof. intros H. unfold loaded. rewrite H. reflexivity. Qed.

Lemma saved_emptied v s : saved v (emptied s) = saved v s.
Proof.
  unfold saved, emptied, with_storage; simpl. f_equal. apply insert_delete_eq.
Qed.

Lemma emptied_emptied s : emptied (emptied s) = emptied s.
Proof.
  unfold emptied, with_storage; simpl. f_equal. apply delete_delete_eq.
Qed.

Lemma add_on_empty s id name price :
  loaded s = VArr [] → add id name price s = syncUI (saved (VArr [new_line id name price]) s).
Proof.
  intros Hl. unfold add, mbind at 1 2 3, M_bind at 1 2 3. rewrite load_eq, Hl. reflexivity.
Qed.

Lemma remove_on_empty s id :
  loaded s = VArr [] → remove id s = syncUI (saved (VArr []) s).
Proof.
  intros Hl. unfold remove, mbind at 1 2 3, M_bind at 1 2 3. rewrite load_eq, Hl. reflexivity.
Qed.

Lemma setQty_on_empty s id qty : loaded s = VArr [] → setQty id qty s = (Ok tt, s).
Proof.
  intros Hl. unfold setQty, mbind, M_bind. rewrite load_eq, Hl. reflexivity.
Qed.

Lemma setNote_on_empty s id note : loaded s = VArr [] → setNote id note s = (Ok tt, s).
Proof.
  intros Hl. unfold setNote, mbind, M_bind. rewrite load_eq, Hl. reflexivity.
Qed.

Lemma syncUI_saved_returns a s :
  Forall (λ x, ∃ o, x = VObj o) a → ∃ s', syncUI (saved (VArr a) s) = (Ok tt, s').
Proof.
  intros Ha. destruct (save_returns a s Ha) as (s' & Hs & _). rewrite save_eq in Hs. eauto.
Qed.

Lemma renderCheckout_on_empty s : loaded s = VArr [] → ∃ s', renderCheckout s = (Ok tt, s').
Proof.
  intros Hl. destruct (empty_aggregates s Hl) as (_ & T & _).
  unfold renderCheckout, mbind at 1 2 3 4 5, M_bind at 1 2 3 4 5, hasElement.
  rewrite load_eq, Hl.
  destruct (bool_decide (is_Some (document s !! "sumTotal"))); simpl;
    unfold mbind, M_bind; rewrite ?T; simpl;
    destruct (bool_decide (is_Some (document s !! "cartList"))); simpl; eauto;
    destruct (bool_decide (is_Some (document s !! "cartEmpty"))); simpl; eauto.
Qed.


End Malformed.

(** ** A quantity that is no number *)
Section Quantity.

(** C1, on the input the specification names.  The cart holds one line
    for item A; [setQty] of A with the string abc returns without an
    exception, but [Math.max(1, NaN)] is [NaN]: the quantity of the line is
    stored as [null], not as 1, and [count()] is 0.  The text .5, which a
    number field accepts, does the same through the [blur] listener. *)
Theorem setQty_non_numeric_gives_no_quantity :
  holds pad_thai_once [pad_thai 1] ∧
  Math_max (int 1) (parseInt10 (ToString (or (VStr "abc") (VNum (int 1))))) = NaN ∧
  setQty (VStr "A") (VStr "abc") pad_thai_once = (Ok tt, pad_thai_abc) ∧
  getLines pad_thai_abc = (Ok (VArr [VObj pad_thai_no_qty]), pad_thai_abc) ∧
  count pad_thai_abc = (Ok (int 0), pad_thai_abc) ∧
  on_qty_blur (VStr "A") ".5" pad_thai_once = (Ok tt, pad_thai_abc).
Proof. repeat split; vm_compute; reflexivity. Qed.

(** C2, on a sequence of calls from the empty cart.  After [add] of item A
    every line has a quantity of at least 1 and a note of at most 300
    characters; after [setQty] of A with the string abc the line has no
    quantity that is a number, so the invariant is lost. *)
Theorem quantity_invariant_broken :
  cart_ok pad_thai_once ∧ ¬ cart_ok pad_thai_abc.
Proof.
  split.
  - exists [VObj (pad_thai 1)]. split; [vm_compute; reflexivity|].
    constructor; [|constructor]. split.
    + exists (int 1). split; [reflexivity|]. simpl. apply Qle_refl.
    + exists EmptyString. split; [reflexivity|]. simpl. lia.
  - intros (a & Hl & Ha).
    assert (loaded pad_thai_abc = VArr [VObj pad_thai_no_qty]) as E by (vm_compute; reflexivity).
    rewrite E in Hl. injection Hl as <-.
    inversion Ha as [|x r ((q & Hq & _) & _) _]; subst. discriminate Hq.
Qed.

End Quantity.

(** ** Escaping and the rows of the checkout page *)
Section Escaping.

Lemma markup_app (a b : string) : markup (a +:+ b) = (markup a ++ markup b)%list.
Proof.
  induction a as [|c a IH]; simpl; [reflexivity|].
  rewrite IH. destruct (is_markup c); reflexivity.
Qed.

Lemma markup_entity (c : ascii) : markup (entity c) = [].
Proof.
  unfold entity.
  destruct (Z.eqb_spec (code c) 38); [reflexivity|].
  destruct (Z.eqb_spec (code c) 60); [reflexivity|].
  destruct (Z.eqb_spec (code c) 62); [reflexivity|].
  destruct (Z.eqb_spec (code c) 34); [reflexivity|].
  destruct (Z.eqb_spec (code c) 39); [reflexivity|].
  simpl. unfold is_markup.
  repeat match goal with H : code c ≠ _ |- _ => apply Z.eqb_neq in H; rewrite H; clear H end.
  reflexivity.
Qed.

Lemma markup_replace_special (s : string) : markup (replace_special s) = [].
Proof.
  induction s as [|c s IH]; simpl; [reflexivity|].
  rewrite markup_app, markup_entity, IH. reflexivity.
Qed.

Lemma markup_replace_quot (s : string) : markup s = [] → markup (replace_quot s) = [].
Proof.
  induction s as [|c s IH]; simpl; [reflexivity|].
  destruct (is_markup c) eqn:E; [discriminate|]. intros H.
  rewrite markup_app, (IH H), app_nil_r.
  destruct (code c =? 34); [reflexivity|]. simpl. rewrite E. reflexivity.
Qed.

Lemma markup_escapeHtml (v : value) : markup (escapeHtml v) = [].
Proof. apply markup_replace_special. Qed.

Lemma markup_escapeAttr (v : value) : markup (escapeAttr v) = [].
Proof. apply markup_replace_quot, markup_escapeHtml. Qed.

Lemma row_markup (o : list (string * value)) (name note : value) :
  ∃ h h', row_html (VObj o) = Ok h ∧
          row_html (VObj (set_field (set_field o "name" name) "note" note)) = Ok h' ∧
          markup h' = markup h.
Proof.
  unfold row_html. simpl get. cbv iota beta.
  eexists. eexists. split; [reflexivity|]. split; [reflexivity|].
  assert (Hk : ∀ k, k ≠ "name" → k ≠ "note" →
               field (set_field (set_field o "name" name) "note" note) k = field o k).
  { intros k H1 H2. rewrite !field_set_field_ne by assumption. reflexivity. }
  rewrite !(Hk "price"), !(Hk "qty") by discriminate.
  cbn [String.concat]. unfold attr.
  rewrite !markup_app, !markup_escapeHtml, !markup_escapeAttr. reflexivity.
Qed.

Lemma row_html_object o : ∃ h, row_html (VObj o) = Ok h.
Proof. unfold row_html. simpl get. cbv iota beta. eexists. reflexivity. Qed.

Lemma append_row_object o s :
  append_row (VObj o) s =
  (Ok tt, with_document (alter (λ el, {| textContent := textContent el; display := display el;
                                         rows := rows el ++ [row_of o] |}) "cartList") s).
Proof.
  unfold append_row, row_of, mbind, M_bind, lift, appendChild.
  destruct (row_html_object o) as [h ->]. reflexivity.
Qed.

Lemma forEach_rows lines s el :
  document s !! "cartList" = Some el →
  ∃ s', forEach append_row (List.map VObj lines) s = (Ok tt, s') ∧
        document s' !! "cartList" =
          Some {| textContent := textContent el; display := display el;
                  rows := rows el ++ List.map row_of lines |} ∧
        key s' = key s ∧ localStorage s' = localStorage s.
Proof.
  revert s el. induction lines as [|o r IH]; intros s el Hel; simpl.
  - exists s. split; [reflexivity|]. rewrite app_nil_r. destruct el; simpl. auto.
  - unfold mbind, M_bind. rewrite append_row_object.
    edestruct (IH (with_document (alter (λ el, {| textContent := textContent el; display := display el;
                                         rows := rows el ++ [row_of o] |}) "cartList") s)) as (s' & Hs & Hd & Hk & Hl).
    { simpl. rewrite lookup_alter_eq, Hel. reflexivity. }
    exists s'. split; [exact Hs|]. split; [|split; assumption].
    rewrite Hd. simpl. rewrite <- app_assoc. reflexivity.
Qed.

Lemma length_of_nonempty (x : value) (a : list value) :
  ∃ n, length_of (VArr (x :: a)) = Ok n ∧ truthy n = true.
Proof.
  eexists. split; [reflexivity|]. simpl. unfold Qeq_bool, inject_Z. simpl.
  destruct (Z.eqb_spec (Z.pos (Pos.of_succ_nat (List.length a)) * 1) 0); [lia | reflexivity].
Qed.

Lemma render_rows_from s o lines el :
  document s !! "cartList" = Some el →
  ∃ s', (clear_innerHTML "cartList";;
         n ← lift (length_of (VArr (List.map VObj (o :: lines))));
         if negb (truthy n) then set_display "cartEmpty" EmptyString
         else
           set_display "cartEmpty" "none";;
           a ← lift (elements (VArr (List.map VObj (o :: lines))));
           forEach append_row a) s = (Ok tt, s') ∧
        rows <$> document s' !! "cartList" = Some (List.map row_of (o :: lines)).
Proof.
  intros Hl. cbn [List.map].
  destruct (length_of_nonempty (VObj o) (List.map VObj lines)) as (n & Hn & Ht).
  unfold mbind at 1 2, M_bind at 1 2, clear_innerHTML, set_textContent, lift.
  rewrite Hn, Ht. cbn [negb elements]. unfold mbind, M_bind, set_display.
  change (VObj o :: List.map VObj lines) with (List.map VObj (o :: lines)).
  edestruct (forEach_rows (o :: lines)) as (s' & Hs & Hd & _); [|rewrite Hs].
  { cbn [document with_document].
    rewrite lookup_alter_ne by discriminate. rewrite lookup_alter_eq, Hl. reflexivity. }
  exists s'. split; [reflexivity|]. rewrite Hd. reflexivity.
Qed.

Lemma renderCheckout_rows s o lines :
  holds s (o :: lines) → is_Some (document s !! "cartList") →
  is_Some (document s !! "cartEmpty") →
  ∃ s', renderCheckout s = (Ok tt, s') ∧
        rows <$> document s' !! "cartList" = Some (List.map row_of (o :: lines)).
Proof.
  intros Hh Hl He.
  destruct (total_returns s _ Hh (objects_not_nullish _)) as [t Ht].
  unfold renderCheckout.
  unfold mbind at 1 2 3 4 5, M_bind at 1 2 3 4 5, hasElement.
  rewrite load_eq, Hh.
  rewrite (bool_decide_eq_true_2 _ He), (bool_decide_eq_true_2 _ Hl). cbn [negb orb].
  destruct Hl as [el Hl].
  destruct (bool_decide (is_Some (document s !! "sumTotal"))); cbn [when].
  - unfold mbind at 1, M_bind at 1. rewrite Ht. unfold set_textContent at 1.
    apply (render_rows_from _ o lines el). cbn [document with_document].
    rewrite lookup_alter_ne by discriminate. exact Hl.
  - apply (render_rows_from _ o lines el). exact Hl.
Qed.

End Escaping.

(** ** Numbers as text *)
Section Printing.

Lemma markup_pretty_N_go (x : N) (s : string) : markup (pretty_N_go x s) = markup s.
Proof.
  revert s. induction (N.lt_wf_0 x) as [x _ IH]; intros s.
  destruct (N.eq_dec x 0%N) as [->|Hx].
  - rewrite pretty_N_go_0. reflexivity.
  - rewrite pretty_N_go_step by lia. rewrite IH by (apply N.div_lt; lia).
    assert (Hc : ∀ n, is_markup (pretty_N_char n) = false).
    { intros [|p]; [reflexivity|]. do 4 (destruct p as [p|p|]; try reflexivity). }
    simpl. rewrite Hc. reflexivity.
Qed.

Lemma markup_digits_of (z : Z) : markup (digits_of z) = [].
Proof.
  unfold digits_of, pretty, pretty_N. case_decide; [reflexivity|].
  apply markup_pretty_N_go.
Qed.

Lemma markup_zeros (n : nat) : markup (zeros n) = [].
Proof. induction n; simpl; auto. Qed.

Lemma markup_substring (n m : nat) (s : string) :
  markup s = [] → markup (String.substring n m s) = [].
Proof.
  revert n m. induction s as [|c s IH]; intros n m H.
  - destruct n, m; reflexivity.
  - simpl in H. destruct (is_markup c) eqn:E; [discriminate|].
    destruct n as [|n]; [destruct m as [|m]|]; simpl; rewrite ?E; auto.
Qed.

Lemma markup_positive_to_string (q : Q) : markup (positive_to_string q) = [].
Proof.
  unfold positive_to_string. destruct (decimal_digits q) as [s e].
  repeat match goal with |- context [if ?b then _ else _] => destruct b end;
    rewrite ?markup_app, ?markup_zeros, ?markup_digits_of,
      ?(markup_substring _ _ _ (markup_digits_of _)); reflexivity.
Qed.

Lemma markup_NumberToString (n : num) : markup (NumberToString n) = [].
Proof.
  destruct n as [ | | |q]; try reflexivity. simpl.
  destruct (q ?= 0)%Q; [reflexivity| |]; rewrite ?markup_app, markup_positive_to_string;
    reflexivity.
Qed.

Lemma markup_toFixed2 (n : num) : markup (toFixed2 n) = [].
Proof.
  destruct n as [ | | |q]; try reflexivity. unfold toFixed2.
  destruct (Qle_bool (inject_Z (10 ^ 21)) (Qabs q)); [apply markup_NumberToString|].
  assert (H : ∀ z k, markup (zeros k +:+ digits_of z) = []).
  { intros z k. rewrite markup_app, markup_zeros, markup_digits_of. reflexivity. }
  rewrite !markup_app, !(markup_substring _ _ _ (H _ _)).
  destruct (Qle_bool 0 q); reflexivity.
Qed.

End Printing.

(** ** The rows of the carts the operations build *)
Section Reachable.

Lemma setNote_present_eq s lines id note i o :
  holds s lines → first_with id lines i o →
  setNote id note s =
    match slice_0_300 (or note (VStr EmptyString)) with
    | Ok n => _save (VArr (<[i := VObj (set_field o "note" n)]> (List.map VObj lines))) s
    | Throw e => (Throw e, s)
    end.
Proof.
  intros Hh Hf. unfold setNote, mbind at 1 2 3, M_bind at 1 2 3. rewrite load_eq, Hh.
  unfold lift at 1 2. simpl elements. cbv iota beta.
  rewrite (found_line_first id lines i o Hf). cbv iota beta.
  unfold mbind, M_bind, lift. destruct (slice_0_300 (or note (VStr EmptyString))); reflexivity.
Qed.

Lemma number_or_null_json (j : json) (n : num) : of_json j = VNum n → ∃ q, n = Fin q.
Proof. destruct j; simpl; intros H; try discriminate. injection H as <-. eauto. Qed.

Lemma tame_set_qty lines i o v :
  Forall (λ o, number_or_null (field o "qty")) lines → number_or_null v →
  Forall (λ o, number_or_null (field o "qty")) (<[i := set_field o "qty" v]> lines).
Proof.
  intros Hf Hv. apply Forall_insert; [exact Hf|]. rewrite field_set_field_eq. exact Hv.
Qed.

Lemma tame_set_note lines i o v :
  Forall (λ o, number_or_null (field o "qty")) lines → lines !! i = Some o →
  Forall (λ o, number_or_null (field o "qty")) (<[i := set_field o "note" v]> lines).
Proof.
  intros Hf Hi. apply Forall_insert; [exact Hf|].
  rewrite field_set_field_ne by discriminate. exact (proj1 (Forall_lookup _ _) Hf i o Hi).
Qed.

Lemma step_keeps_tame (c : call) (s : state) : tame s → tame (snd (step c s)).
Proof.
  intros (lines & Hh & Hf).
  destruct c as [id name price | id | id qty | id note]; simpl step.
  - destruct (first_or_without id lines) as [(i & o & Hi)|Hw].
    + pose proof Hi as (Hl & _).
      rewrite (add_present_eq s lines id name price i o Hh Hi).
      assert (∃ q, plus (field o "qty") (VNum (int 1)) = VNum (Fin q)) as [q Hq].
      { destruct (proj1 (Forall_lookup _ _) Hf i o Hl) as [E|[n E]]; rewrite E.
        - eexists. reflexivity.
        - destruct (field_is_json o "qty" (line_is_json s lines i o Hh Hl)) as [H|[j H]];
            rewrite E in H; [discriminate|].
          symmetry in H. destruct (number_or_null_json j n H) as [p ->]. eexists. reflexivity. }
      rewrite Hq.
      destruct (save_field s lines i o "qty" (VNum (Fin q)) (JNum q) Hh Hl eq_refl)
        as (s' & -> & Hh').
      eexists. split; [exact Hh'|]. apply tame_set_qty; [exact Hf|]. right. eauto.
    + destruct (add_absent s lines id name price Hh Hw) as (s' & new & -> & Hn & Hh').
      exists (lines ++ [new])%list. split; [exact Hh'|]. apply Forall_app. split; [exact Hf|].
      constructor; [|constructor].
      destruct (new_line_reload id name price) as (new' & Hn' & Hq & _).
      rewrite Hn in Hn'. injection Hn' as <-. rewrite Hq. right. eauto.
  - destruct (remove_filters s lines id Hh) as (s' & -> & Hh').
    eexists. split; [exact Hh'|]. apply List.Forall_forall. intros o Ho.
    apply filter_In in Ho as [Ho _]. exact (proj1 (List.Forall_forall _ _) Hf o Ho).
  - destruct (first_or_without id lines) as [(i & o & Hi)|Hw].
    + pose proof Hi as (Hl & _).
      rewrite (setQty_present s lines id qty i o Hh Hi).
      destruct (parseInt10_cases (ToString (or qty (VNum (int 1))))) as [E|[z E]]; rewrite E.
      * destruct (save_field s lines i o "qty" (VNum NaN) JNull Hh Hl eq_refl)
          as (s' & Hs & Hh'). simpl Math_max. rewrite Hs.
        eexists. split; [exact Hh'|]. apply tame_set_qty; [exact Hf|]. left. reflexivity.
      * rewrite Math_max_int.
        destruct (save_field s lines i o "qty" (VNum (int (Z.max 1 z)))
                    (JNum (inject_Z (Z.max 1 z))) Hh Hl eq_refl) as (s' & -> & Hh').
        eexists. split; [exact Hh'|]. apply tame_set_qty; [exact Hf|]. right. eauto.
    + rewrite (setQty_absent s lines id qty Hh Hw). exists lines. split; assumption.
  - destruct (first_or_without id lines) as [(i & o & Hi)|Hw].
    + pose proof Hi as (Hl & _).
      rewrite (setNote_present_eq s lines id note i o Hh Hi).
      destruct (slice_0_300 (or note (VStr EmptyString))) as [n|e] eqn:E.
      * assert (∃ j, to_json n = Some j) as [j Hj].
        { destruct (or note (VStr EmptyString)); simpl in E; try discriminate;
            injection E as <-; eexists; reflexivity. }
        destruct (save_field s lines i o "note" n j Hh Hl Hj) as (s' & -> & Hh').
        eexists. split; [exact Hh'|]. apply tame_set_note; assumption.
      * exists lines. split; assumption.
    + rewrite (setNote_absent s lines id note Hh Hw). exists lines. split; assumption.
Qed.

Lemma run_keeps_tame (cs : list call) (s : state) : tame s → tame (run cs s).
Proof.
  revert s. induction cs as [|c r IH]; intros s Hs; simpl; [exact Hs|].
  apply IH, step_keeps_tame, Hs.
Qed.

Lemma markup_number_or_null (v : value) : number_or_null v → markup (ToString v) = [].
Proof. intros [->|[n ->]]; [reflexivity | apply markup_NumberToString]. Qed.

Lemma row_has_bare_markup (o : list (string * value)) :
  markup (ToString (field o "qty")) = [] → markup (innerHTML (row_of o)) = bare_markup.
Proof.
  intros Hq. unfold bare_markup, row_of. cbn [innerHTML]. unfold row_html. simpl get.
  cbv iota beta. cbn [String.concat]. unfold attr.
  rewrite !markup_app, !markup_escapeHtml, !markup_escapeAttr, !markup_toFixed2, Hq.
  reflexivity.
Qed.

Lemma rows_of_the_cart_have_bare_markup (cs : list call) :
  ∃ lines, holds (run cs fresh) lines ∧
           Forall (λ o, markup (innerHTML (row_of o)) = bare_markup) lines.
Proof.
  destruct (run_keeps_tame cs fresh) as (lines & Hh & Hf).
  { exists []. split; [reflexivity | constructor]. }
  exists lines. split; [exact Hh|].
  apply List.Forall_forall. intros o Ho.
  apply row_has_bare_markup, markup_number_or_null.
  exact (proj1 (List.Forall_forall _ _) Hf o Ho).
Qed.


End Reachable.


(** ** The fetch listener of the service worker *)
Section Offline.
Import ServiceWorker.
Context {response : Type}.
Variable caches_match : request → option response.
Variable fetch : request → result response.

(** C6. A request that is not a GET is left alone: [respondWith] is not
    called and nothing is asked of the cache or the network.  A GET with a
    cached entry is answered with that entry and the network is not asked.
    A GET without one is fetched from the network; the answer is the
    response fetched, and when the fetch fails it is the cached entry,
    which is absent. *)
Theorem fetch_listener_is_cache_first (req : request) :
  (method req ≠ "GET" →
     on_fetch caches_match fetch req = {| respondWith := None; calls := [] |}) ∧
  (method req = "GET" → ∀ r, caches_match req = Some r →
     on_fetch caches_match fetch req =
       {| respondWith := Some (Some r); calls := [CachesMatch req] |}) ∧
  (method req = "GET" → caches_match req = None →
     calls (on_fetch caches_match fetch req) = [CachesMatch req; Fetch req] ∧
     (∀ r, fetch req = Ok r →
           respondWith (on_fetch caches_match fetch req) = Some (Some r)) ∧
     (∀ e, fetch req = Throw e →
           respondWith (on_fetch caches_match fetch req) = Some (caches_match req))).
Proof.
  unfold on_fetch. split; [|split].
  - intros Hm. destruct (String.eqb_spec (method req) "GET"); [contradiction | reflexivity].
  - intros Hm r Hr. rewrite Hm, Hr. reflexivity.
  - intros Hm Hc. rewrite Hm, Hc. simpl. split; [reflexivity|].
    split; intros x Hx; rewrite Hx; reflexivity.
Qed.
End Offline.

(** ** Confirming a payment *)
Section Payment.
Import Staff StaffSpec.
Variable post : string → response + exn.

Lemma button_not_badge (orderId : value) : button orderId ≠ badge orderId.
Proof. unfold button, badge. discriminate. Qed.

Lemma try_block_failure orderId btn p msg :
  failure (post (path orderId)) = Some msg →
  ∃ err, try_block post orderId btn p = (Some err, sent "POST" (path orderId) p) ∧
         shown err = msg.
Proof.
  unfold failure, try_block. fold (path orderId).
  destruct (post (path orderId)) as [res|err].
  - destruct (ok res); [discriminate|]. simpl. intros [= <-].
    destruct (text res) as [t|err]; eexists; (split; [reflexivity|]); [|reflexivity].
    unfold shown, Error; cbn [message description].
    destruct (String.eqb t EmptyString) eqn:E; [reflexivity|]. rewrite E. reflexivity.
  - intros [= <-]. eexists; split; reflexivity.
Qed.

Lemma try_block_success orderId btn p :
  failure (post (path orderId)) = None →
  try_block post orderId btn p =
    (None, with_document (alter paid_button btn)
             (with_document (alter paid_badge (badge orderId))
                (sent "POST" (path orderId) p))).
Proof.
  unfold failure, try_block. fold (path orderId) (badge orderId).
  destruct (post (path orderId)) as [res|err]; [|discriminate].
  destruct (ok res); [reflexivity | discriminate].
Qed.

(** C7, amended.  When the dialog is declined nothing happens.  When it
    is accepted the [POST] is sent.  If it fails or the response is outside
    200-299, one alert shows the message, the badge is left as it was, and
    the button, if there is one, is enabled again with the text it had
    before, or with [confirm payment] if it had none.  If the response is
    within 200-299 there is no alert, the badge shows [paid] and the
    button, disabled, shows its paid text. *)
Theorem confirmPayment_outcomes (orderId : value) (p : page) :
  confirmPayment false post orderId p = p ∧
  (∀ msg, failure (post (path orderId)) = Some msg →
     let p' := confirmPayment true post orderId p in
     alerts p' = (alerts p ++ ["เชื่อมต่อไม่สำเร็จ: " +:+ msg])%list ∧
     requests p' = (requests p ++ [("POST", path orderId)])%list ∧
     document p' !! badge orderId = document p !! badge orderId ∧
     document p' !! button orderId =
       (λ el, {| textContent := if String.eqb (textContent el) EmptyString
                                then "confirm payment" else textContent el;
                 classList := classList el; disabled := false;
                 oldText := Some (textContent el) |}) <$> document p !! button orderId) ∧
  (failure (post (path orderId)) = None →
     let p' := confirmPayment true post orderId p in
     alerts p' = alerts p ∧
     requests p' = (requests p ++ [("POST", path orderId)])%list ∧
     document p' !! badge orderId = paid_badge <$> document p !! badge orderId ∧
     document p' !! button orderId =
       (λ el, {| textContent := "Paid ✅";
                 classList := class_add "btn-secondary"
                                (class_remove "btn-success" (classList el));
                 disabled := true; oldText := Some (textContent el) |})
         <$> document p !! button orderId).
Proof.
  split; [reflexivity|]. split.
  - intros msg Hf p'. subst p'. unfold confirmPayment. cbn [negb].
    fold (button orderId).
    destruct (try_block_failure orderId (button orderId)
                (with_document (alter busy (button orderId)) p) msg Hf) as (err & -> & <-).
    cbn [alerts requests document with_document alert sent].
    split; [reflexivity|]. split; [reflexivity|]. split.
    + rewrite !lookup_alter_ne by apply button_not_badge. reflexivity.
    + rewrite !lookup_alter_eq. destruct (document p !! button orderId) as [el|]; reflexivity.
  - intros Hf p'. subst p'. unfold confirmPayment. cbn [negb].
    fold (button orderId). rewrite (try_block_success _ _ _ Hf).
    cbn [alerts requests document with_document alert sent].
    split; [reflexivity|]. split; [reflexivity|]. split.
    + rewrite lookup_alter_ne by apply button_not_badge. rewrite lookup_alter_eq.
      rewrite lookup_alter_ne by apply button_not_badge. reflexivity.
    + rewrite lookup_alter_eq. rewrite lookup_alter_ne by (apply not_eq_sym, button_not_badge).
      rewrite lookup_alter_eq. destruct (document p !! button orderId) as [el|]; reflexivity.
Qed.

(** C7 as stated fails on a button without text: the server answers 500,
    and the button ends with the text [confirm payment], which it never
    had. *)
Lemma empty_label_is_not_restored :
  failure (refuses (path (VNum (int 7)))) = Some "payment not found" ∧
  textContent <$> document unlabelled !! "btn-pay-7" = Some EmptyString ∧
  textContent <$> document (confirmPayment true refuses (VNum (int 7)) unlabelled) !! "btn-pay-7"
    = Some "confirm payment".
Proof. repeat split; vm_compute; reflexivity. Qed.

End Payment.

Import PageSpec.

(** ** A stored datum that is no array *)
Section NoArray.

Lemma loaded_json (s : state) (j : json) : entry s = Some (JSON j) → loaded s = of_json j.
Proof. intros H. unfold loaded. rewrite H. reflexivity. Qed.

Lemma elements_no_array (j : json) : array j = false → elements (of_json j) = Throw TypeError.
Proof. destruct j; simpl; intros H; try reflexivity; discriminate. Qed.

(** X6. When the string stored under the cart's key is JSON but no array,
    [getLines()] returns the datum as it is, and [total], [count], [add],
    [remove], [setQty] and [setNote] throw a [TypeError] and leave the
    state as it was; [clear()] returns and leaves an empty cart. *)
Theorem entry_that_is_no_array (s : state) (j : json) :
  entry s = Some (JSON j) → array j = false →
  getLines s = (Ok (of_json j), s) ∧
  total s = (Throw TypeError, s) ∧
  count s = (Throw TypeError, s) ∧
  (∀ id name price, add id name price s = (Throw TypeError, s)) ∧
  (∀ id, remove id s = (Throw TypeError, s)) ∧
  (∀ id qty, setQty id qty s = (Throw TypeError, s)) ∧
  (∀ id note, setNote id note s = (Throw TypeError, s)) ∧
  (∃ s', clear s = (Ok tt, s') ∧ getLines s' = (Ok (VArr []), s')).
Proof.
  intros He Ha. pose proof (loaded_json s j He) as Hl.
  pose proof (elements_no_array j Ha) as Hn.
  assert (Hthrow : ∀ (A : Type) (f : list value → M A),
            (lines ← _load; a ← lift (elements lines); f a) s = (Throw TypeError, s)).
  { intros A f. unfold mbind, M_bind. rewrite load_eq, Hl. unfold lift. rewrite Hn.
    reflexivity. }
  split; [unfold getLines; rewrite load_eq, Hl; reflexivity|].
  split; [apply Hthrow|]. split; [apply Hthrow|].
  split; [intros; apply Hthrow|]. split; [intros; apply Hthrow|].
  split; [intros; apply Hthrow|]. split; [intros; apply Hthrow|].
  destruct (syncUI_returns (emptied s) [] (loaded_emptied s) (List.Forall_nil _))
    as (s' & Hs & Hk & Hl').
  exists s'. split; [exact Hs|].
  apply empty_aggregates. rewrite (loaded_store _ _ Hk Hl'). apply loaded_emptied.
Qed.

Lemma entry_that_is_no_array_witness :
  add (VStr "A") (VStr "Pad Thai") (VNum (int 60)) scalar_entry = (Throw TypeError, scalar_entry).
Proof.
  destruct (entry_that_is_no_array scalar_entry (JObj [])) as (_ & _ & _ & A & _).
  { vm_compute. reflexivity. }
  { reflexivity. }
  apply A.
Defined.

End NoArray.

(** ** Notes that are no strings *)
Section Notes.



End Notes.

(** ** The entities of [escapeHtml] *)
Section Entities.

Lemma replace_quot_app (a b : string) :
  replace_quot (a +:+ b) = replace_quot a +:+ replace_quot b.
Proof.
  induction a as [|c a IH]; simpl; [reflexivity|].
  rewrite IH. destruct (code c =? 34); reflexivity.
Qed.

Lemma replace_quot_entity (c : ascii) : replace_quot (entity c) = entity c.
Proof.
  unfold entity.
  destruct (Z.eqb_spec (code c) 38); [reflexivity|].
  destruct (Z.eqb_spec (code c) 60); [reflexivity|].
  destruct (Z.eqb_spec (code c) 62); [reflexivity|].
  destruct (Z.eqb_spec (code c) 34) as [|H]; [reflexivity|].
  destruct (Z.eqb_spec (code c) 39); [reflexivity|].
  simpl. apply Z.eqb_neq in H. rewrite H. reflexivity.
Qed.

Lemma replace_quot_replace_special (s : string) :
  replace_quot (replace_special s) = replace_special s.
Proof.
  induction s as [|c s IH]; simpl; [reflexivity|].
  rewrite replace_quot_app, replace_quot_entity, IH. reflexivity.
Qed.

Lemma escapeHtml_string (a : string) : escapeHtml (VStr a) = replace_special a.
Proof. unfold escapeHtml, or. destruct a; reflexivity. Qed.

Lemma code_inj (c c' : ascii) : code c = code c' → c = c'.
Proof.
  unfold code. intros H. apply N2Z.inj in H.
  rewrite <- (ascii_N_embedding c), <- (ascii_N_embedding c'), H. reflexivity.
Qed.

Lemma append_inv_head (a x y : string) : a +:+ x = a +:+ y → x = y.
Proof. induction a as [|c a IH]; simpl; [tauto|]. intros [= H]. exact (IH H). Qed.

Lemma entity_cases (c : ascii) :
  (code c = 38 ∧ entity c = "&amp;") ∨ (code c = 60 ∧ entity c = "&lt;") ∨
  (code c = 62 ∧ entity c = "&gt;") ∨ (code c = 34 ∧ entity c = "&quot;") ∨
  (code c = 39 ∧ entity c = "&#039;") ∨ (code c ≠ 38 ∧ entity c = str c).
Proof.
  unfold entity.
  destruct (Z.eqb_spec (code c) 38); [tauto|].
  destruct (Z.eqb_spec (code c) 60); [tauto|].
  destruct (Z.eqb_spec (code c) 62); [tauto|].
  destruct (Z.eqb_spec (code c) 34); [tauto|].
  destruct (Z.eqb_spec (code c) 39); tauto.
Qed.

Lemma replace_special_inj (a b : string) : replace_special a = replace_special b → a = b.
Proof.
  revert b. induction a as [|c a IH]; intros [|c' b]; simpl.
  - reflexivity.
  - destruct (entity_cases c') as [[_ ->]|[[_ ->]|[[_ ->]|[[_ ->]|[[_ ->]|[_ ->]]]]]];
      discriminate.
  - destruct (entity_cases c) as [[_ ->]|[[_ ->]|[[_ ->]|[[_ ->]|[[_ ->]|[_ ->]]]]]];
      discriminate.
  - intros H.
    assert (c = c' ∧ replace_special a = replace_special b) as [-> Hr].
    { revert H.
      destruct (entity_cases c) as [[E ->]|[[E ->]|[[E ->]|[[E ->]|[[E ->]|[E ->]]]]]];
        destruct (entity_cases c') as [[E' ->]|[[E' ->]|[[E' ->]|[[E' ->]|[[E' ->]|[E' ->]]]]]];
        simpl; intros H; try discriminate H;
        first [ injection H as -> H; split; [reflexivity | exact H]
              | injection H as H; split; [apply code_inj; congruence | exact H]
              | injection H as -> _; exfalso; apply E; reflexivity
              | injection H as <- _; exfalso; apply E'; reflexivity ]. }
    f_equal. exact (IH b Hr).
Qed.

Lemma replace_special_plain (s : string) : plain_text s = true → replace_special s = s.
Proof.
  induction s as [|c s IH]; cbn [plain_text replace_special]; [reflexivity|].
  intros H. apply andb_true_iff in H as [Hc Hs]. rewrite (IH Hs). unfold entity.
  apply negb_true_iff in Hc. repeat (apply orb_false_iff in Hc as [Hc ?]).
  repeat match goal with H : (_ =? _) = false |- _ => rewrite H; clear H end.
  reflexivity.
Qed.

(** X8. The second [replace] of [escapeAttr] never changes anything:
    [escapeAttr] returns what [escapeHtml] returns, whatever the value.
    On a falsy value ([undefined], [null], [false], 0, [NaN], the empty
    string) both return the empty string, and a string without ampersand,
    angle bracket, double quote and apostrophe comes back as it is. *)
Theorem escapeAttr_is_escapeHtml :
  (∀ v, escapeAttr v = escapeHtml v) ∧
  (∀ v, truthy v = false → escapeHtml v = EmptyString ∧ escapeAttr v = EmptyString) ∧
  (∀ s, plain_text s = true → escapeHtml (VStr s) = s).
Proof.
  split; [|split].
  - intros v. apply replace_quot_replace_special.
  - intros v Hv. unfold escapeAttr, escapeHtml, or. rewrite Hv. split; reflexivity.
  - intros s Hs. rewrite escapeHtml_string. apply replace_special_plain, Hs.
Qed.

(** X9. [escapeHtml] loses nothing: two different strings have different
    escaped texts. *)
Theorem escapeHtml_tells_texts_apart (a b : string) :
  a ≠ b → escapeHtml (VStr a) ≠ escapeHtml (VStr b).
Proof.
  intros Hne H. rewrite !escapeHtml_string in H. exact (Hne (replace_special_inj a b H)).
Qed.

Lemma escapeHtml_tells_texts_apart_witness :
  escapeHtml (VStr "a<b") ≠ escapeHtml (VStr "a&lt;b").
Proof. apply escapeHtml_tells_texts_apart. discriminate. Defined.

End Entities.

(** ** The elements of the page an operation writes *)
Section Page.

Lemma changes_only_ret {A : Type} ids (a : A) : changes_only ids (mret a).
Proof. intros s k. split; [reflexivity | intros _; reflexivity]. Qed.

Lemma changes_only_lift {A : Type} ids (r : result A) : changes_only ids (lift r).
Proof. intros s k. split; [reflexivity | intros _; reflexivity]. Qed.

Lemma changes_only_bind {A B : Type} ids (m : M A) (f : A → M B) :
  changes_only ids m → (∀ a, changes_only ids (f a)) → changes_only ids (m ≫= f).
Proof.
  intros Hm Hf s k. unfold mbind, M_bind.
  specialize (Hm s k). destruct (m s) as [[a|e] s']; simpl in *; [|exact Hm].
  destruct (Hf a s' k) as [H1 H2]. destruct Hm as [H3 H4]. split.
  - rewrite H1. exact H3.
  - intros Hk. rewrite (H2 Hk). exact (H4 Hk).
Qed.

Lemma changes_only_when ids (b : bool) (m : M unit) :
  changes_only ids m → changes_only ids (when b m).
Proof. destruct b; simpl; auto using changes_only_ret. Qed.

Lemma changes_only_if {A : Type} ids (b : bool) (m1 m2 : M A) :
  changes_only ids m1 → changes_only ids m2 → changes_only ids (if b then m1 else m2).
Proof. destruct b; auto. Qed.

Lemma changes_only_more {A : Type} ids ids' (m : M A) :
  ids ⊆ ids' → changes_only ids m → changes_only ids' m.
Proof.
  intros Hsub Hm s k. destruct (Hm s k) as [H1 H2]. split; [exact H1|].
  intros Hk. apply H2. intros Hin. apply Hk, Hsub, Hin.
Qed.

Lemma is_Some_alter {A : Type} (f : A → A) (k k' : string) (d : gmap string A) :
  is_Some (alter f k d !! k') ↔ is_Some (d !! k').
Proof.
  destruct (decide (k' = k)) as [->|Hne].
  - rewrite lookup_alter_eq. apply fmap_is_Some.
  - rewrite lookup_alter_ne by congruence. reflexivity.
Qed.

Lemma changes_only_alter {A : Type} ids (id : string) (f : element → element) (m : M A) :
  id ∈ ids → (∀ s, m s = (fst (m s), with_document (alter f id) s)) → changes_only ids m.
Proof.
  intros Hin Hm s k. rewrite (Hm s). cbn [snd document with_document]. split.
  - apply is_Some_alter.
  - intros Hk. apply lookup_alter_ne. intros ->. exact (Hk Hin).
Qed.

Lemma changes_only_hasElement ids (id : string) : changes_only ids (hasElement id).
Proof. intros s k. split; [reflexivity | intros _; reflexivity]. Qed.

Lemma changes_only_set_textContent ids (id t : string) :
  id ∈ ids → changes_only ids (set_textContent id t).
Proof. intros Hin. eapply changes_only_alter; [exact Hin|]. intros s. reflexivity. Qed.

Lemma changes_only_set_display ids (id d : string) :
  id ∈ ids → changes_only ids (set_display id d).
Proof. intros Hin. eapply changes_only_alter; [exact Hin|]. intros s. reflexivity. Qed.

Lemma changes_only_appendChild ids (id : string) (r : row) :
  id ∈ ids → changes_only ids (appendChild id r).
Proof. intros Hin. eapply changes_only_alter; [exact Hin|]. intros s. reflexivity. Qed.

Lemma changes_only_forEach ids (f : value → M unit) (a : list value) :
  (∀ x, changes_only ids (f x)) → changes_only ids (forEach f a).
Proof.
  intros Hf. induction a as [|x r IH]; simpl.
  - apply changes_only_ret.
  - apply changes_only_bind; auto.
Qed.

Lemma changes_only_load ids : changes_only ids _load.
Proof. intros s k. rewrite load_eq. split; [reflexivity | intros _; reflexivity]. Qed.

Lemma counters_among : counters ⊆ (counters ++ checkout)%list.
Proof. intros k Hk. apply elem_of_app. left. exact Hk. Qed.

Lemma checkout_among : checkout ⊆ (counters ++ checkout)%list.
Proof. intros k Hk. apply elem_of_app. right. exact Hk. Qed.

Lemma not_a_counter (k : string) : k ≠ "cartCount" → k ≠ "cartTotal" → k ∉ counters.
Proof.
  intros H1 H2 Hin. unfold counters in Hin.
  apply elem_of_cons in Hin as [Hin|Hin]; [contradiction|].
  apply elem_of_cons in Hin as [Hin|Hin]; [contradiction|]. inversion Hin.
Qed.

End Page.

Ltac listed :=
  repeat first [apply list_elem_of_here | apply list_elem_of_further].

Ltac page_frame lemmas :=
  repeat first
    [ simple apply changes_only_ret
    | simple apply changes_only_lift
    | simple apply changes_only_load
    | simple apply changes_only_hasElement
    | simple apply changes_only_set_textContent; solve [listed]
    | simple apply changes_only_set_display; solve [listed]
    | simple apply changes_only_appendChild; solve [listed]
    | simple apply changes_only_when
    | lemmas
    | simple apply changes_only_bind; [|intros ?]
    | simple apply changes_only_if
    | simple apply changes_only_forEach; intros ?
    | match goal with
      | |- changes_only _ (match ?x with _ => _ end) => destruct x as [[? ?]|]
      end ].

Section Touched.

Lemma changes_only_count ids : changes_only ids count.
Proof. unfold count. page_frame fail. Qed.

Lemma changes_only_total ids : changes_only ids total.
Proof. unfold total. page_frame fail. Qed.

Lemma changes_only_syncUI : changes_only counters syncUI.
Proof.
  unfold syncUI, counters.
  page_frame ltac:(first [simple apply changes_only_count | simple apply changes_only_total]).
Qed.

Lemma changes_only_save (v : value) : changes_only counters (_save v).
Proof. intros s k. rewrite save_eq. exact (changes_only_syncUI (saved v s) k). Qed.

Lemma changes_only_clear : changes_only counters clear.
Proof.
  intros s k. change (clear s) with (syncUI (emptied s)).
  exact (changes_only_syncUI (emptied s) k).
Qed.

Lemma changes_only_init (t c : value) : changes_only counters (init t c).
Proof.
  intros s k.
  change (init t c s) with
    (syncUI (with_key (VStr ("cart:" +:+ ToString t +:+ ":" +:+
                             ToString (or c (VStr "anon")))) s)).
  exact (changes_only_syncUI _ k).
Qed.

Lemma changes_only_add (id name price : value) : changes_only counters (add id name price).
Proof. unfold add. page_frame ltac:(simple apply changes_only_save). Qed.

Lemma changes_only_remove (id : value) : changes_only counters (remove id).
Proof. unfold remove. page_frame ltac:(simple apply changes_only_save). Qed.

Lemma changes_only_setQty (id q : value) : changes_only counters (setQty id q).
Proof. unfold setQty. page_frame ltac:(simple apply changes_only_save). Qed.

Lemma changes_only_setNote (id n : value) : changes_only counters (setNote id n).
Proof. unfold setNote. page_frame ltac:(simple apply changes_only_save). Qed.

Lemma changes_only_append_row (line : value) : changes_only checkout (append_row line).
Proof. unfold append_row, checkout. page_frame fail. Qed.

Lemma changes_only_renderCheckout : changes_only checkout renderCheckout.
Proof.
  unfold renderCheckout, clear_innerHTML.
  page_frame
    ltac:(first [ simple apply changes_only_total
                | simple apply changes_only_append_row
                | simple apply (changes_only_set_textContent checkout);
                  unfold checkout; solve [listed]
                | simple apply (changes_only_set_display checkout);
                  unfold checkout; solve [listed] ]).
Qed.

Lemma changes_only_step (c : call) : changes_only counters (step c).
Proof.
  destruct c; simpl; [apply changes_only_add | apply changes_only_remove
                     | apply changes_only_setQty | apply changes_only_setNote].
Qed.

(** X10. No operation adds or removes an element of the page.  [getLines],
    [total] and [count] leave every element as it is; [syncUI], [clear],
    [init], [add], [remove], [setQty] and [setNote] change at most the
    elements [cartCount] and [cartTotal]; [renderCheckout] at most
    [sumTotal], [cartList] and [cartEmpty]; the listeners of a row at most
    the elements of the calls they make. *)
Theorem operations_change_their_elements_only :
  (changes_only [] getLines ∧ changes_only [] total ∧ changes_only [] count) ∧
  (changes_only counters syncUI ∧ changes_only counters clear ∧
   ∀ t c, changes_only counters (init t c)) ∧
  (∀ c, changes_only counters (step c)) ∧
  changes_only checkout renderCheckout ∧
  (∀ id, changes_only (counters ++ checkout) (on_delete id)) ∧
  (∀ id v, changes_only (counters ++ checkout) (on_qty_input id v)) ∧
  (∀ id v, changes_only counters (on_qty_blur id v)) ∧
  (∀ id v, changes_only counters (on_note_input id v)).
Proof.
  split; [split; [apply changes_only_load
                 | split; [apply changes_only_total | apply changes_only_count]]|].
  split; [split; [apply changes_only_syncUI
                 | split; [apply changes_only_clear | apply changes_only_init]]|].
  split; [apply changes_only_step|]. split; [apply changes_only_renderCheckout|].
  split; [|split; [|split]].
  - intros id. apply changes_only_bind.
    + eapply changes_only_more; [|apply changes_only_remove]. apply counters_among.
    + intros _. eapply changes_only_more; [|apply changes_only_renderCheckout].
      apply checkout_among.
  - intros id v. apply changes_only_bind.
    + eapply changes_only_more; [|apply changes_only_setQty]. apply counters_among.
    + intros _. eapply changes_only_more; [|apply changes_only_renderCheckout].
      apply checkout_among.
  - intros id v. apply changes_only_setQty.
  - intros id v. apply changes_only_setNote.
Qed.

End Touched.

(** ** The checkout page after [renderCheckout] *)
Section Checkout.

Lemma with_document_id (s : state) (f : gmap string element → gmap string element) :
  f (document s) = document s → with_document f s = s.
Proof.
  intros H. destruct s as [k st d]. unfold with_document. simpl in *. rewrite H. reflexivity.
Qed.

Lemma alter_twice (f g : element → element) (k : string) (d : gmap string element) :
  alter f k (alter g k d) = alter (λ el, f (g el)) k d.
Proof.
  apply map_eq. intros i. destruct (decide (i = k)) as [->|Hne].
  - rewrite !lookup_alter_eq. destruct (d !! k); reflexivity.
  - rewrite !lookup_alter_ne by congruence. reflexivity.
Qed.

Lemma present_alter (f : element → element) (k k' : string) (d : gmap string element) :
  bool_decide (is_Some (alter f k d !! k')) = bool_decide (is_Some (d !! k')).
Proof. apply bool_decide_ext, is_Some_alter. Qed.

Lemma forEach_append_rows (lines : list (list (string * value))) (s : state) :
  forEach append_row (List.map VObj lines) s =
  (Ok tt, with_document
            (alter (λ el, {| textContent := textContent el; display := display el;
                             rows := rows el ++ List.map row_of lines |}) "cartList") s).
Proof.
  revert s. induction lines as [|o r IH]; intros s; cbn [List.map forEach].
  - unfold mret, M_ret. f_equal. symmetry. apply with_document_id.
    apply alter_id. intros [t d rs] _. simpl. rewrite app_nil_r. reflexivity.
  - unfold mbind, M_bind. rewrite append_row_object, IH. f_equal.
    unfold with_document. cbn [key localStorage document]. f_equal.
    rewrite alter_twice. apply alter_ext. intros [t d rs] _. simpl.
    rewrite <- app_assoc. reflexivity.
Qed.

Lemma total_same_store (s s' : state) (t : num) :
  key s' = key s → localStorage s' = localStorage s →
  total s = (Ok t, s) → total s' = (Ok t, s').
Proof.
  intros Hk Hl. unfold total, mbind, M_bind. rewrite !load_eq.
  rewrite (loaded_store s s' Hk Hl).
  unfold lift. destruct (elements (loaded s)) as [a|e]; [|discriminate].
  destruct (reduce _ a (int 0)) as [x|e]; [|discriminate]. intros [= ->]. reflexivity.
Qed.

Lemma count_same_store (s s' : state) (n : num) :
  key s' = key s → localStorage s' = localStorage s →
  count s = (Ok n, s) → count s' = (Ok n, s').
Proof.
  intros Hk Hl. unfold count, mbind, M_bind. rewrite !load_eq.
  rewrite (loaded_store s s' Hk Hl).
  unfold lift. destruct (elements (loaded s)) as [a|e]; [|discriminate].
  destruct (reduce _ a (int 0)) as [x|e]; [|discriminate]. intros [= ->]. reflexivity.
Qed.

Lemma holds_same_store (s s' : state) (lines : list (list (string * value))) :
  key s' = key s → localStorage s' = localStorage s → holds s lines → holds s' lines.
Proof. intros Hk Hl Hh. unfold holds. rewrite (loaded_store s s' Hk Hl). exact Hh. Qed.

Lemma total_on_lines (s : state) (lines : list (list (string * value))) :
  holds s lines → ∃ t, total s = (Ok t, s).
Proof. intros Hh. exact (total_returns s _ Hh (objects_not_nullish _)). Qed.

(** The first statement of [renderCheckout] on the page: the sum is
    written when its element is there. *)
Lemma sum_shown (s : state) (t : num) :
  total s = (Ok t, s) →
  when (bool_decide (is_Some (document s !! "sumTotal")))
    (x ← total; set_textContent "sumTotal" (toFixed2 x)) s =
  (Ok tt, with_document
            (alter (λ el, {| textContent := toFixed2 t; display := display el; rows := [] |})
               "sumTotal") s).
Proof.
  intros Ht. case_bool_decide as Hs; cbn [when].
  - unfold mbind, M_bind. rewrite Ht. reflexivity.
  - unfold mret, M_ret. f_equal. symmetry. apply with_document_id.
    apply alter_id. intros el Hel. destruct Hs. rewrite Hel. eauto.
Qed.

Lemma length_of_lines (lines : list (list (string * value))) :
  ∃ n, length_of (VArr (List.map VObj lines)) = Ok n ∧
       truthy n = match lines with [] => false | _ => true end.
Proof.
  destruct lines as [|o r].
  - eexists. split; reflexivity.
  - destruct (length_of_nonempty (VObj o) (List.map VObj r)) as (n & Hn & Ht). eauto.
Qed.

(** [renderCheckout] on a cart of lines, as one change of the page. *)
Lemma renderCheckout_on_lines (s : state) (lines : list (list (string * value))) (t : num) :
  holds s lines → total s = (Ok t, s) →
  let d1 := alter (λ el, {| textContent := toFixed2 t; display := display el; rows := [] |})
              "sumTotal" (document s) in
  renderCheckout s =
  (Ok tt,
   with_document
     (λ _, if bool_decide (is_Some (document s !! "cartList")) &&
              bool_decide (is_Some (document s !! "cartEmpty"))
           then
             alter (λ el, {| textContent := textContent el; display := display el;
                             rows := rows el ++ List.map row_of lines |}) "cartList"
               (alter (λ el, {| textContent := textContent el;
                                display := match lines with [] => EmptyString | _ => "none" end;
                                rows := rows el |}) "cartEmpty"
                  (alter (λ el, {| textContent := EmptyString; display := display el;
                                   rows := [] |}) "cartList" d1))
           else d1) s).
Proof.
  intros Hh Ht d1. unfold renderCheckout.
  unfold mbind at 1 2 3 4 5, M_bind at 1 2 3 4 5, hasElement. rewrite load_eq, Hh.
  rewrite (sum_shown s t Ht).
  destruct (bool_decide (is_Some (document s !! "cartList")));
    destruct (bool_decide (is_Some (document s !! "cartEmpty"))); cbn [negb orb andb];
    try reflexivity.
  destruct (length_of_lines lines) as (n & Hn & Hn').
  unfold mbind at 1 2, M_bind at 1 2, clear_innerHTML, set_textContent, lift.
  rewrite Hn, Hn'. destruct lines as [|o r]; cbn [negb].
  - unfold set_display. f_equal. unfold with_document. cbn [key localStorage document].
    f_equal. symmetry. apply alter_id. intros [x y z] _. simpl. rewrite app_nil_r. reflexivity.
  - unfold mbind, M_bind, set_display, lift. cbn [elements].
    change (VObj o :: List.map VObj r) with (List.map VObj (o :: r)).
    rewrite forEach_append_rows. reflexivity.
Qed.

Lemma renderCheckout_list (s : state) (lines : list (list (string * value))) (l e : element) :
  holds s lines → document s !! "cartList" = Some l → document s !! "cartEmpty" = Some e →
  ∃ s', renderCheckout s = (Ok tt, s') ∧
        key s' = key s ∧ localStorage s' = localStorage s ∧
        document s' !! "cartList" =
          Some {| textContent := EmptyString; display := display l;
                  rows := List.map row_of lines |} ∧
        document s' !! "cartEmpty" =
          Some {| textContent := textContent e;
                  display := match lines with [] => EmptyString | _ => "none" end;
                  rows := rows e |}.
Proof.
  intros Hh Hl He. destruct (total_on_lines s lines Hh) as [t Ht].
  eexists. split; [exact (renderCheckout_on_lines s lines t Hh Ht)|].
  cbn [key localStorage document with_document].
  split; [reflexivity|]. split; [reflexivity|].
  rewrite (bool_decide_eq_true_2 _ (mk_is_Some _ _ Hl)).
  rewrite (bool_decide_eq_true_2 _ (mk_is_Some _ _ He)). cbn [andb]. split.
  - rewrite lookup_alter_eq. rewrite lookup_alter_ne by discriminate.
    rewrite lookup_alter_eq. rewrite lookup_alter_ne by discriminate. rewrite Hl. reflexivity.
  - rewrite lookup_alter_ne by discriminate. rewrite lookup_alter_eq.
    rewrite !lookup_alter_ne by discriminate. rewrite He. reflexivity.
Qed.





End Checkout.

(** ** The counters of the page *)
Section Counters.

Lemma count_state (s : state) : snd (count s) = s.
Proof.
  unfold count, mbind, M_bind. rewrite load_eq. unfold lift.
  destruct (elements (loaded s)) as [a|e]; [|reflexivity].
  destruct (reduce _ a (int 0)); reflexivity.
Qed.

Lemma total_state (s : state) : snd (total s) = s.
Proof.
  unfold total, mbind, M_bind. rewrite load_eq. unfold lift.
  destruct (elements (loaded s)) as [a|e]; [|reflexivity].
  destruct (reduce _ a (int 0)); reflexivity.
Qed.

(** One statement of [syncUI]: the counter is written when it is there. *)
Lemma counter_written (b : bool) (m : M num) (show : num → string) (id : string)
  (s s1 : state) :
  snd (m s) = s → (b = true ↔ is_Some (document s !! id)) →
  when b (n ← m; set_textContent id (show n)) s = (Ok tt, s1) →
  (∀ el, document s !! id = Some el →
     ∃ n, m s = (Ok n, s) ∧
          s1 = with_document (alter (λ el, {| textContent := show n; display := display el;
                                              rows := [] |}) id) s) ∧
  (document s !! id = None → s1 = s).
Proof.
  intros Hm Hb. destruct b; cbn [when].
  - unfold mbind, M_bind. destruct (m s) as [[n|e] s0]; simpl in Hm; subst s0; [|discriminate].
    intros [= <-]. split.
    + intros el _. exists n. split; reflexivity.
    + intros H. destruct (proj1 Hb eq_refl) as [el Hel]. congruence.
  - intros [= <-]. split; [|reflexivity]. intros el Hel.
    assert (false = true) by (apply Hb; eauto). discriminate.
Qed.

Lemma syncUI_eq (s : state) :
  syncUI s =
  (when (bool_decide (is_Some (document s !! "cartCount")))
     (n ← count; set_textContent "cartCount" (NumberToString n));;
   when (bool_decide (is_Some (document s !! "cartTotal")))
     (x ← total; set_textContent "cartTotal" (toFixed2 x))) s.
Proof. reflexivity. Qed.

Lemma syncUI_in_sync (s s' : state) : syncUI s = (Ok tt, s') → in_sync s'.
Proof.
  rewrite syncUI_eq. unfold mbind at 1, M_bind at 1.
  destruct (when (bool_decide (is_Some (document s !! "cartCount"))) _ s) as [[[]|e] s1] eqn:E1;
    [|discriminate].
  intros E2.
  destruct (counter_written _ count NumberToString "cartCount" s s1 (count_state s)
              (bool_decide_eq_true _) E1) as [C1 C0].
  assert (Hk : key s1 = key s ∧ localStorage s1 = localStorage s ∧
               document s1 !! "cartTotal" = document s !! "cartTotal").
  { destruct (document s !! "cartCount") as [el|].
    - destruct (C1 el eq_refl) as (n & _ & ->). split; [reflexivity|]. split; [reflexivity|].
      cbn [document with_document]. apply lookup_alter_ne. discriminate.
    - rewrite (C0 eq_refl). repeat split; reflexivity. }
  destruct Hk as (Hk & Hl & Hd).
  assert (Hb : bool_decide (is_Some (document s !! "cartTotal")) = true ↔
               is_Some (document s1 !! "cartTotal")).
  { rewrite Hd. apply bool_decide_eq_true. }
  destruct (counter_written _ total toFixed2 "cartTotal" s1 s' (total_state s1) Hb E2)
    as [T1 T0].
  assert (Hk' : key s' = key s1 ∧ localStorage s' = localStorage s1 ∧
                document s' !! "cartCount" = document s1 !! "cartCount").
  { destruct (document s1 !! "cartTotal") as [el|].
    - destruct (T1 el eq_refl) as (n & _ & ->). split; [reflexivity|]. split; [reflexivity|].
      cbn [document with_document]. apply lookup_alter_ne. discriminate.
    - rewrite (T0 eq_refl). repeat split; reflexivity. }
  destruct Hk' as (Hk' & Hl' & Hc).
  split.
  - intros el. rewrite Hc. intros Hel.
    destruct (document s !! "cartCount") as [el0|] eqn:E0.
    + destruct (C1 el0 eq_refl) as (n & Hn & ->). exists n. split.
      * apply (count_same_store s); [congruence | congruence | exact Hn].
      * cbn [document with_document] in Hel. rewrite lookup_alter_eq, E0 in Hel.
        injection Hel as <-. reflexivity.
    + rewrite (C0 eq_refl), E0 in Hel. discriminate.
  - intros el Hel.
    destruct (document s1 !! "cartTotal") as [el0|] eqn:E0.
    + destruct (T1 el0 eq_refl) as (x & Hx & ->). exists x. split.
      * apply (total_same_store s1); [reflexivity | reflexivity | exact Hx].
      * cbn [document with_document] in Hel. rewrite lookup_alter_eq, E0 in Hel.
        injection Hel as <-. reflexivity.
    + rewrite (T0 eq_refl), E0 in Hel. discriminate.
Qed.

(** What a call that returns has done: nothing, or saved lines. *)
Lemma step_saves (c : call) (s s' : state) :
  step c s = (Ok tt, s') → s' = s ∨ ∃ v, syncUI (saved v s) = (Ok tt, s').
Proof.
  destruct c as [id name price | id | id qty | id note]; cbn [step];
    unfold add, remove, setQty, setNote;
    unfold mbind at 1 2, M_bind at 1 2; rewrite load_eq; unfold lift at 1;
    (destruct (elements (loaded s)) as [a|e]; [|discriminate]);
    unfold mbind at 1, M_bind at 1, lift at 1.
  - destruct (found_line id a) as [[[i x]|]|e]; [| |discriminate].
    + unfold mbind, M_bind, lift. destruct (get x "qty"); [|discriminate].
      rewrite save_eq. eauto.
    + rewrite save_eq. eauto.
  - destruct (filter_out id a); [|discriminate]. rewrite save_eq. eauto.
  - destruct (found_line id a) as [[[i x]|]|e]; [| |discriminate].
    + rewrite save_eq. eauto.
    + intros [= <-]. left. reflexivity.
  - destruct (found_line id a) as [[[i x]|]|e]; [| |discriminate].
    + unfold mbind, M_bind, lift. destruct (slice_0_300 _); [|discriminate].
      rewrite save_eq. eauto.
    + intros [= <-]. left. reflexivity.
Qed.

Lemma in_sync_kept (s s' : state) :
  key s' = key s → localStorage s' = localStorage s →
  document s' !! "cartCount" = document s !! "cartCount" →
  document s' !! "cartTotal" = document s !! "cartTotal" →
  in_sync s → in_sync s'.
Proof.
  intros Hk Hl Hc Ht [H1 H2]. split.
  - intros el. rewrite Hc. intros Hel. destruct (H1 el Hel) as (n & Hn & Hx).
    exists n. split; [exact (count_same_store s s' n Hk Hl Hn) | exact Hx].
  - intros el. rewrite Ht. intros Hel. destruct (H2 el Hel) as (x & Hn & Hx).
    exists x. split; [exact (total_same_store s s' x Hk Hl Hn) | exact Hx].
Qed.

(** X13. Whenever [syncUI], [init] or [clear] returns, the elements
    [cartCount] and [cartTotal] that are on the page show [String(count())]
    and [total().toFixed(2)] of the cart as stored.  A call of [add],
    [remove], [setQty] or [setNote] that returns, and [renderCheckout],
    keep it so. *)
Theorem counters_show_the_cart :
  (∀ s s', syncUI s = (Ok tt, s') → in_sync s') ∧
  (∀ t c s s', init t c s = (Ok tt, s') → in_sync s') ∧
  (∀ s s', clear s = (Ok tt, s') → in_sync s') ∧
  (∀ c s s', step c s = (Ok tt, s') → in_sync s → in_sync s') ∧
  (∀ s s', renderCheckout s = (Ok tt, s') → in_sync s → in_sync s').
Proof.
  split; [exact syncUI_in_sync|]. split; [|split; [|split]].
  - intros t c s s'.
    change (init t c s) with
      (syncUI (with_key (VStr ("cart:" +:+ ToString t +:+ ":" +:+
                               ToString (or c (VStr "anon")))) s)).
    apply syncUI_in_sync.
  - intros s s'. change (clear s) with (syncUI (emptied s)). apply syncUI_in_sync.
  - intros c s s' Hs Hin. destruct (step_saves c s s' Hs) as [->|[v Hv]]; [exact Hin|].
    exact (syncUI_in_sync _ _ Hv).
  - intros s s' Hs. pose proof (store_kept_renderCheckout s) as [Hk Hl].
    pose proof (changes_only_renderCheckout s) as Ht. rewrite Hs in Hk, Hl, Ht. simpl in *.
    apply in_sync_kept; [exact Hk | exact Hl | |]; apply Ht;
      unfold checkout; intros Hin; repeat (apply elem_of_cons in Hin as [Hin|Hin];
        [discriminate|]); inversion Hin.
Qed.

End Counters.

(** ** The listeners of a row *)
Section Listeners.



End Listeners.

(** ** Carts of lines stay carts of lines *)
Section Lines.

Lemma plus_json (a b : value) : ∃ j, to_json (plus a b) = Some j.
Proof.
  unfold plus. destruct (_ || _); [eexists; reflexivity|].
  destruct (num_add (ToNumber a) (ToNumber b)); eexists; reflexivity.
Qed.

Lemma slice_json (v n : value) : slice_0_300 v = Ok n → ∃ j, to_json n = Some j.
Proof.
  destruct v; simpl; intros H; try discriminate; injection H as <-; eexists; reflexivity.
Qed.

Lemma step_on_lines (c : call) (s : state) (lines : list (list (string * value))) :
  holds s lines →
  (∃ lines', holds (snd (step c s)) lines') ∧
  (note_like c = true → fst (step c s) = Ok tt).
Proof.
  intros Hh.
  destruct c as [id name price | id | id qty | id note]; cbn [step note_like].
  - destruct (first_or_without id lines) as [(i & o & Hi)|Hw].
    + pose proof Hi as (Hl & _). rewrite (add_present_eq s lines id name price i o Hh Hi).
      destruct (plus_json (field o "qty") (VNum (int 1))) as [j Hj].
      destruct (save_field s lines i o "qty" _ j Hh Hl Hj) as (s' & -> & Hh').
      split; [eauto | reflexivity].
    + destruct (add_absent s lines id name price Hh Hw) as (s' & new & -> & _ & Hh').
      split; [eauto | reflexivity].
  - destruct (remove_filters s lines id Hh) as (s' & -> & Hh'). split; [eauto | reflexivity].
  - destruct (first_or_without id lines) as [(i & o & Hi)|Hw].
    + pose proof Hi as (Hl & _). rewrite (setQty_present s lines id qty i o Hh Hi).
      assert (∃ j, to_json (VNum (Math_max (int 1)
                 (parseInt10 (ToString (or qty (VNum (int 1))))))) = Some j) as [j Hj].
      { destruct (Math_max _ _); eexists; reflexivity. }
      destruct (save_field s lines i o "qty" _ j Hh Hl Hj) as (s' & -> & Hh').
      split; [eauto | reflexivity].
    + rewrite (setQty_absent s lines id qty Hh Hw). split; [eauto | reflexivity].
  - destruct (first_or_without id lines) as [(i & o & Hi)|Hw].
    + pose proof Hi as (Hl & _). rewrite (setNote_present_eq s lines id note i o Hh Hi).
      destruct (slice_0_300 (or note (VStr EmptyString))) as [n|e] eqn:E.
      * destruct (slice_json _ n E) as [j Hj].
        destruct (save_field s lines i o "note" n j Hh Hl Hj) as (s' & -> & Hh').
        split; [eauto | reflexivity].
      * split; [eauto|]. intros Hn. exfalso. unfold or in E.
        destruct (truthy note) eqn:Et; [|discriminate].
        destruct note; simpl in Hn, E; discriminate.
    + rewrite (setNote_absent s lines id note Hh Hw). split; [eauto | reflexivity].
Qed.

Lemma run_on_lines (cs : list call) (s : state) (lines : list (list (string * value))) :
  holds s lines → ∃ lines', holds (run cs s) lines'.
Proof.
  revert s lines. induction cs as [|c r IH]; intros s lines Hh; cbn [run]; [eauto|].
  destruct (step_on_lines c s lines Hh) as [[lines' Hh'] _]. exact (IH _ lines' Hh').
Qed.



End Lines.

(** ** Carts under different keys *)
Section Isolation.

Lemma own_step (c : call) : own_entry_only (step c).
Proof.
  destruct c; cbn [step]; [apply own_add | apply own_remove | apply own_setQty
                          | apply own_setNote].
Qed.

Lemma run_own_entry (cs : list call) (s : state) (k : string) :
  k ≠ ToString (key s) →
  key (run cs s) = key s ∧ localStorage (run cs s) !! k = localStorage s !! k.
Proof.
  revert s. induction cs as [|c r IH]; intros s Hk; cbn [run]; [split; reflexivity|].
  destruct (own_step c s) as [H1 H2].
  destruct (IH (snd (step c s))) as [H3 H4]; [rewrite H1; exact Hk|].
  split; [congruence|]. rewrite H4. apply H2. exact Hk.
Qed.

Lemma init_state (t c : value) (s : state) :
  key (snd (init t c s)) =
    VStr ("cart:" +:+ ToString t +:+ ":" +:+ ToString (or c (VStr "anon"))) ∧
  localStorage (snd (init t c s)) = localStorage s.
Proof.
  change (init t c s) with
    (syncUI (with_key (VStr ("cart:" +:+ ToString t +:+ ":" +:+
                             ToString (or c (VStr "anon")))) s)).
  exact (store_kept_syncUI _).
Qed.

(** X16. The cart of one key never changes under the calls made for
    another: after [init] for a table and a customer, [getLines()] returns
    the same lines whether or not a sequence of [add], [remove], [setQty]
    and [setNote] ran before under a different key. *)
Theorem carts_do_not_mix (cs : list call) (s : state) (t c : value) :
  "cart:" +:+ ToString t +:+ ":" +:+ ToString (or c (VStr "anon")) ≠ ToString (key s) →
  fst (getLines (snd (init t c (run cs s)))) = fst (getLines (snd (init t c s))).
Proof.
  intros Hk. unfold getLines. rewrite !load_eq. cbn [fst]. f_equal.
  unfold loaded, entry.
  destruct (init_state t c (run cs s)) as [-> ->].
  destruct (init_state t c s) as [-> ->]. cbn [ToString].
  destruct (run_own_entry cs s _ Hk) as [_ ->]. reflexivity.
Qed.

Lemma carts_do_not_mix_witness :
  fst (getLines (snd (init (VStr "T2") VUndef
         (run [Add (VStr "A") (VStr "Pad Thai") (VNum (int 60)); Remove (VStr "B")]
            (snd (init (VStr "T1") VUndef table_two)))))) =
  fst (getLines table_two).
Proof.
  rewrite (carts_do_not_mix _ (snd (init (VStr "T1") VUndef table_two)) (VStr "T2") VUndef).
  - vm_compute. reflexivity.
  - vm_compute. discriminate.
Defined.

Lemma colon_split (a b c d : string) :
  no_colon a = true → no_colon b = true →
  a +:+ ":" +:+ c = b +:+ ":" +:+ d → a = b ∧ c = d.
Proof.
  revert b. induction a as [|x a IH]; intros [|y b] Ha Hb H; cbn in *.
  - injection H as H. split; [reflexivity | exact H].
  - injection H as <- _. discriminate Hb.
  - injection H as -> _. discriminate Ha.
  - injection H as -> H. apply andb_true_iff in Ha as [_ Ha], Hb as [_ Hb].
    destruct (IH b Ha Hb H) as [-> ->]. split; reflexivity.
Qed.

(** X17. When the table tokens hold no colon, [init] gives two carts the
    same key only if the tokens read the same and the customer ids read
    the same, a missing or falsy customer id reading [anon]. *)
Theorem init_keys_differ (t1 c1 t2 c2 : value) (s1 s2 : state) :
  no_colon (ToString t1) = true → no_colon (ToString t2) = true →
  key (snd (init t1 c1 s1)) = key (snd (init t2 c2 s2)) →
  ToString t1 = ToString t2 ∧
  ToString (or c1 (VStr "anon")) = ToString (or c2 (VStr "anon")).
Proof.
  intros H1 H2. destruct (init_state t1 c1 s1) as [-> _].
  destruct (init_state t2 c2 s2) as [-> _]. intros [= H].
  exact (colon_split _ _ _ _ H1 H2 H).
Qed.

Lemma init_keys_differ_witness :
  ToString (VStr "T1") = ToString (VStr "T1") ∧
  ToString (or VNull (VStr "anon")) = ToString (or (VStr "anon") (VStr "anon")).
Proof.
  apply (init_keys_differ (VStr "T1") VNull (VStr "T1") (VStr "anon") fresh pad_thai_once);
    vm_compute; reflexivity.
Defined.

End Isolation.

(** ** The count and the total after [add] *)
Section Badge.

#[local] Existing Instance num_equiv_equivalence.
#[local] Existing Instance num_add_proper.
#[local] Existing Instance num_mul_proper.

Lemma count_on_lines (s : state) (lines : list (list (string * value))) :
  holds s lines → ∃ c, count s = (Ok c, s) ∧ num_equiv c (sum_qty lines).
Proof.
  intros Hh.
  exists (fold_left (λ acc o, num_add acc (num_or (ToNumber (field o "qty")) (int 0)))
            lines (int 0)).
  split.
  - unfold count, mbind, M_bind. rewrite load_eq, Hh. unfold lift. simpl elements.
    cbv iota beta.
    rewrite (reduce_objects _ (λ acc o, num_add acc (num_or (ToNumber (field o "qty")) (int 0))));
      reflexivity.
  - unfold sum_qty. rewrite (fold_left_sum _ (λ o, numeric o "qty")).
    + apply num_add_0_l.
    + intros o. apply num_or_numeric.
Qed.

Lemma total_on_sum (s : state) (lines : list (list (string * value))) :
  holds s lines → ∃ t, total s = (Ok t, s) ∧ num_equiv t (sum_price_qty lines).
Proof.
  intros Hh.
  exists (fold_left (λ acc o, num_add acc (num_mul (num_or (ToNumber (field o "price")) (int 0))
                                                   (num_or (ToNumber (field o "qty")) (int 0))))
            lines (int 0)).
  split.
  - unfold total, mbind, M_bind. rewrite load_eq, Hh. unfold lift. simpl elements.
    cbv iota beta.
    rewrite (reduce_objects _
               (λ acc o, num_add acc (num_mul (num_or (ToNumber (field o "price")) (int 0))
                                              (num_or (ToNumber (field o "qty")) (int 0)))));
      reflexivity.
  - unfold sum_price_qty.
    rewrite (fold_left_sum _ (λ o, num_mul (numeric o "price") (numeric o "qty"))).
    + apply num_add_0_l.
    + intros o. rewrite !num_or_numeric. reflexivity.
Qed.

Lemma sum_app (a b : list num) : num_equiv (sum (a ++ b)) (num_add (sum a) (sum b)).
Proof.
  induction a as [|x a IH]; simpl.
  - symmetry. apply num_add_0_l.
  - rewrite IH. symmetry. apply num_add_assoc.
Qed.

Lemma sum_qty_insert (lines : list (list (string * value))) (i : nat)
  (o o' : list (string * value)) (q : Q) :
  lines !! i = Some o → numeric o "qty" = Fin q → numeric o' "qty" = Fin (q + 1) →
  num_equiv (sum_qty (<[i := o']> lines)) (num_add (sum_qty lines) (int 1)).
Proof.
  intros Hi Hq Hq'. unfold sum_qty. revert i Hi.
  induction lines as [|x r IH]; intros [|i] Hi; try discriminate; simpl in *.
  - injection Hi as ->. rewrite Hq, Hq'.
    destruct (sum (List.map (λ o, numeric o "qty") r)) as [ | | |p]; simpl; auto.
    unfold inject_Z. ring.
  - rewrite (IH i Hi). symmetry. apply num_add_assoc.
Qed.

Lemma sum_price_insert (lines : list (list (string * value))) (i : nat)
  (o o' : list (string * value)) (p q : Q) :
  lines !! i = Some o →
  numeric o "price" = Fin p → numeric o' "price" = Fin p →
  numeric o "qty" = Fin q → numeric o' "qty" = Fin (q + 1) →
  num_equiv (sum_price_qty (<[i := o']> lines)) (num_add (sum_price_qty lines) (Fin p)).
Proof.
  intros Hi Hp Hp' Hq Hq'. unfold sum_price_qty. revert i Hi.
  induction lines as [|x r IH]; intros [|i] Hi; try discriminate; simpl in *.
  - injection Hi as ->. rewrite Hp, Hp', Hq, Hq'. cbn [num_mul].
    destruct (sum (List.map _ r)) as [ | | |z]; simpl; auto. ring.
  - rewrite (IH i Hi). symmetry. apply num_add_assoc.
Qed.

Lemma numeric_number (o : list (string * value)) (k : string) (q : Q) :
  numeric (set_field o k (VNum (Fin q))) k = Fin q.
Proof. unfold numeric. rewrite field_set_field_eq. reflexivity. Qed.

Lemma num_mul_1_r (a : num) : num_equiv (num_mul a (int 1)) a.
Proof. destruct a as [ | | |p]; simpl; try exact I. apply Qmult_1_r. Qed.

(** The quantity of a line of a cart whose quantities are numbers or
    [null], and what [add] makes of it. *)
Lemma quantity_plus_one (s : state) (lines : list (list (string * value))) (i : nat)
  (o : list (string * value)) :
  holds s lines → Forall (λ o, number_or_null (field o "qty")) lines → lines !! i = Some o →
  ∃ q, numeric o "qty" = Fin q ∧
       plus (field o "qty") (VNum (int 1)) = VNum (Fin (q + 1)).
Proof.
  intros Hh Hf Hl. destruct (proj1 (Forall_lookup _ _) Hf i o Hl) as [E|[m E]].
  - exists 0%Q. unfold numeric. rewrite E. split; reflexivity.
  - destruct (field_is_json o "qty" (line_is_json s lines i o Hh Hl)) as [H|[j H]];
      rewrite E in H; [discriminate|].
    symmetry in H. destruct (number_or_null_json j m H) as [p ->].
    exists p. unfold numeric. rewrite E. split; reflexivity.
Qed.





End Badge.

(** ** [remove] after [add], and after [remove] *)
Section Undo.

Lemma new_line_id (id name price : value) (new : list (string * value)) :
  plain_id id = true → reload (new_line id name price) = VObj new →
  strict_eq (field new "menu_item_id") id = true.
Proof.
  unfold reload, new_line. intros Hid.
  destruct id as [ | | b | [ | | |q] | t | a | o]; try discriminate Hid; simpl;
    destruct (to_json name), (to_json price); simpl; intros [= <-]; simpl;
    first [ reflexivity
          | destruct b; reflexivity
          | apply Qeq_bool_iff; reflexivity
          | apply String.eqb_refl ].
Qed.



End Undo.

(** ** The install listener of the service worker *)
Section Install.
Import ServiceWorker Lifecycle.
Context {response : Type}.
Variable accepted : response → bool.
Variable fetch : request → result response.

Lemma fetch_all_ok (urls : list string) :
  Forall (λ u, ∃ r, fetch (GET u) = Ok r ∧ accepted r = true) urls →
  ∃ l, fetch_all accepted fetch urls = Ok l.
Proof.
  induction 1 as [|u r (res & Hf & Hok) _ (l & Hl)]; cbn [fetch_all].
  - exists []. reflexivity.
  - rewrite Hf, Hok, Hl. eauto.
Qed.

Lemma fetch_all_inv (urls : list string) (l : list (string * response)) :
  fetch_all accepted fetch urls = Ok l →
  List.map fst l = urls ∧
  Forall (λ e, fetch (GET (fst e)) = Ok (snd e) ∧ accepted (snd e) = true) l.
Proof.
  revert l. induction urls as [|u r IH]; intros l; cbn [fetch_all].
  - intros [= <-]. split; [reflexivity | constructor].
  - destruct (fetch (GET u)) as [res|e] eqn:E; [|discriminate].
    destruct (accepted res) eqn:Hok; [|discriminate].
    destruct (fetch_all accepted fetch r) as [l'|e]; [|discriminate].
    intros [= <-]. destruct (IH l' eq_refl) as [Hm Ha].
    split; [simpl; rewrite Hm; reflexivity|]. constructor; [split; assumption | exact Ha].
Qed.

Lemma fetch_all_fails (urls : list string) :
  Exists (λ u, match fetch (GET u) with Ok r => accepted r = false | Throw _ => True end) urls →
  ∃ e, fetch_all accepted fetch urls = Throw e.
Proof.
  induction urls as [|u r IH]; intros H; [inversion H|]. cbn [fetch_all].
  destruct (fetch (GET u)) as [res|e] eqn:E; [|eauto].
  destruct (accepted res) eqn:Hok; [|eauto].
  inversion H as [? ? H1|? ? H1]; subst.
  - rewrite E in H1. congruence.
  - destruct (IH H1) as [e ->]. eauto.
Qed.

Lemma put_all_lookup (l : list (string * response)) (c : gmap string response) (u : string)
  (r : response) :
  NoDup (List.map fst l) → (u, r) ∈ l → put_all l c !! u = Some r.
Proof.
  unfold put_all. revert c. induction l as [|[u' r'] l IH]; intros c Hnd Hin.
  - inversion Hin.
  - cbn [fold_left fst snd]. cbn [List.map fst] in Hnd. apply NoDup_cons in Hnd as [Hu Hnd].
    apply elem_of_cons in Hin as [[= -> ->]|Hin].
    + clear IH. revert c. induction l as [|[u2 r2] l IH]; intros c; cbn [fold_left fst snd].
      * apply lookup_insert_eq.
      * cbn [List.map fst] in Hu, Hnd. apply NoDup_cons in Hnd as [_ Hnd].
        rewrite insert_insert_ne.
        -- apply IH; [|exact Hnd]. intros H. apply Hu. right. exact H.
        -- intros ->. apply Hu. left.
    + apply IH; assumption.
Qed.

Lemma put_all_other (l : list (string * response)) (c : gmap string response) (u : string) :
  u ∉ List.map fst l → put_all l c !! u = c !! u.
Proof.
  unfold put_all. revert c. induction l as [|[u' r'] l IH]; intros c Hu; [reflexivity|].
  cbn [fold_left fst snd]. cbn [List.map fst] in Hu. apply not_elem_of_cons in Hu as [Hne Hu].
  rewrite (IH _ Hu). apply lookup_insert_ne. congruence.
Qed.

Lemma assets_distinct : NoDup ASSETS.
Proof.
  unfold ASSETS. repeat (apply NoDup_cons; split;
    [intros H; repeat (apply elem_of_cons in H as [H|H]; [discriminate|]); inversion H|]).
  apply NoDup_nil_2.
Qed.

Lemma stored_open (name : string) (cs : list (string * gmap string response)) (u : string) :
  stored (caches_open name cs) u = stored cs u.
Proof.
  unfold caches_open. destruct (List.existsb _ cs); [reflexivity|].
  induction cs as [|c r IH]; cbn [stored app snd]; [reflexivity|].
  rewrite IH. reflexivity.
Qed.

Lemma open_has (name : string) (cs : list (string * gmap string response)) :
  ∃ c, (name, c) ∈ caches_open name cs.
Proof.
  unfold caches_open. destruct (List.existsb _ cs) eqn:E.
  - apply List.existsb_exists in E as ([n c] & Hin & Hn). simpl in Hn.
    apply String.eqb_eq in Hn as ->. exists c. apply list_elem_of_In. exact Hin.
  - exists ∅. apply elem_of_app. right. left.
Qed.

Lemma stored_put (name : string) (l : list (string * response))
  (cs : list (string * gmap string response)) (u : string) (r : response) :
  NoDup (List.map fst l) → (u, r) ∈ l → (∃ c, (name, c) ∈ cs) →
  ∃ r', stored (put_into name l cs) u = Some r'.
Proof.
  intros Hnd Hin [c Hc]. induction cs as [|[n c'] cs IH]; [inversion Hc|].
  cbn [put_into List.map stored fst snd].
  destruct (String.eqb_spec n name) as [->|Hne]; cbn [snd].
  - rewrite (put_all_lookup l c' u r Hnd Hin). eauto.
  - destruct (c' !! u); [eauto|]. apply IH.
    apply elem_of_cons in Hc as [[= -> ->]|Hc]; [contradiction | exact Hc].
Qed.

Lemma stored_put_other (name : string) (l : list (string * response))
  (cs : list (string * gmap string response)) (u : string) :
  u ∉ List.map fst l → stored (put_into name l cs) u = stored cs u.
Proof.
  intros Hu. induction cs as [|[n c] cs IH]; [reflexivity|].
  cbn [put_into List.map stored fst snd]. fold (put_into name l cs). rewrite IH.
  destruct (String.eqb n name); cbn [snd]; [rewrite (put_all_other l c u Hu)|]; reflexivity.
Qed.

Lemma put_into_named (name : string) (l : list (string * response))
  (cs : list (string * gmap string response)) (c : gmap string response) :
  (name, c) ∈ put_into name l cs → ∃ c0, (name, c0) ∈ cs ∧ c = put_all l c0.
Proof.
  unfold put_into. intros H. apply list_elem_of_In, in_map_iff in H as ([n c0] & H & Hin).
  cbn [fst snd] in H. apply list_elem_of_In in Hin.
  destruct (String.eqb_spec n name) as [->|Hne].
  - injection H as <-. eauto.
  - injection H as -> _. contradiction.
Qed.

Lemma named_put_into (name : string) (l : list (string * response))
  (cs : list (string * gmap string response)) (c : gmap string response) :
  (name, c) ∈ cs → (name, put_all l c) ∈ put_into name l cs.
Proof.
  intros H. unfold put_into. apply list_elem_of_In, in_map_iff. exists (name, c).
  cbn [fst snd]. rewrite String.eqb_refl. split; [reflexivity|].
  apply list_elem_of_In. exact H.
Qed.

Lemma fetched_entry (l : list (string * response)) (urls : list string) (u : string) :
  fetch_all accepted fetch urls = Ok l → u ∈ urls →
  ∃ r, (u, r) ∈ l ∧ fetch (GET u) = Ok r.
Proof.
  intros Hl Hu. destruct (fetch_all_inv urls l Hl) as [Hm Ha]. rewrite <- Hm in Hu.
  apply list_elem_of_In, in_map_iff in Hu as ([u' r] & Hfst & Hin). cbn [fst] in Hfst.
  subst u'. exists r. split; [apply list_elem_of_In; exact Hin|].
  exact (proj1 (proj1 (List.Forall_forall _ _) Ha (u, r) Hin)).
Qed.

(** X21. The install is all or nothing.  When every asset is fetched and
    taken, the promise given to [waitUntil] fulfils, [skipWaiting] is
    called, the cache [qr-order-cache-v1] exists and holds under each
    asset the response fetched, and what is stored under every other URL
    is as before.  When one asset cannot be fetched or is not taken, the
    promise rejects, [skipWaiting] is not called, and what is stored under
    every URL is as before. *)
Theorem install_is_all_or_nothing (w : worker response) :
  (Forall (λ u, ∃ r, fetch (GET u) = Ok r ∧ accepted r = true) ASSETS →
   ∃ w', on_install accepted fetch w = (Ok tt, w') ∧
         skipped_waiting w' = true ∧
         (∃ c, (CACHE, c) ∈ caches w') ∧
         (∀ u r c, u ∈ ASSETS → fetch (GET u) = Ok r → (CACHE, c) ∈ caches w' →
                   c !! u = Some r) ∧
         (∀ u, u ∉ ASSETS → stored (caches w') u = stored (caches w) u)) ∧
  (Exists (λ u, match fetch (GET u) with
                | Ok r => accepted r = false
                | Throw _ => True
                end) ASSETS →
   ∃ e w', on_install accepted fetch w = (Throw e, w') ∧
           skipped_waiting w' = skipped_waiting w ∧
           ∀ u, stored (caches w') u = stored (caches w) u).
Proof.
  split.
  - intros Hall. destruct (fetch_all_ok ASSETS Hall) as [l Hl].
    destruct (fetch_all_inv ASSETS l Hl) as [Hm _].
    unfold on_install. rewrite Hl. eexists. split; [reflexivity|].
    cbn [skipped_waiting caches]. split; [reflexivity|]. split; [|split].
    + destruct (open_has CACHE (caches w)) as [c Hc]. exists (put_all l c).
      apply named_put_into. exact Hc.
    + intros u r c Hu Hr Hc. apply put_into_named in Hc as (c0 & _ & ->).
      destruct (fetched_entry l ASSETS u Hl Hu) as (r' & Hin & Hr').
      rewrite Hr in Hr'. injection Hr' as <-.
      apply put_all_lookup; [rewrite Hm; apply assets_distinct | exact Hin].
    + intros u Hu. rewrite stored_put_other by (rewrite Hm; exact Hu). apply stored_open.
  - intros Hex. destruct (fetch_all_fails ASSETS Hex) as [e He].
    unfold on_install. rewrite He. exists e. eexists. split; [reflexivity|].
    cbn [skipped_waiting caches]. split; [reflexivity|]. intros u. apply stored_open.
Qed.

(** X22. After an install that succeeded, and the activation, a GET of an
    asset is answered from the cache and the network is not asked,
    whatever the network then does; on a first install the answer is the
    response fetched at install. *)
Theorem precached_assets_need_no_network (w w' : worker response)
  (later : request → result response) (u : string) :
  on_install accepted fetch w = (Ok tt, w') → u ∈ ASSETS →
  ∃ r, on_fetch (caches_match (caches (snd (on_activate w')))) later (GET u) =
         {| respondWith := Some (Some r); calls := [CachesMatch (GET u)] |} ∧
       (caches w = [] → fetch (GET u) = Ok r).
Proof.
  unfold on_install. destruct (fetch_all accepted fetch ASSETS) as [l|e] eqn:Hl; [|discriminate].
  intros [= <-] Hu. destruct (fetch_all_inv ASSETS l Hl) as [Hm _].
  destruct (fetched_entry l ASSETS u Hl Hu) as (r & Hin & Hr).
  assert (Hnd : NoDup (List.map fst l)) by (rewrite Hm; apply assets_distinct).
  destruct (stored_put CACHE l (caches_open CACHE (caches w)) u r Hnd Hin
              (open_has CACHE (caches w))) as [r' Hr'].
  exists r'. unfold on_fetch, caches_match. cbn [on_activate snd caches method url GET].
  cbn [String.eqb Ascii.eqb Bool.eqb negb]. rewrite Hr'. split; [reflexivity|].
  intros Hw. rewrite Hw in Hr'. cbn in Hr'.
  rewrite (put_all_lookup l ∅ u r Hnd Hin) in Hr'. injection Hr' as <-. exact Hr.
Qed.

End Install.

Section Precached.
Import ServiceWorker Lifecycle LifecycleSpec.

Lemma precached_assets_need_no_network_witness :
  ∃ r, on_fetch
         (caches_match
            (caches (snd (on_activate (snd (on_install (λ _, true) online first_run))))))
         offline (GET "/static/app.js") =
         {| respondWith := Some (Some r); calls := [CachesMatch (GET "/static/app.js")] |} ∧
       (caches first_run = [] → online (GET "/static/app.js") = Ok r).
Proof.
  apply (precached_assets_need_no_network (λ _, true) online first_run).
  - vm_compute. reflexivity.
  - unfold ASSETS. apply list_elem_of_further, list_elem_of_here.
Defined.

End Precached.

(** ** The messages of the staff socket *)
Section Messages.
Import Staff StaffSpec Socket SocketSpec.

(** X23. A message that is no JSON changes nothing at all.  A message
    whose [type] cannot be read ([null]), or is none of the four types
    the handler acts on, is written to the console and changes nothing
    else.  A message of type [new_order] or [order_created] reloads the
    page once and changes nothing else. *)
Theorem messages_without_a_status (t : tab) :
  (∀ raw, onmessage (Malformed raw) t = t) ∧
  (∀ j, type_of j = None → onmessage (JSON j) t = logged [VStr "STAFF WS:"; of_json j] t) ∧
  (∀ j v, type_of j = Some v → (∀ k, k ∈ acted_on → v ≠ VStr k) →
          onmessage (JSON j) t = logged [VStr "STAFF WS:"; of_json j] t) ∧
  (∀ j, type_of j = Some (VStr "new_order") ∨ type_of j = Some (VStr "order_created") →
        onmessage (JSON j) t = reloaded (logged [VStr "STAFF WS:"; of_json j] t)).
Proof.
  split; [reflexivity|]. split; [|split].
  - intros j. unfold type_of, onmessage. cbn [JSON_parse].
    destruct (get (of_json j) "type"); [discriminate | reflexivity].
  - intros j v. unfold type_of, onmessage. cbn [JSON_parse].
    destruct (get (of_json j) "type") as [ty|]; [|discriminate]. intros [= ->] Hk.
    assert (Hne : ∀ k, k ∈ acted_on → strict_eq v (VStr k) = false).
    { intros k Hin. specialize (Hk k Hin). destruct v; try reflexivity. simpl.
      destruct (String.eqb_spec s k); [congruence | reflexivity]. }
    rewrite !Hne by (unfold acted_on; listed).
    reflexivity.
  - intros j. unfold type_of, onmessage. cbn [JSON_parse].
    destruct (get (of_json j) "type") as [ty|]; [|intros [H|H]; discriminate].
    intros [[= ->]|[= ->]]; reflexivity.
Qed.

Lemma onmessage_object (t : tab) (j : json) (o : list (string * value)) :
  of_json j = VObj o →
  onmessage (JSON j) t =
    let t1 := logged [VStr "STAFF WS:"; VObj o] t in
    let type := field o "type" in
    if strict_eq type (VStr "new_order") || strict_eq type (VStr "order_created")
    then reloaded t1
    else if strict_eq type (VStr "payment_update") then
      on_page
        (with_document
           (alter (λ badge,
                     set_className
                       ["badge"; if strict_eq (field o "payment_status") (VStr "paid")
                                 then "text-bg-success" else "text-bg-warning"]
                       (set_text (ToString (or (field o "payment_status") (VStr "unpaid")))
                          badge))
              ("pay-" +:+ ToString (field o "order_id")))) t1
    else if strict_eq type (VStr "order_status") then
      on_page
        (with_document
           (alter (set_text (ToString (or (field o "order_status") (VStr "new"))))
              ("order-status-" +:+ ToString (field o "order_id")))) t1
    else t1.
Proof. intros Ho. unfold onmessage. cbn [JSON_parse]. rewrite Ho. reflexivity. Qed.



(** X25. Whatever the message, the handler leaves every payment button as
    it is, shows no alert, sends no request, adds and removes no element;
    and a message that reloads the page changes no element. *)
Theorem messages_leave_buttons_alone (data : JS.text) (t : tab) :
  (∀ id, document (view (onmessage data t)) !! ("btn-pay-" +:+ id) =
         document (view t) !! ("btn-pay-" +:+ id)) ∧
  alerts (view (onmessage data t)) = alerts (view t) ∧
  requests (view (onmessage data t)) = requests (view t) ∧
  (∀ k, is_Some (document (view (onmessage data t)) !! k) ↔
        is_Some (document (view t) !! k)) ∧
  (reloads (onmessage data t) = reloads t ∨
   reloads (onmessage data t) = S (reloads t) ∧ view (onmessage data t) = view t).
Proof.
  unfold onmessage. destruct (JSON_parse data) as [msg|e].
  2:{ repeat split; auto. }
  destruct (get msg "type") as [ty|e].
  2:{ repeat split; auto. }
  destruct (_ || _).
  { repeat split; auto. }
  destruct (strict_eq ty (VStr "payment_update")).
  { destruct (get msg "order_id") as [id|]; [|repeat split; auto].
    destruct (get msg "payment_status") as [st|]; [|repeat split; auto].
    cbn [view on_page logged document with_document alerts requests reloads].
    split; [intros b; apply lookup_alter_ne; discriminate|].
    split; [reflexivity|]. split; [reflexivity|]. split; [|left; reflexivity].
    intros k. apply is_Some_alter. }
  destruct (strict_eq ty (VStr "order_status")); [|repeat split; auto].
  destruct (get msg "order_id") as [id|]; [|repeat split; auto].
  destruct (get msg "order_status") as [st|]; [|repeat split; auto].
  cbn [view on_page logged document with_document alerts requests reloads].
  split; [intros b; apply lookup_alter_ne; discriminate|].
  split; [reflexivity|]. split; [reflexivity|]. split; [|left; reflexivity].
  intros k. apply is_Some_alter.
Qed.

Lemma page_eq (p q : page) :
  document p = document q → alerts p = alerts q → requests p = requests q → p = q.
Proof. destruct p, q. simpl. intros -> -> ->. reflexivity. Qed.

Lemma confirmPayment_document (post : string → response + exn) (orderId : value) (p : page) :
  document (confirmPayment true post orderId p) =
    match failure (post (path orderId)) with
    | Some _ => alter restored (button orderId) (alter busy (button orderId) (document p))
    | None =>
        alter paid_button (button orderId)
          (alter paid_badge (badge orderId) (alter busy (button orderId) (document p)))
    end.
Proof.
  unfold confirmPayment. cbn [negb]. fold (button orderId).
  destruct (failure (post (path orderId))) as [msg|] eqn:Hf.
  - destruct (try_block_failure post orderId (button orderId)
                (with_document (alter busy (button orderId)) p) msg Hf) as (err & -> & _).
    reflexivity.
  - rewrite (try_block_success post _ _ _ Hf). reflexivity.
Qed.

Lemma confirmed_badge (post : string → response + exn) (orderId : value) (p : page) :
  failure (post (path orderId)) = None →
  document (confirmPayment true post orderId p) !! badge orderId =
    paid_badge <$> document p !! badge orderId.
Proof.
  intros Hf. rewrite confirmPayment_document, Hf.
  rewrite lookup_alter_ne by apply button_not_badge. rewrite lookup_alter_eq.
  rewrite lookup_alter_ne by apply button_not_badge. reflexivity.
Qed.

(** X26. The message that an order was paid and a confirmed
    [confirmPayment] of that order agree on its badge: each alone leaves
    the same badge, and the message changes nothing of a page on which
    [confirmPayment] has succeeded. *)
Theorem paid_message_agrees_with_confirmPayment (post : string → response + exn)
  (orderId : value) (t : tab) (j : json) (o : list (string * value)) :
  of_json j = VObj o →
  field o "type" = VStr "payment_update" →
  field o "payment_status" = VStr "paid" →
  ToString (field o "order_id") = ToString orderId →
  failure (post (path orderId)) = None →
  document (view (onmessage (JSON j) t)) !! badge orderId =
    document (confirmPayment true post orderId (view t)) !! badge orderId ∧
  view (onmessage (JSON j) (on_page (confirmPayment true post orderId) t)) =
    confirmPayment true post orderId (view t).
Proof.
  intros Ho Hty Hst Hid Hf. rewrite !(onmessage_object _ j o Ho). rewrite Hty, Hst, Hid.
  cbn [strict_eq String.eqb Ascii.eqb Bool.eqb orb andb or truthy negb ToString].
  cbn [view on_page logged]. fold (badge orderId). split.
  - cbn [document with_document]. rewrite lookup_alter_eq.
    rewrite (confirmed_badge post orderId (view t) Hf).
    destruct (document (view t) !! badge orderId); reflexivity.
  - apply page_eq; [|reflexivity|reflexivity]. cbn [document with_document].
    apply alter_id. intros el Hel. rewrite (confirmed_badge post orderId (view t) Hf) in Hel.
    destruct (document (view t) !! badge orderId) as [el0|]; [|discriminate].
    injection Hel as <-. reflexivity.
Qed.

Lemma paid_message_agrees_with_confirmPayment_witness :
  document (view (onmessage (JSON paid_message) staff_tab)) !! "pay-7" =
  document (confirmPayment true accepts (VNum (int 7)) (view staff_tab)) !! "pay-7".
Proof.
  apply (paid_message_agrees_with_confirmPayment accepts (VNum (int 7)) staff_tab paid_message
           [("type", VStr "payment_update"); ("order_id", VNum (Fin 7));
            ("payment_status", VStr "paid")]); reflexivity.
Defined.

(** X27. [confirmPayment] changes at most the button and the badge of its
    order, adds and removes no element, sends exactly one request, the
    [POST] for the order, when the dialog is accepted and none when it is
    declined, and shows at most one alert. *)
Theorem confirmPayment_touches_one_order (confirm : bool) (post : string → response + exn)
  (orderId : value) (p : page) :
  let p' := confirmPayment confirm post orderId p in
  (∀ k, k ≠ button orderId → k ≠ badge orderId → document p' !! k = document p !! k) ∧
  (∀ k, is_Some (document p' !! k) ↔ is_Some (document p !! k)) ∧
  requests p' = (requests p ++ if confirm then [("POST", path orderId)] else [])%list ∧
  (alerts p' = alerts p ∨ ∃ m, alerts p' = (alerts p ++ [m])%list).
Proof.
  intros p'. subst p'. destruct confirm.
  2:{ cbn. rewrite app_nil_r. repeat split; auto. }
  rewrite confirmPayment_document. unfold confirmPayment. cbn [negb]. fold (button orderId).
  destruct (failure (post (path orderId))) as [msg|] eqn:Hf.
  - destruct (try_block_failure post orderId (button orderId)
                (with_document (alter busy (button orderId)) p) msg Hf) as (err & -> & _).
    cbn [alerts requests document with_document alert sent].
    split; [intros k H1 H2; rewrite !lookup_alter_ne by congruence; reflexivity|].
    split; [intros k; rewrite !is_Some_alter; reflexivity|].
    split; [reflexivity|]. right. eauto.
  - rewrite (try_block_success post _ _ _ Hf).
    cbn [alerts requests document with_document alert sent].
    split; [intros k H1 H2; rewrite !lookup_alter_ne by congruence; reflexivity|].
    split; [intros k; rewrite !is_Some_alter; reflexivity|].
    split; [reflexivity|]. left. reflexivity.
Qed.

(** X28. A failed attempt leaves no trace on the elements: when the
    button of the order has a text, or there is no button, the elements
    after a second [confirmPayment] are those the second would have left
    without the first, whether the second succeeds or fails. *)
Theorem failed_attempt_leaves_no_trace (post1 post2 : string → response + exn)
  (orderId : value) (p : page) (msg : string) :
  failure (post1 (path orderId)) = Some msg →
  (∀ el, document p !! button orderId = Some el → textContent el ≠ EmptyString) →
  document (confirmPayment true post2 orderId (confirmPayment true post1 orderId p)) =
  document (confirmPayment true post2 orderId p).
Proof.
  intros Hf Hel. rewrite !(confirmPayment_document post2).
  rewrite (confirmPayment_document post1), Hf.
  assert (alter busy (button orderId)
            (alter restored (button orderId) (alter busy (button orderId) (document p))) =
          alter busy (button orderId) (document p)) as ->; [|reflexivity].
  apply map_eq. intros k. destruct (decide (k = button orderId)) as [->|Hne].
  - rewrite !lookup_alter_eq. destruct (document p !! button orderId) as [el|] eqn:E;
      [|reflexivity].
    cbn. unfold busy, restored. cbn. f_equal. f_equal.
    destruct (String.eqb_spec (textContent el) EmptyString) as [H|H]; [|reflexivity].
    destruct (Hel el eq_refl H).
  - rewrite !lookup_alter_ne by congruence. reflexivity.
Qed.

Lemma failed_attempt_leaves_no_trace_witness :
  document (confirmPayment true accepts (VNum (int 7))
              (confirmPayment true refuses (VNum (int 7)) labelled)) =
  document (confirmPayment true accepts (VNum (int 7)) labelled).
Proof.
  apply (failed_attempt_leaves_no_trace refuses accepts (VNum (int 7)) labelled
           "payment not found").
  - reflexivity.
  - intros el Hel. vm_compute in Hel. injection Hel as <-. discriminate.
Defined.

End Messages.
